(** * RocksDB-backed embedding table: a shallow embedding of
      [core/kernels/rocksdb_table_op.cc]

    The development follows the C++ source function by function.  Byte
    buffers ([std::string], [rocksdb::Slice]) are Rocq strings, the store is
    a finite map from column-family handles to ordered key/value maps, and
    every method of [RocksDBTableOfTensors] is a function from the table
    state to an [outcome]: a returned [tensorflow::Status], a thrown
    [std::runtime_error], or behaviour the C++ standard leaves undefined.

    Platform assumptions, as on the x86-64 targets the library is built
    for: little-endian object representation and 8-byte pointers. *)

From Stdlib Require Import ZArith String Ascii Lia.
From stdpp Require Import gmap strings list fin_maps sorting.

Local Open Scope string_scope.

(** ** Outcomes of a call *)

(** The [std::runtime_error]s the file throws, one constructor per throw
    site (the message text is not modelled). *)
Inductive runtime_error : Type :=
  | UnexpectedSliceSize (expected got : nat)   (* copyToTensor<T> *)
  | BufferOverflowImmanent                     (* copyToTensor<tstring> *)
  | MoreValuesThanTensor                       (* copyToTensor<tstring> *)
  | ValueSizeTooLarge                          (* assignSlice<tstring> *)
  | KeyTooLong                                 (* ExportValues *)
  | ValueTooLarge                              (* ExportValues *)
  | ResponseCountMismatch                      (* Find, bulk path *)
  | StoreStatus.                               (* RDB_OK / status.getState() *)

(** Behaviour that is undefined in C++. *)
Inductive fault : Type :=
  | DivisionByZero
  | InvalidColumnHandle          (* a null, dangling or missing handle is used *)
  | ColumnHandleOutOfRange       (* a vector of handles is indexed past its end *)
  | TensorOutOfBounds            (* a key tensor is read past its end *)
  | DefaultOutOfBounds           (* the default-value buffer is read past its end *)
  | OutOfFuel.                   (* never produced: see [ImportValues_fuel] *)

Inductive outcome (A : Type) : Type :=
  | Done (a : A)
  | Throw (e : runtime_error)
  | Undefined (f : fault).
Arguments Done {A} a.
Arguments Throw {A} e.
Arguments Undefined {A} f.

Definition bind {A B : Type} (m : outcome A) (k : A -> outcome B) : outcome B :=
  match m with
  | Done a => k a
  | Throw e => Throw e
  | Undefined f => Undefined f
  end.

Notation "x <- m ;; k" := (bind m (fun x => k))
  (at level 100, m at next level, right associativity).

(** [tensorflow::error::Code], the codes this file returns. *)
Inductive Code : Type :=
  | OK | INVALID_ARGUMENT | PERMISSION_DENIED | UNKNOWN
  | NOT_FOUND | OUT_OF_RANGE | INTERNAL.

Global Instance Code_eq_dec : EqDecision Code.
Proof. solve_decision. Defined.

(** ** Bytes and fixed-width little-endian integers *)

(** Object representation of a [w]-byte integer: the low [8*w] bits of [z],
    least significant byte first. *)
Fixpoint le_bytes (w : nat) (z : Z) : string :=
  match w with
  | O => EmptyString
  | S w' => String (ascii_of_N (Z.to_N (Z.land z 255))) (le_bytes w' (Z.shiftr z 8))
  end.

(** The unsigned integer a byte buffer represents. *)
Fixpoint le_value (s : string) : Z :=
  match s with
  | EmptyString => 0
  | String c s' => Z.lor (Z.of_N (N_of_ascii c)) (Z.shiftl (le_value s') 8)
  end.

(** Reinterpretation of an unsigned [8*w]-bit pattern as two's complement. *)
Definition to_signed (w : nat) (u : Z) : Z :=
  if Z.testbit u (8 * Z.of_nat w - 1) then u - Z.shiftl 1 (8 * Z.of_nat w) else u.

(** The first [n] bytes of [s] and the rest, or [None] when [s] is shorter. *)
Fixpoint read_n (n : nat) (s : string) : option (string * string) :=
  match n with
  | O => Some (EmptyString, s)
  | S n' =>
      match s with
      | EmptyString => None
      | String c s' =>
          match read_n n' s' with
          | Some (a, r) => Some (String c a, r)
          | None => None
          end
      end
  end.

Definition UINT8_MAX : nat := 255.
Definition UINT32_MAX : Z := 4294967295.

(** ** Constants of the file (lines 26-34) *)

Definition RDB_BATCH_MODE_MIN_QUERY_SIZE : nat := 2.
Definition RDB_BATCH_MODE_MAX_QUERY_SIZE : nat := 128.
Definition RDB_EXPORT_FILE_MAGIC : Z :=
  Z.lor (Z.lor (Z.lor (Z.shiftl 84 0)      (* 'T' *)
                      (Z.shiftl 70 8))     (* 'F' *)
               (Z.shiftl 75 16))            (* 'K' *)
        (Z.shiftl 86 24).                   (* 'V' *)
Definition RDB_EXPORT_FILE_VERSION : Z := 1.

(** ** Tensor element types *)

Inductive DataType : Type :=
  | DT_BOOL | DT_INT8 | DT_INT16 | DT_INT32 | DT_INT64
  | DT_HALF | DT_FLOAT | DT_DOUBLE | DT_STRING.

Global Instance DataType_eq_dec : EqDecision DataType.
Proof. solve_decision. Defined.

(** The element types the kernels are registered for (lines 562-590): the
    fixed-width ones, given by their type tag and [sizeof], and [tstring].
    A fixed-width element is modelled by the integer its bytes represent. *)
Inductive ElemType : Type :=
  | fixed_width (dt : DataType) (w : nat)
  | tstring.

Definition carrier (T : ElemType) : Type :=
  match T with
  | fixed_width _ _ => Z
  | tstring => string
  end.
Coercion carrier : ElemType >-> Sortclass.

Definition int32 : ElemType := fixed_width DT_INT32 4.
Definition int64 : ElemType := fixed_width DT_INT64 8.

Definition DataTypeToEnum (T : ElemType) : DataType :=
  match T with
  | fixed_width dt _ => dt
  | tstring => DT_STRING
  end.

Definition sizeof (T : ElemType) : nat :=
  match T with
  | fixed_width _ w => w
  | tstring => 24
  end.

(** [n] consecutive chunks of [w] bytes each. *)
Fixpoint chunks (w n : nat) (s : string) : list string :=
  match n with
  | O => []
  | S n' =>
      match read_n w s with
      | Some (a, r) => a :: chunks w n' r
      | None => []
      end
  end.

Definition concat_bytes (l : list string) : string :=
  foldr String.append EmptyString l.

(** The primary template of [copyToTensor] (lines 45-55): a fixed-width
    element is copied byte for byte. *)
Definition copyToTensor_fixed (w : nat) (slice : string) (numValues : nat)
  : outcome (list Z) :=
  if negb (String.length slice =? numValues * w)%nat
  then Throw (UnexpectedSliceSize (numValues * w) (String.length slice))
  else Done (map (fun c => to_signed w (le_value c)) (chunks w numValues slice)).

(** The [tstring] specialisation of [copyToTensor] (lines 57-86): each
    element is a [uint32] length followed by that many bytes. *)
Fixpoint copyToTensor_tstring (src : string) (numValues : nat) {struct numValues}
  : outcome (list string) :=
  match numValues with
  | O =>
      if negb (String.length src =? 0)%nat then Throw MoreValuesThanTensor
      else Done []
  | S n' =>
      match read_n 4 src with
      | None => Throw BufferOverflowImmanent
      | Some (lenb, src1) =>
          match read_n (Z.to_nat (le_value lenb)) src1 with
          | None => Throw BufferOverflowImmanent
          | Some (elt, src2) =>
              rest <- copyToTensor_tstring src2 n' ;;
              Done (elt :: rest)
          end
      end
  end.

(** The [tstring] specialisation of [assignSlice] for a run of values
    (lines 106-125). *)
Fixpoint assignSlice_tstring (src : list string) : outcome string :=
  match src with
  | [] => Done EmptyString
  | s :: src' =>
      if (UINT32_MAX <? Z.of_nat (String.length s))%Z then Throw ValueSizeTooLarge
      else
        rest <- assignSlice_tstring src' ;;
        Done (le_bytes 4 (Z.of_nat (String.length s)) ++ s ++ rest)
  end.

(** [copyToTensor(T*, const std::string&, const int64&)], lines 45-86. *)
Definition copyToTensor (T : ElemType) : string -> nat -> outcome (list T) :=
  match T with
  | fixed_width _ w => copyToTensor_fixed w
  | tstring => copyToTensor_tstring
  end.

(** [assignSlice(rocksdb::Slice&, const T&)], lines 88-98. *)
Definition assignSlice (T : ElemType) : T -> string :=
  match T with
  | fixed_width _ w => le_bytes w
  | tstring => fun src => src
  end.

(** [assignSlice(rocksdb::PinnableSlice&, const T*, const int64)],
    lines 100-125. *)
Definition assignSlice_n (T : ElemType) : list T -> outcome string :=
  match T with
  | fixed_width _ w => fun src => Done (concat_bytes (map (le_bytes w) src))
  | tstring => assignSlice_tstring
  end.

(** [assignSlice(kSlice, k)] with [k] of type [const K*] (lines 271, 359,
    367, 396, 403): template deduction picks the primary template at
    [T = const K*], so the slice is the object representation of the pointer
    itself, [sizeof(const K* )] bytes holding the address of the key. *)
Definition assignSlice_pointer (k : Z) : string := le_bytes 8 k.

(** A tensor as the table sees it: the runtime type tag, the address of the
    buffer, the first dimension and the flattened elements. *)
Record Tensor (T : Type) : Type := {
  dtype : DataType;
  data : Z;
  dim_size0 : nat;
  flat : list T
}.
Arguments dtype {T} _.
Arguments data {T} _.
Arguments dim_size0 {T} _.
Arguments flat {T} _.

Definition NumElements {T : Type} (t : Tensor T) : nat := length (flat t).

(** ** The store

    RocksDB is an external library; this is its documented interface as far
    as the table uses it.  A column family is an ordered map from key bytes
    to value bytes, and an open column family is named by its handle.
    Engine failures such as I/O errors are outside the model.  The one
    refusal the table can provoke by itself is modelled: the engine does not
    drop its default column family, the one named "default", so the store
    records which handle names it. *)

(** [rocksdb::kDefaultColumnFamilyName]. *)
Definition kDefaultColumnFamilyName : string := "default".

Record DB : Type := {
  families : gmap nat (gmap string string);
  next_handle : nat;
  default_family : nat
}.

(** [DB::Get]: [Some v] is an ok status with the value, [None] is
    [Status::NotFound]. *)
Definition Get (d : DB) (column_family : nat) (key : string)
  : outcome (option string) :=
  match families d !! column_family with
  | Some cf => Done (cf !! key)
  | None => Undefined InvalidColumnHandle
  end.

(** [DB::MultiGet(options, column_family, keys, values)]: [keys[i]] is looked
    up in [column_family[i]]; one status per key. *)
Fixpoint MultiGet (d : DB) (column_family : list nat) (keys : list string)
  {struct keys} : outcome (list (option string)) :=
  match keys with
  | [] => Done []
  | k :: keys' =>
      match column_family with
      | [] => Undefined ColumnHandleOutOfRange
      | h :: column_family' =>
          r <- Get d h k ;;
          rs <- MultiGet d column_family' keys' ;;
          Done (r :: rs)
      end
  end.

(** The records of a [rocksdb::WriteBatch], in the order they were added. *)
Inductive batch_op : Type :=
  | BatchPut (column_family : nat) (key value : string)
  | BatchDelete (column_family : nat) (key : string).

Definition apply_op (d : DB) (op : batch_op) : outcome DB :=
  match op with
  | BatchPut h k v =>
      match families d !! h with
      | Some cf => Done {| families := <[h := <[k := v]> cf]> (families d);
                           next_handle := next_handle d;
                           default_family := default_family d |}
      | None => Undefined InvalidColumnHandle
      end
  | BatchDelete h k =>
      match families d !! h with
      | Some cf => Done {| families := <[h := delete k cf]> (families d);
                           next_handle := next_handle d;
                           default_family := default_family d |}
      | None => Undefined InvalidColumnHandle
      end
  end.

(** [DB::Write]: the batch is applied in order, as one unit. *)
Fixpoint Write (d : DB) (batch : list batch_op) : outcome DB :=
  match batch with
  | [] => Done d
  | op :: batch' => d' <- apply_op d op ;; Write d' batch'
  end.

Definition Put (d : DB) (h : nat) (k v : string) : outcome DB :=
  apply_op d (BatchPut h k v).
Definition Delete (d : DB) (h : nat) (k : string) : outcome DB :=
  apply_op d (BatchDelete h k).

(** [DB::CreateColumnFamily]: a new, empty family under a fresh handle. *)
Definition CreateColumnFamily (d : DB) : nat * DB :=
  (next_handle d,
   {| families := <[next_handle d := ∅]> (families d);
      next_handle := S (next_handle d);
      default_family := default_family d |}).

(** [RDB_OK(db->DropColumnFamily(h))] followed by
    [RDB_OK(db->DestroyColumnFamilyHandle(h))], line 220 and the next: the
    family and its records are gone and the handle is dead.  For the default
    column family the engine returns a status that is not ok, which [RDB_OK]
    throws, and nothing is dropped. *)
Definition DropColumnFamily (d : DB) (h : nat) : outcome DB :=
  match families d !! h with
  | Some _ =>
      if bool_decide (h = default_family d) then Throw StoreStatus
      else Done {| families := delete h (families d);
                   next_handle := next_handle d;
                   default_family := default_family d |}
  | None => Undefined InvalidColumnHandle
  end.

(** The store's key order: bytewise, a proper prefix first. *)
Definition key_le (p q : string * string) : Prop := String.le p.1 q.1.

Global Instance key_le_dec : RelDecision key_le.
Proof. intros p q. unfold key_le. apply _. Defined.

(** [DB::NewIterator] with [SeekToFirst]/[Valid]/[Next]: the records of the
    family in key order.  A null handle is dereferenced by the engine. *)
Definition NewIterator (d : DB) (column_family : option nat)
  : outcome (list (string * string)) :=
  match column_family with
  | None => Undefined InvalidColumnHandle
  | Some h =>
      match families d !! h with
      | Some cf => Done (merge_sort key_le (map_to_list cf))
      | None => Undefined InvalidColumnHandle
      end
  end.

(** ** The file behind [RDB_EXPORT_PATH] *)

Record FileSystem : Type := {
  dump : option string;     (* content of /tmp/db.dump, if it exists *)
  writable : bool           (* whether it can be opened for writing *)
}.

(** A [std::ifstream]: the bytes not yet extracted and the state flags. *)
Record ifstream : Type := {
  unread : string;
  eofbit : bool;
  failbit : bool
}.

(** [file.read(buf, n)] followed by the test [!file]: [n] bytes, or a failed
    stream with [eofbit] and [failbit] set when fewer are left. *)
Definition ifstream_read (n : nat) (f : ifstream) : option string * ifstream :=
  if failbit f || eofbit f
  then (None, {| unread := unread f; eofbit := eofbit f; failbit := true |})
  else
    match read_n n (unread f) with
    | Some (a, r) => (Some a, {| unread := r; eofbit := false; failbit := false |})
    | None => (None, {| unread := EmptyString; eofbit := true; failbit := true |})
    end.

(** ** The table (lines 537-547) *)

Record RocksDBTableOfTensors : Type := {
  readOnly : bool;
  db : DB;
  colHandles : list nat;
  colIndex : nat;
  colHandleCache : list (option nat)
}.

Definition set_db (t : RocksDBTableOfTensors) (d : DB) : RocksDBTableOfTensors :=
  {| readOnly := readOnly t; db := d; colHandles := colHandles t;
     colIndex := colIndex t; colHandleCache := colHandleCache t |}.

Definition set_colHandleCache (t : RocksDBTableOfTensors) (c : list (option nat))
  : RocksDBTableOfTensors :=
  {| readOnly := readOnly t; db := db t; colHandles := colHandles t;
     colIndex := colIndex t; colHandleCache := c |}.

(** The constructor's search for the table's column family among the names
    [DB::ListColumnFamilies] returned (lines 151-160). *)
Fixpoint find_colIndex (embeddingName : string) (colFamilies : list string)
  (colFamilyExists : bool) (colIndex : nat) : nat :=
  match colFamilies with
  | [] => colIndex
  | cf :: rest =>
      let colFamilyExists := colFamilyExists || bool_decide (cf = embeddingName) in
      find_colIndex embeddingName rest colFamilyExists
        (if colFamilyExists then colIndex else S colIndex)
  end.

(** The table's column family is present when [colIndex] names one of the
    open handles. *)
Definition namespace_present (t : RocksDBTableOfTensors) : bool :=
  (colIndex t <? length (colHandles t))%nat.

(** The records of the table's column family, if it is present. *)
Definition namespace_records (t : RocksDBTableOfTensors)
  : option (gmap string string) :=
  h ← colHandles t !! colIndex t; families (db t) !! h.

(** Lines 198-210.  [None] is the null pointer. *)
Definition GetOrCreateColumnHandle (t : RocksDBTableOfTensors)
  : outcome (option nat * RocksDBTableOfTensors) :=
  if (length (colHandles t) <=? colIndex t)%nat then
    if readOnly t then Done (None, t)
    else
      let '(colHandle, d) := CreateColumnFamily (db t) in
      let t' := {| readOnly := readOnly t; db := d;
                   colHandles := (colHandles t ++ [colHandle])%list;
                   colIndex := colIndex t;
                   colHandleCache := colHandleCache t |} in
      match colHandles t' !! colIndex t' with
      | Some h => Done (Some h, t')
      | None => Undefined ColumnHandleOutOfRange
      end
  else
    match colHandles t !! colIndex t with
    | Some h => Done (Some h, t)
    | None => Undefined ColumnHandleOutOfRange
    end.

(** Lines 212-228. *)
Definition Clear (t : RocksDBTableOfTensors)
  : outcome (Code * RocksDBTableOfTensors) :=
  let t := set_colHandleCache t [] in
  if (colIndex t <? length (colHandles t))%nat then
    if readOnly t then Done (PERMISSION_DENIED, t)
    else
      match colHandles t !! colIndex t with
      | None => Undefined ColumnHandleOutOfRange
      | Some h =>
          d <- DropColumnFamily (db t) h ;;
          let handles := delete (colIndex t) (colHandles t) in
          Done (OK, {| readOnly := readOnly t; db := d;
                       colHandles := handles;
                       colIndex := length handles;
                       colHandleCache := colHandleCache t |})
      end
  else Done (OK, t).

(** ** Lookup, insertion and removal (lines 230-411) *)

Section Operations.

Context (K V : ElemType).

(** [std::copy_n(&d[vOffset % dSize], valuesPerDim0, ...)], lines 280 and
    318: the elements read from the default-value buffer. *)
Definition copy_default (d : list V) (dSize vOffset valuesPerDim0 : nat)
  : outcome (list V) :=
  if (dSize =? 0)%nat then Undefined DivisionByZero
  else
    let start := (vOffset mod dSize)%nat in
    if (start + valuesPerDim0 <=? length d)%nat
    then Done (take valuesPerDim0 (drop start d))
    else Undefined DefaultOutOfBounds.

(** Writing [src] to [&v[vOffset]]. *)
Definition write_slot (v : list V) (vOffset : nat) (src : list V) : list V :=
  take vOffset v ++ src ++ drop (vOffset + length src) v.

(** The three-way branch on the status of one key, lines 276-284 and
    314-322.  The store model has no status besides ok and not-found, so
    the final [throw] has no counterpart here. *)
Definition store_result (status : option string) (v : list V)
  (vOffset valuesPerDim0 : nat) (d : list V) (dSize : nat) : outcome (list V) :=
  match status with
  | Some vSlice =>
      decoded <- copyToTensor V vSlice valuesPerDim0 ;;
      Done (write_slot v vOffset decoded)
  | None =>
      src <- copy_default d dSize vOffset valuesPerDim0 ;;
      Done (write_slot v vOffset src)
  end.

(** The point path of [Find], lines 268-285: [n] keys remain, [k] is the
    pointer to the current one. *)
Fixpoint Find_point (store : DB) (colHandle : option nat) (k : Z) (n : nat)
  (v : list V) (vOffset valuesPerDim0 : nat) (d : list V) (dSize : nat)
  : outcome (list V) :=
  match n with
  | O => Done v
  | S n' =>
      let kSlice := assignSlice_pointer k in
      status <- match colHandle with
                | Some h => Get store h kSlice
                | None => Done None
                end ;;
      v' <- store_result status v vOffset valuesPerDim0 d dSize ;;
      Find_point store colHandle (k + Z.of_nat (sizeof K)) n'
        v' (vOffset + valuesPerDim0) valuesPerDim0 d dSize
  end.

(** [kSlices[i]] from [k[i]], lines 295-298. *)
Fixpoint key_slices (k : list K) (numKeys : nat) {struct numKeys}
  : outcome (list string) :=
  match numKeys with
  | O => Done []
  | S n' =>
      match k with
      | [] => Undefined TensorOutOfBounds
      | key :: rest =>
          slices <- key_slices rest n' ;;
          Done (assignSlice K key :: slices)
      end
  end.

(** Processing the statuses of the bulk path, lines 310-323. *)
Fixpoint Find_process (statuses : list (option string)) (v : list V)
  (vOffset valuesPerDim0 : nat) (d : list V) (dSize : nat) : outcome (list V) :=
  match statuses with
  | [] => Done v
  | status :: rest =>
      v' <- store_result status v vOffset valuesPerDim0 d dSize ;;
      Find_process rest v' (vOffset + valuesPerDim0) valuesPerDim0 d dSize
  end.

(** The bulk path of [Find], lines 288-323.  [MultiGet] is given
    [colHandles], the table's vector of all open handles; the vector
    [colHandleCache] filled just before is not used.  With a null handle
    [vSlices] stays empty and [vSlices[i]] only binds a reference that is
    never read. *)
Definition Find_batch (t : RocksDBTableOfTensors) (colHandle : option nat)
  (k : list K) (numKeys : nat) (v : list V) (valuesPerDim0 : nat)
  (d : list V) (dSize : nat) : outcome (list V * RocksDBTableOfTensors) :=
  let t := set_colHandleCache t
             (colHandleCache t ++
              replicate (numKeys - length (colHandleCache t)) colHandle) in
  kSlices <- key_slices k numKeys ;;
  statuses <- match colHandle with
              | Some _ => MultiGet (db t) (colHandles t) kSlices
              | None => Done (replicate numKeys None)
              end ;;
  if negb (length statuses =? numKeys)%nat then Throw ResponseCountMismatch
  else
    v' <- Find_process statuses v 0 valuesPerDim0 d dSize ;;
    Done (v', t).

(** Lines 230-328.  The result carries the content of [values]. *)
Definition Find (t : RocksDBTableOfTensors) (keys : Tensor K)
  (values default_value : Tensor V)
  : outcome (Code * list V * RocksDBTableOfTensors) :=
  if negb (bool_decide (dtype keys = DataTypeToEnum K))
     || negb (bool_decide (dtype values = DataTypeToEnum V))
     || negb (bool_decide (dtype default_value = DataTypeToEnum V))
  then Done (INVALID_ARGUMENT, flat values, t)
  else
    r <- GetOrCreateColumnHandle t ;;
    let '(colHandle, t) := r in
    let numKeys := dim_size0 keys in
    let numValues := dim_size0 values in
    if negb (numKeys =? numValues)%nat
    then Done (INVALID_ARGUMENT, flat values, t)
    else if (numValues =? 0)%nat then Undefined DivisionByZero
    else
      let valuesPerDim0 := (NumElements values / numValues)%nat in
      let dSize := NumElements default_value in
      if (valuesPerDim0 =? 0)%nat then Undefined DivisionByZero
      else if negb (dSize mod valuesPerDim0 =? 0)%nat
      then Done (INVALID_ARGUMENT, flat values, t)
      else if (numKeys <? RDB_BATCH_MODE_MIN_QUERY_SIZE)%nat then
        v <- Find_point (db t) colHandle (data keys) numKeys
               (flat values) 0 valuesPerDim0 (flat default_value) dSize ;;
        Done (OK, v, t)
      else
        r <- Find_batch t colHandle (flat keys) numKeys
               (flat values) valuesPerDim0 (flat default_value) dSize ;;
        let '(v, t) := r in
        Done (OK, v, t).

(** The point path of [Insert], lines 358-362. *)
Fixpoint Insert_point (store : DB) (colHandle : nat) (k : Z) (v : list V)
  (n valuesPerDim0 : nat) : outcome DB :=
  match n with
  | O => Done store
  | S n' =>
      let kSlice := assignSlice_pointer k in
      vSlice <- assignSlice_n V (take valuesPerDim0 v) ;;
      store' <- Put store colHandle kSlice vSlice ;;
      Insert_point store' colHandle (k + Z.of_nat (sizeof K))
        (drop valuesPerDim0 v) n' valuesPerDim0
  end.

(** The loop filling the write batch of [Insert], lines 366-370. *)
Fixpoint Insert_fill (batch : list batch_op) (colHandle : nat) (k : Z)
  (v : list V) (n valuesPerDim0 : nat) : outcome (list batch_op) :=
  match n with
  | O => Done batch
  | S n' =>
      let kSlice := assignSlice_pointer k in
      vSlice <- assignSlice_n V (take valuesPerDim0 v) ;;
      Insert_fill (batch ++ [BatchPut colHandle kSlice vSlice])%list colHandle
        (k + Z.of_nat (sizeof K)) (drop valuesPerDim0 v) n' valuesPerDim0
  end.

(** The bulk path of [Insert], lines 365-371. *)
Definition Insert_batch (store : DB) (colHandle : nat) (k : Z) (v : list V)
  (n valuesPerDim0 : nat) : outcome DB :=
  batch <- Insert_fill [] colHandle k v n valuesPerDim0 ;;
  Write store batch.

(** Lines 330-376. *)
Definition Insert (t : RocksDBTableOfTensors) (keys : Tensor K)
  (values : Tensor V) : outcome (Code * RocksDBTableOfTensors) :=
  if negb (bool_decide (dtype keys = DataTypeToEnum K))
     || negb (bool_decide (dtype values = DataTypeToEnum V))
  then Done (INVALID_ARGUMENT, t)
  else
    r <- GetOrCreateColumnHandle t ;;
    let '(colHandle, t) := r in
    match colHandle with
    | None => Done (PERMISSION_DENIED, t)
    | Some h =>
        if readOnly t then Done (PERMISSION_DENIED, t)
        else
          let numKeys := dim_size0 keys in
          let numValues := dim_size0 values in
          if negb (numKeys =? numValues)%nat then Done (INVALID_ARGUMENT, t)
          else if (numValues =? 0)%nat then Undefined DivisionByZero
          else
            let valuesPerDim0 := (NumElements values / numValues)%nat in
            if (numKeys <? RDB_BATCH_MODE_MIN_QUERY_SIZE)%nat then
              store <- Insert_point (db t) h (data keys) (flat values)
                         numKeys valuesPerDim0 ;;
              Done (OK, set_db t store)
            else
              store <- Insert_batch (db t) h (data keys) (flat values)
                         numKeys valuesPerDim0 ;;
              Done (OK, set_db t store)
    end.

(** The point path of [Remove], lines 395-398. *)
Fixpoint Remove_point (store : DB) (colHandle : nat) (k : Z) (n : nat)
  : outcome DB :=
  match n with
  | O => Done store
  | S n' =>
      store' <- Delete store colHandle (assignSlice_pointer k) ;;
      Remove_point store' colHandle (k + Z.of_nat (sizeof K)) n'
  end.

(** The loop filling the write batch of [Remove], lines 402-405. *)
Fixpoint Remove_fill (batch : list batch_op) (colHandle : nat) (k : Z) (n : nat)
  : list batch_op :=
  match n with
  | O => batch
  | S n' =>
      Remove_fill (batch ++ [BatchDelete colHandle (assignSlice_pointer k)])%list
        colHandle (k + Z.of_nat (sizeof K)) n'
  end.

(** The bulk path of [Remove], lines 401-406. *)
Definition Remove_batch (store : DB) (colHandle : nat) (k : Z) (n : nat)
  : outcome DB :=
  Write store (Remove_fill [] colHandle k n).

(** Lines 378-411. *)
Definition Remove (t : RocksDBTableOfTensors) (keys : Tensor K)
  : outcome (Code * RocksDBTableOfTensors) :=
  if negb (bool_decide (dtype keys = DataTypeToEnum K))
  then Done (INVALID_ARGUMENT, t)
  else
    r <- GetOrCreateColumnHandle t ;;
    let '(colHandle, t) := r in
    match colHandle with
    | None => Done (PERMISSION_DENIED, t)
    | Some h =>
        if readOnly t then Done (PERMISSION_DENIED, t)
        else
          let numKeys := dim_size0 keys in
          if (numKeys <? RDB_BATCH_MODE_MIN_QUERY_SIZE)%nat then
            store <- Remove_point (db t) h (data keys) numKeys ;;
            Done (OK, set_db t store)
          else
            store <- Remove_batch (db t) h (data keys) numKeys ;;
            Done (OK, set_db t store)
    end.

End Operations.

(** ** Export and import (lines 413-535) *)

(** The eight bytes the two header [file.write] calls produce. *)
Definition export_header : string :=
  le_bytes 4 RDB_EXPORT_FILE_MAGIC ++ le_bytes 4 RDB_EXPORT_FILE_VERSION.

(** One record as lines 441-453 write it. *)
Definition frame (record : string * string) : string :=
  le_bytes 1 (Z.of_nat (String.length record.1)) ++ record.1 ++
  le_bytes 4 (Z.of_nat (String.length record.2)) ++ record.2.

(** The iteration of lines 434-454; [file] is what has been written so far. *)
Fixpoint export_loop (iter : list (string * string)) (file : string)
  : outcome string :=
  match iter with
  | [] => Done file
  | (kSlice, vSlice) :: rest =>
      if (UINT8_MAX <? String.length kSlice)%nat then Throw KeyTooLong
      else
        let kSize := Z.of_nat (String.length kSlice) in
        let file := file ++ le_bytes 1 kSize ++ kSlice in
        if (UINT32_MAX <? Z.of_nat (String.length vSlice))%Z then Throw ValueTooLarge
        else
          let vSize := Z.of_nat (String.length vSlice) in
          let file := file ++ le_bytes 4 vSize ++ vSlice in
          export_loop rest file
  end.

(** Lines 414-457.  A throw leaves a partly written file behind, which the
    model does not report. *)
Definition ExportValues (t : RocksDBTableOfTensors) (fs : FileSystem)
  : outcome (Code * RocksDBTableOfTensors * FileSystem) :=
  if negb (writable fs) then Done (UNKNOWN, t, fs)
  else
    let file := le_bytes 4 RDB_EXPORT_FILE_MAGIC in
    let file := file ++ le_bytes 4 RDB_EXPORT_FILE_VERSION in
    r <- GetOrCreateColumnHandle t ;;
    let '(colHandle, t) := r in
    iter <- NewIterator (db t) colHandle ;;
    file <- export_loop iter file ;;
    Done (OK, t, {| dump := Some file; writable := writable fs |}).

(** The loop of lines 498-527 followed by lines 529-534.  Every iteration
    that does not return extracts at least five bytes, so [fuel] above the
    number of unread bytes is never used up. *)
Fixpoint import_loop (fuel : nat) (file : ifstream) (batch : list batch_op)
  (store : DB) (colHandle : nat) : outcome (Code * DB) :=
  match fuel with
  | O => Undefined OutOfFuel
  | S fuel' =>
      if eofbit file then
        (* Write remaining entries, if any. *)
        if negb (length batch =? 0)%nat then
          store <- Write store batch ;;
          Done (OK, store)
        else Done (OK, store)
      else
        (* Read key. *)
        match ifstream_read 1 file with
        | (None, _) => Done (OUT_OF_RANGE, store)
        | (Some kSize, file) =>
            match ifstream_read (Z.to_nat (le_value kSize)) file with
            | (None, _) => Done (OUT_OF_RANGE, store)
            | (Some k, file) =>
                (* Read value. *)
                match ifstream_read 4 file with
                | (None, _) => Done (OUT_OF_RANGE, store)
                | (Some vSize, file) =>
                    match ifstream_read (Z.to_nat (le_value vSize)) file with
                    | (None, _) => Done (OUT_OF_RANGE, store)
                    | (Some v, file) =>
                        (* Append to batch. *)
                        let batch := (batch ++ [BatchPut colHandle k v])%list in
                        (* If batch reached target size, write to database. *)
                        if (length batch mod RDB_BATCH_MODE_MAX_QUERY_SIZE =? 0)%nat
                        then
                          store <- Write store batch ;;
                          import_loop fuel' file [] store colHandle
                        else import_loop fuel' file batch store colHandle
                    end
                end
            end
        end
  end.

(** Lines 459-535.  The [keys] and [values] arguments are not used by the
    source. *)
Definition ImportValues (t : RocksDBTableOfTensors) (fs : FileSystem)
  : outcome (Code * RocksDBTableOfTensors) :=
  (* Make sure the column family is clean. *)
  r <- Clear t ;;
  let '(clearStatus, t) := r in
  if negb (bool_decide (clearStatus = OK)) then Done (clearStatus, t)
  else
    (* Parse header. *)
    match dump fs with
    | None => Done (NOT_FOUND, t)
    | Some content =>
        let file := {| unread := content; eofbit := false; failbit := false |} in
        match ifstream_read 4 file with
        | (None, _) => Done (OUT_OF_RANGE, t)
        | (Some magic, file) =>
            match ifstream_read 4 file with
            | (None, _) => Done (OUT_OF_RANGE, t)
            | (Some version, file) =>
                if negb (le_value magic =? RDB_EXPORT_FILE_MAGIC)%Z
                   || negb (le_value version =? RDB_EXPORT_FILE_VERSION)%Z
                then Done (INTERNAL, t)
                else
                  (* Read payload and subsequently populate column family. *)
                  r <- GetOrCreateColumnHandle t ;;
                  let '(colHandle, t) := r in
                  match colHandle with
                  | None => Done (PERMISSION_DENIED, t)
                  | Some h =>
                      if readOnly t then Done (PERMISSION_DENIED, t)
                      else
                        r <- import_loop (S (String.length (unread file))) file []
                               (db t) h ;;
                        let '(status, store) := r in
                        Done (status, set_db t store)
                  end
            end
        end
    end.

(** ** Vocabulary of the properties *)

Local Open Scope list_scope.
Local Open Scope nat_scope.

(** The invariant of a table state: [colIndex] is at most the number of
    open handles (the constructor counts it so, see [find_colIndex_bound]),
    every open handle names a live column family, and handles not yet issued
    name none. *)
Definition table_wf (t : RocksDBTableOfTensors) : Prop :=
  colIndex t ≤ length (colHandles t) ∧
  (∀ h, h ∈ colHandles t → is_Some (families (db t) !! h)) ∧
  (∀ h, is_Some (families (db t) !! h) → h < next_handle (db t)).

(** The same invariant as a check that can be run. *)
Definition table_wfb (t : RocksDBTableOfTensors) : bool :=
  (colIndex t <=? length (colHandles t)) &&
  forallb (fun h => bool_decide (is_Some (families (db t) !! h))) (colHandles t) &&
  forallb (fun h => h <? next_handle (db t)) (map_to_list (families (db t))).*1.

(** The table right after [GetOrCreateColumnHandle] created its column family. *)
Definition with_created_family (t : RocksDBTableOfTensors) : RocksDBTableOfTensors :=
  {| readOnly := readOnly t;
     db := (CreateColumnFamily (db t)).2;
     colHandles := (colHandles t ++ [(CreateColumnFamily (db t)).1])%list;
     colIndex := colIndex t;
     colHandleCache := colHandleCache t |}.

(** What key number [i] receives on a miss: [valuesPerDim0] elements of the
    default buffer [d] from position [(i * valuesPerDim0) mod |d|]. *)
Definition default_tile {V : Type} (d : list V) (valuesPerDim0 i : nat) : list V :=
  take valuesPerDim0 (drop ((i * valuesPerDim0) mod length d) d).

(** The output buffer after keys [i, i + n) all missed. *)
Definition default_fill {V : Type} (d : list V) (valuesPerDim0 i n : nat) (v : list V)
  : list V :=
  (take (i * valuesPerDim0) v ++
   flat_map (default_tile d valuesPerDim0) (seq i n) ++
   drop ((i + n) * valuesPerDim0) v)%list.

(** A call passes the argument checks of [Find]: matching types, as many
    keys as rows of values, and a default-value buffer whose size is a
    multiple of the row width.  The key tensor holds at least [dim_size0]
    elements, as every tensor does. *)
Definition Find_preconditions (K V : ElemType) (keys : Tensor K)
  (values default_value : Tensor V) : Prop :=
  dtype keys = DataTypeToEnum K ∧
  dtype values = DataTypeToEnum V ∧
  dtype default_value = DataTypeToEnum V ∧
  dim_size0 keys ≤ NumElements keys ∧
  dim_size0 keys = dim_size0 values ∧
  dim_size0 values ≠ 0 ∧
  NumElements values / dim_size0 values ≠ 0 ∧
  NumElements default_value mod (NumElements values / dim_size0 values) = 0.

(** A batch record that deletes from column family [h]. *)
Definition deletes_from (h : nat) (op : batch_op) : Prop :=
  match op with
  | BatchDelete h' _ => h' = h
  | BatchPut _ _ _ => False
  end.

(** A record fits the snapshot frame: its key length fits [uint8_t] and its
    value length [uint32_t]. *)
Definition fits (record : string * string) : Prop :=
  String.length record.1 ≤ UINT8_MAX ∧
  (Z.of_nat (String.length record.2) ≤ UINT32_MAX)%Z.

(** The records of a column family in the order the iterator yields them. *)
Definition stored_records (cf : gmap string string) : list (string * string) :=
  merge_sort key_le (map_to_list cf).

(** A snapshot file: the header and one frame per record. *)
Definition snapshot (records : list (string * string)) : string :=
  (export_header ++ concat_bytes (map frame records))%string.

(** [ExportValues] followed by [ImportValues] into the same table: the two
    statuses and the table afterwards. *)
Definition export_then_import (t : RocksDBTableOfTensors) (fs : FileSystem)
  : outcome (Code * Code * RocksDBTableOfTensors) :=
  r <- ExportValues t fs ;;
  let '(exportStatus, t1, fs1) := r in
  r <- ImportValues t1 fs1 ;;
  let '(importStatus, t2) := r in
  Done (exportStatus, importStatus, t2).

(** The status of an import and the records of the table afterwards. *)
Definition import_result (t : RocksDBTableOfTensors) (fs : FileSystem)
  : option (Code * option (gmap string string)) :=
  match ImportValues t fs with
  | Done (status, t') => Some (status, namespace_records t')
  | _ => None
  end.

(** The status of a [Find] and the content of [values] afterwards. *)
Definition find_result {V : ElemType}
  (r : outcome (Code * list V * RocksDBTableOfTensors)) : outcome (Code * list V) :=
  x <- r ;; Done x.1.

(** The status and table of an [Insert], then the result of a [Find] on
    that table. *)
Definition insert_then_find (K V : ElemType) (t : RocksDBTableOfTensors)
  (keys : Tensor K) (inserted : Tensor V) (keys' : Tensor K)
  (values default_value : Tensor V) : outcome (Code * list V) :=
  r <- Insert K V t keys inserted ;;
  find_result (Find K V r.2 keys' values default_value).

(** A batch record for column family [h]. *)
Definition on_family (h : nat) (op : batch_op) : Prop :=
  match op with
  | BatchPut h' _ _ => h' = h
  | BatchDelete h' _ => h' = h
  end.

(** ** Example states and arguments *)

(** A store holding only the engine's default column family, empty. *)
Definition store_default_only : DB :=
  {| families := {[0 := ∅]}; next_handle := 1; default_family := 0 |}.

(** A table over that store whose own column family does not exist. *)
Definition table_absent (read_only : bool) : RocksDBTableOfTensors :=
  {| readOnly := read_only; db := store_default_only;
     colHandles := [0]; colIndex := 1; colHandleCache := [] |}.

(** One [int64] key, 7, in a buffer at address 4096. *)
Definition one_key : Tensor int64 :=
  {| dtype := DT_INT64; data := 4096; dim_size0 := 1; flat := [7%Z] |}.

(** Room for one row of three [int32] values, at address 8192. *)
Definition one_row : Tensor int32 :=
  {| dtype := DT_INT32; data := 8192; dim_size0 := 1; flat := [0; 0; 0]%Z |}.

(** The default row 9, 9, 9. *)
Definition default_nines : Tensor int32 :=
  {| dtype := DT_INT32; data := 12288; dim_size0 := 3; flat := [9; 9; 9]%Z |}.

(** A store with the default column family and the table's own, which holds
    the record "k" -> "v". *)
Definition store_one_record : DB :=
  {| families := {[0 := ∅; 1 := {["k" := "v"]}]}; next_handle := 2;
     default_family := 0 |}.

Definition table_one_record (read_only : bool) : RocksDBTableOfTensors :=
  {| readOnly := read_only; db := store_one_record;
     colHandles := [0; 1]; colIndex := 1; colHandleCache := [] |}.

(** That table after a successful [Clear]. *)
Definition table_one_record_cleared : RocksDBTableOfTensors :=
  {| readOnly := false;
     db := {| families := {[0 := ∅]}; next_handle := 2; default_family := 0 |};
     colHandles := [0]; colIndex := 1; colHandleCache := [] |}.

(** No dump file yet, and the path can be written. *)
Definition no_dump : FileSystem := {| dump := None; writable := true |}.

(** A dump whose magic reads "TFKX". *)
Definition bad_magic_dump : FileSystem :=
  {| dump := Some ("TFKX" ++ le_bytes 4 1 ++ "")%string; writable := true |}.

(** [n] records with distinct two-byte keys. *)
Definition numbered_records (n : nat) : list (string * string) :=
  map (fun i => (le_bytes 2 (Z.of_nat i), "v")) (seq 0 n).

(** A file system whose dump is the snapshot of [records]. *)
Definition dump_of (records : list (string * string)) : FileSystem :=
  {| dump := Some (snapshot records); writable := true |}.

(** The row 1, 2, 3 of [int32] values as the table stores it. *)
Definition row_123 : string := concat_bytes (map (le_bytes 4) [1; 2; 3]%Z).

(** The row 1, 2, 3 as an argument of [Insert]. *)
Definition row_123_values : Tensor int32 :=
  {| dtype := DT_INT32; data := 8192; dim_size0 := 1; flat := [1; 2; 3]%Z |}.

(** One [int64] key, 8, in a buffer at the address of [one_key]. *)
Definition other_key : Tensor int64 :=
  {| dtype := DT_INT64; data := 4096; dim_size0 := 1; flat := [8%Z] |}.

(** Two keys, 7 and 8, and twice the key 7. *)
Definition keys_7_8 : Tensor int64 :=
  {| dtype := DT_INT64; data := 4096; dim_size0 := 2; flat := [7; 8]%Z |}.
Definition keys_7_7 : Tensor int64 :=
  {| dtype := DT_INT64; data := 4096; dim_size0 := 2; flat := [7; 7]%Z |}.

(** Room for two rows of three [int32] values. *)
Definition two_rows : Tensor int32 :=
  {| dtype := DT_INT32; data := 8192; dim_size0 := 2;
     flat := [0; 0; 0; 0; 0; 0]%Z |}.

(** The table's column family (handle 1) is empty; the store's other column
    family (handle 0) holds the row 1, 2, 3 under key 7. *)
Definition table_other_family : RocksDBTableOfTensors :=
  {| readOnly := false;
     db := {| families := {[0 := {[le_bytes 8 7 := row_123]}; 1 := ∅]};
              next_handle := 2; default_family := 0 |};
     colHandles := [0; 1]; colIndex := 1; colHandleCache := [] |}.

(** The table's column family (handle 1) holds the row 1, 2, 3 under key 7;
    the other column family is empty. *)
Definition table_key_7 : RocksDBTableOfTensors :=
  {| readOnly := false;
     db := {| families := {[0 := ∅; 1 := {[le_bytes 8 7 := row_123]}]};
              next_handle := 2; default_family := 0 |};
     colHandles := [0; 1]; colIndex := 1; colHandleCache := [] |}.

(** ** Vocabulary of the further properties *)

(** A fixed-width element is the integer its [w] bytes represent in two's
    complement. *)
Definition in_range (w : nat) (z : Z) : Prop :=
  (- 2 ^ (8 * Z.of_nat w - 1) <= z < 2 ^ (8 * Z.of_nat w - 1))%Z.

(** The values of an element type that its stored form can carry: integers
    of the type's width, strings whose length fits the [uint32_t] prefix. *)
Definition representable (T : ElemType) : T -> Prop :=
  match T with
  | fixed_width _ w => fun z => 1 ≤ w ∧ in_range w z
  | tstring => fun s => (Z.of_nat (String.length s) <= UINT32_MAX)%Z
  end.

(** The position of the first [name] in [names]. *)
Fixpoint position (name : string) (names : list string) : nat :=
  match names with
  | [] => 0
  | n :: rest => if bool_decide (n = name) then 0 else S (position name rest)
  end.

(** [DB::Open] / [DB::OpenForReadOnly] on a store that exists (lines
    162-168): one handle per column family, in the order of the
    descriptors; the default column family is the one named "default".  A
    store that cannot be listed or opened makes the constructor throw, which
    is outside the model. *)
Definition Open (stored : list (string * gmap string string)) : DB * list nat :=
  ({| families := map_seq 0 stored.*2; next_handle := length stored;
      default_family := position kDefaultColumnFamilyName stored.*1 |},
   seq 0 (length stored)).

(** The constructor (lines 131-174) over the column families the store
    holds, each with its name and records. *)
Definition construct (read_only : bool) (embeddingName : string)
  (stored : list (string * gmap string string)) : RocksDBTableOfTensors :=
  {| readOnly := read_only;
     db := (Open stored).1;
     colHandles := (Open stored).2;
     colIndex := find_colIndex embeddingName stored.*1 false 0;
     colHandleCache := [] |}.

(** The invariant together with the handles being pairwise distinct. *)
Definition table_inv (t : RocksDBTableOfTensors) : Prop :=
  table_wf t ∧ NoDup (colHandles t).

(** The handle of the table's own column family, if it is present. *)
Definition own_handle (t : RocksDBTableOfTensors) : option nat :=
  colHandles t !! colIndex t.

(** The table's own column family is the store's default one, as for a
    table whose [embedding_name] is "default". *)
Definition owns_default (t : RocksDBTableOfTensors) : Prop :=
  own_handle t = Some (default_family (db t)).

(** Store [s'] differs from [s] at most in the records of column family
    [h]: the same column families exist and all others hold what they held. *)
Definition touches_only (h : nat) (s s' : DB) : Prop :=
  next_handle s' = next_handle s ∧
  (is_Some (families s' !! h) ↔ is_Some (families s !! h)) ∧
  ∀ h', h' ≠ h → families s' !! h' = families s !! h'.

(** Table [t'] holds every column family of [t] other than [t]'s own with
    the records it had. *)
Definition others_kept (t t' : RocksDBTableOfTensors) : Prop :=
  ∀ h' cf, families (db t) !! h' = Some cf → own_handle t ≠ Some h' →
           families (db t') !! h' = Some cf.

(** The slice under which the point paths store the row of key number [i]
    of a key buffer at address [k]: the bytes of the pointer [k + i]. *)
Definition key_at (K : ElemType) (k : Z) (i : nat) : string :=
  assignSlice_pointer (k + Z.of_nat i * Z.of_nat (sizeof K)).

(** A call on the point path: tensors of the table's types with [n] keys
    and [n] rows of [valuesPerDim0] values each, [n] below the threshold of
    the bulk path. *)
Definition point_call (K V : ElemType) (n valuesPerDim0 : nat)
  (keys : Tensor K) (values : Tensor V) : Prop :=
  dtype keys = DataTypeToEnum K ∧ dtype values = DataTypeToEnum V ∧
  dim_size0 keys = n ∧ dim_size0 values = n ∧
  NumElements values = n * valuesPerDim0 ∧
  0 < n < RDB_BATCH_MODE_MIN_QUERY_SIZE ∧ valuesPerDim0 ≠ 0.

(** A call with a single key, the only number of keys the point paths
    serve ([RDB_BATCH_MODE_MIN_QUERY_SIZE] is 2): tensors of the table's
    types with one key and one row of [valuesPerDim0] values. *)
Definition one_key_call (K V : ElemType) (valuesPerDim0 : nat)
  (keys : Tensor K) (values : Tensor V) : Prop :=
  dtype keys = DataTypeToEnum K ∧ dtype values = DataTypeToEnum V ∧
  dim_size0 keys = 1 ∧ dim_size0 values = 1 ∧
  NumElements values = valuesPerDim0 ∧ valuesPerDim0 ≠ 0.

(** An address of the 64-bit address space. *)
Definition address (a : Z) : Prop := (0 ≤ a < 2 ^ 64)%Z.

(** One [int64] key, 7 as in [one_key], in a buffer at address 16384. *)
Definition one_key_elsewhere : Tensor int64 :=
  {| dtype := DT_INT64; data := 16384; dim_size0 := 1; flat := [7%Z] |}.

(** The column family [cf] after the records were put one after the other,
    a later record replacing an earlier one of the same key. *)
Definition put_all (cf : gmap string string) (records : list (string * string))
  : gmap string string :=
  foldl (fun cf record => <[record.1 := record.2]> cf) cf records.

(** The records of a snapshot that lie in complete batches of
    [RDB_BATCH_MODE_MAX_QUERY_SIZE]. *)
Definition full_batches (records : list (string * string)) : list (string * string) :=
  take (RDB_BATCH_MODE_MAX_QUERY_SIZE
        * (length records / RDB_BATCH_MODE_MAX_QUERY_SIZE)) records.

(** The write-batch record the import loop appends for a snapshot record. *)
Definition put_op (h : nat) (record : string * string) : batch_op :=
  BatchPut h record.1 record.2.

(** A read-write table whose column family (handle 1) holds the 128
    records of [numbered_records 128]. *)
Definition table_128_records : RocksDBTableOfTensors :=
  {| readOnly := false;
     db := {| families := {[0 := ∅; 1 := list_to_map (numbered_records 128)]};
              next_handle := 2; default_family := 0 |};
     colHandles := [0; 1]; colIndex := 1; colHandleCache := [] |}.

(** Thirty-two [int64] keys and thirty-two rows of one [int32] value each,
    a call for the bulk paths (which serve two keys or more). *)
Definition keys_32 : Tensor int64 :=
  {| dtype := DT_INT64; data := 4096; dim_size0 := 32; flat := replicate 32 7%Z |}.
Definition rows_32 : Tensor int32 :=
  {| dtype := DT_INT32; data := 8192; dim_size0 := 32; flat := replicate 32 5%Z |}.



(** Room for one row of six [int32] values, and a default row of six. *)
Definition one_row_of_six : Tensor int32 :=
  {| dtype := DT_INT32; data := 8192; dim_size0 := 1;
     flat := [0; 0; 0; 0; 0; 0]%Z |}.
Definition default_six_nines : Tensor int32 :=
  {| dtype := DT_INT32; data := 12288; dim_size0 := 6;
     flat := [9; 9; 9; 9; 9; 9]%Z |}.

(** Tensors of an empty batch: no keys, no rows. *)
Definition no_keys : Tensor int64 :=
  {| dtype := DT_INT64; data := 4096; dim_size0 := 0; flat := [] |}.
Definition no_rows : Tensor int32 :=
  {| dtype := DT_INT32; data := 8192; dim_size0 := 0; flat := [] |}.

(** * Properties *)

(** ** Outcomes *)

Lemma bind_Done {A B : Type} (m : outcome A) (k : A -> outcome B) (b : B) :
  bind m k = Done b -> exists a, m = Done a /\ k a = Done b.
Proof. destruct m as [a| |]; simpl; intros H; [eauto | discriminate | discriminate]. Qed.

(** A fault other than [f] stays one through a bind when every
    continuation avoids [f] too. *)
Lemma bind_avoids {A B : Type} (f : fault) (m : outcome A) (k : A -> outcome B) :
  m <> Undefined f ->
  (forall a, m = Done a -> k a <> Undefined f) ->
  bind m k <> Undefined f.
Proof.
  destruct m as [a| |g]; simpl; intros Hm Hk.
  - apply Hk. reflexivity.
  - discriminate.
  - congruence.
Qed.

(** ** Tiling of the default buffer *)

Lemma tile_in_bounds (dSize valuesPerDim0 i : nat) :
  valuesPerDim0 <> 0 -> dSize <> 0 -> dSize mod valuesPerDim0 = 0 ->
  (i * valuesPerDim0) mod dSize + valuesPerDim0 <= dSize.
Proof.
  intros Hv Hd Hmod.
  apply Nat.Div0.div_exact in Hmod.
  set (m := dSize / valuesPerDim0) in *.
  assert (Hm : m <> 0) by (intros ->; lia).
  rewrite Hmod, (Nat.mul_comm valuesPerDim0 m), Nat.Div0.mul_mod_distr_r.
  pose proof (Nat.mod_upper_bound i m Hm). nia.
Qed.

Lemma copy_default_tile {V : ElemType} (d : list V) (valuesPerDim0 i : nat) :
  valuesPerDim0 <> 0 -> length d <> 0 -> length d mod valuesPerDim0 = 0 ->
  copy_default V d (length d) (i * valuesPerDim0) valuesPerDim0
  = Done (default_tile d valuesPerDim0 i).
Proof.
  intros Hv Hd Hmod. unfold copy_default, default_tile.
  destruct (Nat.eqb_spec (length d) 0) as [|_]; [contradiction|].
  pose proof (tile_in_bounds (length d) valuesPerDim0 i Hv Hd Hmod) as Hb.
  destruct (Nat.leb_spec ((i * valuesPerDim0) mod length d + valuesPerDim0) (length d));
    [reflexivity | lia].
Qed.

Lemma default_tile_length {V : Type} (d : list V) (valuesPerDim0 i : nat) :
  valuesPerDim0 <> 0 -> length d <> 0 -> length d mod valuesPerDim0 = 0 ->
  length (default_tile d valuesPerDim0 i) = valuesPerDim0.
Proof.
  intros Hv Hd Hmod. unfold default_tile.
  pose proof (tile_in_bounds (length d) valuesPerDim0 i Hv Hd Hmod).
  rewrite length_take, length_drop. lia.
Qed.

(** The default read never leaves the buffer once the size check of
    lines 261-265 has passed. *)
Lemma copy_default_in_bounds {V : ElemType} (d : list V) (valuesPerDim0 i : nat) :
  valuesPerDim0 <> 0 -> length d mod valuesPerDim0 = 0 ->
  copy_default V d (length d) (i * valuesPerDim0) valuesPerDim0
  <> Undefined DefaultOutOfBounds.
Proof.
  intros Hv Hmod.
  destruct (Nat.eq_dec (length d) 0) as [H0|H0].
  - unfold copy_default. rewrite H0. simpl. discriminate.
  - rewrite copy_default_tile by assumption. discriminate.
Qed.

(** ** All keys miss *)

Section Misses.

Context {K V : ElemType}.
Variables (d : list V) (valuesPerDim0 : nat).
Hypothesis Hwidth : valuesPerDim0 <> 0.
Hypothesis Hnonempty : length d <> 0.
Hypothesis Hmultiple : length d mod valuesPerDim0 = 0.

Lemma write_slot_tile (v : list V) (i : nat) :
  (S i) * valuesPerDim0 <= length v ->
  write_slot V v (i * valuesPerDim0) (default_tile d valuesPerDim0 i)
  = take (i * valuesPerDim0) v ++ default_tile d valuesPerDim0 i
    ++ drop (S i * valuesPerDim0) v.
Proof.
  intros Hlen. unfold write_slot.
  rewrite default_tile_length by assumption.
  do 3 f_equal. lia.
Qed.

Lemma Find_process_misses (n : nat) : forall (v : list V) (i : nat),
  (i + n) * valuesPerDim0 <= length v ->
  Find_process V (replicate n None) v (i * valuesPerDim0) valuesPerDim0 d (length d)
  = Done (default_fill d valuesPerDim0 i n v).
Proof.
  induction n as [|n IH]; intros v i Hlen; simpl.
  - unfold default_fill. simpl. rewrite Nat.add_0_r, take_drop. reflexivity.
  - rewrite copy_default_tile by assumption. simpl.
    rewrite write_slot_tile by lia.
    replace (i * valuesPerDim0 + valuesPerDim0) with (S i * valuesPerDim0) by lia.
    set (tile := default_tile d valuesPerDim0 i).
    assert (Htile : length tile = valuesPerDim0)
      by (apply default_tile_length; assumption).
    assert (Htake : length (take (i * valuesPerDim0) v) = i * valuesPerDim0)
      by (rewrite length_take; lia).
    set (v' := take (i * valuesPerDim0) v ++ tile ++ drop (S i * valuesPerDim0) v).
    assert (E1 : take (S i * valuesPerDim0) v' = take (i * valuesPerDim0) v ++ tile).
    { unfold v'. rewrite app_assoc. apply take_app_length'.
      rewrite length_app, Htake, Htile. lia. }
    assert (E2 : drop ((S i + n) * valuesPerDim0) v'
                 = drop ((i + S n) * valuesPerDim0) v).
    { unfold v'. rewrite app_assoc, drop_app_ge
        by (rewrite length_app, Htake, Htile; lia).
      rewrite length_app, Htake, Htile, drop_drop. f_equal. lia. }
    rewrite IH.
    2:{ unfold v'. rewrite !length_app, Htake, Htile, length_drop. lia. }
    unfold default_fill. rewrite E1, E2. simpl. fold tile.
    rewrite <- !app_assoc. reflexivity.
Qed.

(** With a null handle the point path sees only misses. *)
Lemma Find_point_null (store : DB) (n : nat) : forall (k : Z) (v : list V) (vOffset : nat),
  Find_point K V store None k n v vOffset valuesPerDim0 d (length d)
  = Find_process V (replicate n None) v vOffset valuesPerDim0 d (length d).
Proof.
  induction n as [|n IH]; intros k v vOffset; simpl; [reflexivity|].
  destruct (copy_default V d (length d) vOffset valuesPerDim0); simpl;
    [apply IH | reflexivity | reflexivity].
Qed.

(** So does a lookup in an empty column family. *)
Lemma Find_point_empty (store : DB) (h : nat) (n : nat) :
  families store !! h = Some ∅ ->
  forall (k : Z) (v : list V) (vOffset : nat),
  Find_point K V store (Some h) k n v vOffset valuesPerDim0 d (length d)
  = Find_process V (replicate n None) v vOffset valuesPerDim0 d (length d).
Proof.
  intros Hh. induction n as [|n IH]; intros k v vOffset; simpl; [reflexivity|].
  unfold Get. rewrite Hh, lookup_empty. simpl.
  destruct (copy_default V d (length d) vOffset valuesPerDim0); simpl;
    [apply IH | reflexivity | reflexivity].
Qed.

End Misses.

(** ** The column-family handle *)

Lemma namespace_present_lookup (t : RocksDBTableOfTensors) :
  namespace_present t = true -> exists h, colHandles t !! colIndex t = Some h.
Proof.
  unfold namespace_present. intros H. apply Nat.ltb_lt in H.
  destruct (lookup_lt_is_Some_2 (colHandles t) (colIndex t) H) as [h Hh]. eauto.
Qed.

Lemma GetOrCreateColumnHandle_present (t : RocksDBTableOfTensors) (h : nat) :
  namespace_present t = true -> colHandles t !! colIndex t = Some h ->
  GetOrCreateColumnHandle t = Done (Some h, t).
Proof.
  unfold namespace_present, GetOrCreateColumnHandle. intros H Hh.
  apply Nat.ltb_lt in H.
  destruct (Nat.leb_spec (length (colHandles t)) (colIndex t)); [lia|].
  rewrite Hh. reflexivity.
Qed.

Lemma GetOrCreateColumnHandle_read_only_absent (t : RocksDBTableOfTensors) :
  readOnly t = true -> namespace_present t = false ->
  GetOrCreateColumnHandle t = Done (None, t).
Proof.
  unfold namespace_present, GetOrCreateColumnHandle. intros Hro H.
  apply Nat.ltb_ge in H.
  destruct (Nat.leb_spec (length (colHandles t)) (colIndex t)); [|lia].
  rewrite Hro. reflexivity.
Qed.

Lemma GetOrCreateColumnHandle_creates (t : RocksDBTableOfTensors) :
  readOnly t = false -> namespace_present t = false ->
  colIndex t <= length (colHandles t) ->
  GetOrCreateColumnHandle t
  = Done (Some (next_handle (db t)), with_created_family t).
Proof.
  unfold namespace_present, GetOrCreateColumnHandle, with_created_family.
  intros Hrw H Hle. apply Nat.ltb_ge in H.
  destruct (Nat.leb_spec (length (colHandles t)) (colIndex t)); [|lia].
  assert (E : colIndex t = length (colHandles t)) by lia.
  rewrite Hrw. simpl.
  rewrite E, lookup_app_r, Nat.sub_diag by lia. reflexivity.
Qed.

Lemma created_family_present (t : RocksDBTableOfTensors) :
  colIndex t <= length (colHandles t) ->
  namespace_present (with_created_family t) = true.
Proof.
  intros H. unfold namespace_present, with_created_family. simpl.
  apply Nat.ltb_lt. rewrite length_app. simpl. lia.
Qed.

Lemma created_family_lookup (t : RocksDBTableOfTensors) :
  families (db (with_created_family t)) !! next_handle (db t) = Some ∅.
Proof. simpl. apply lookup_insert_eq. Qed.

Lemma created_family_records (t : RocksDBTableOfTensors) :
  namespace_present t = false -> colIndex t <= length (colHandles t) ->
  namespace_records (with_created_family t) = Some ∅.
Proof.
  unfold namespace_present. intros H Hle. apply Nat.ltb_ge in H.
  assert (E : colIndex t = length (colHandles t)) by lia.
  unfold namespace_records, with_created_family. simpl.
  rewrite E, lookup_app_r, Nat.sub_diag by lia. simpl.
  apply lookup_insert_eq.
Qed.

(** Creation leaves every column family that existed as it was. *)
Lemma created_family_frame (t : RocksDBTableOfTensors) (h : nat)
  (cf : gmap string string) :
  table_wf t -> families (db t) !! h = Some cf ->
  families (db (with_created_family t)) !! h = Some cf.
Proof.
  intros (_ & _ & Hfresh) Hh. simpl.
  rewrite lookup_insert_ne; [assumption|].
  assert (h < next_handle (db t)) by (apply Hfresh; eauto). lia.
Qed.

(** ** Deleting from an empty column family *)

Lemma Delete_empty (store : DB) (h : nat) (k : string) :
  families store !! h = Some ∅ -> Delete store h k = Done store.
Proof.
  intros Hh. unfold Delete, apply_op. rewrite Hh, delete_empty.
  rewrite insert_id by assumption. destruct store; reflexivity.
Qed.

Lemma Remove_point_empty (K : ElemType) (store : DB) (h : nat) (n : nat) :
  families store !! h = Some ∅ ->
  forall k : Z, Remove_point K store h k n = Done store.
Proof.
  intros Hh. induction n as [|n IH]; intros k; simpl; [reflexivity|].
  rewrite Delete_empty by assumption. simpl. apply IH.
Qed.

Lemma Write_deletes_empty (store : DB) (h : nat) (batch : list batch_op) :
  families store !! h = Some ∅ -> Forall (deletes_from h) batch ->
  Write store batch = Done store.
Proof.
  intros Hh Hall. induction Hall as [|op batch Hop _ IH]; simpl; [reflexivity|].
  destruct op as [h' k v|h' k]; simpl in Hop; [contradiction|]. subst h'.
  fold (Delete store h k). rewrite Delete_empty by assumption. exact IH.
Qed.

Lemma Remove_fill_deletes (K : ElemType) (h : nat) (n : nat) :
  forall (batch : list batch_op) (k : Z),
  Forall (deletes_from h) batch ->
  Forall (deletes_from h) (Remove_fill K batch h k n).
Proof.
  induction n as [|n IH]; intros batch k Hall; simpl; [assumption|].
  apply IH. apply Forall_app. split; [assumption|].
  constructor; [reflexivity | constructor].
Qed.

Lemma Remove_batch_empty (K : ElemType) (store : DB) (h : nat) (k : Z) (n : nat) :
  families store !! h = Some ∅ -> Remove_batch K store h k n = Done store.
Proof.
  intros Hh. unfold Remove_batch. apply Write_deletes_empty with (h := h);
    [assumption | apply Remove_fill_deletes; constructor].
Qed.

(** C6, as amended.  On a read-write table without a column family,
    [Remove] of any keys of the table's key type returns OK and deletes
    nothing, but it is not a no-op: it creates the column family.  Afterwards
    the table has a present, empty column family and every column family
    that existed before holds the records it held. *)
Theorem Remove_absent_creates_namespace (K : ElemType)
  (t : RocksDBTableOfTensors) (keys : Tensor K) :
  readOnly t = false -> namespace_present t = false -> table_wf t ->
  dtype keys = DataTypeToEnum K ->
  Remove K t keys = Done (OK, with_created_family t) /\
  namespace_present (with_created_family t) = true /\
  namespace_records (with_created_family t) = Some ∅ /\
  (forall h cf, families (db t) !! h = Some cf ->
                families (db (with_created_family t)) !! h = Some cf).
Proof.
  intros Hrw Habs Hwf Hdt.
  pose proof Hwf as (Hle & _ & _).
  split; [|split; [|split]].
  - unfold Remove. rewrite Hdt, bool_decide_eq_true_2 by reflexivity.
    cbn [negb]. rewrite GetOrCreateColumnHandle_creates by assumption.
    cbn [bind].
    replace (readOnly (with_created_family t)) with false
      by (symmetry; exact Hrw).
    destruct (dim_size0 keys <? RDB_BATCH_MODE_MIN_QUERY_SIZE).
    + rewrite (Remove_point_empty K _ (next_handle (db t)))
        by apply created_family_lookup.
      reflexivity.
    + rewrite (Remove_batch_empty K _ (next_handle (db t)))
        by apply created_family_lookup.
      reflexivity.
  - apply created_family_present. assumption.
  - apply created_family_records; assumption.
  - intros h cf. apply created_family_frame. assumption.
Qed.

Lemma table_absent_wf (read_only : bool) : table_wf (table_absent read_only).
Proof.
  split; [simpl; lia | split].
  - intros h Hh. apply list_elem_of_singleton in Hh. subst h.
    simpl. rewrite lookup_singleton_eq. eauto.
  - intros h [cf Hh]. simpl in Hh.
    apply lookup_singleton_Some in Hh as [<- _]. simpl. lia.
Qed.

(** Witness of [Remove_absent_creates_namespace]. *)
Lemma Remove_absent_creates_namespace_witness :
  readOnly (table_absent false) = false /\
  namespace_present (table_absent false) = false /\
  Remove int64 (table_absent false) one_key
  = Done (OK, with_created_family (table_absent false)) /\
  namespace_present (with_created_family (table_absent false)) = true.
Proof.
  pose proof (Remove_absent_creates_namespace int64 (table_absent false) one_key
                eq_refl eq_refl (table_absent_wf false) eq_refl) as (H1 & H2 & _).
  repeat split; assumption.
Defined.

(** C6, counterexample.  [Remove] of one key on a read-write table without
    a column family returns OK but changes the state: the column family
    exists afterwards. *)
Lemma Remove_absent_changes_state :
  readOnly (table_absent false) = false /\
  namespace_present (table_absent false) = false /\
  exists t', Remove int64 (table_absent false) one_key = Done (OK, t') /\
             namespace_present t' = true /\
             t' <> table_absent false.
Proof.
  split; [reflexivity | split; [reflexivity|]].
  eexists. split; [vm_compute; reflexivity | split; [reflexivity|]].
  intros H. apply (f_equal colHandles) in H. discriminate H.
Qed.

(** ** [Find] on a table without a column family *)

Lemma key_slices_Done (K : ElemType) (n : nat) : forall k : list K,
  n <= length k ->
  exists slices, key_slices K k n = Done slices /\ length slices = n.
Proof.
  induction n as [|n IH]; intros k Hlen.
  - exists []. destruct k; split; reflexivity.
  - destruct k as [|key rest]; simpl in Hlen; [lia|].
    destruct (IH rest) as (slices & Hs & Hl); [lia|].
    simpl. rewrite Hs. simpl. eexists. split; [reflexivity | simpl; lia].
Qed.

Section FindAbsent.

Context (K V : ElemType).
Variables (t : RocksDBTableOfTensors) (keys : Tensor K)
  (values default_value : Tensor V).
Hypothesis Hpre : Find_preconditions K V keys values default_value.
Hypothesis Hdefault : NumElements default_value <> 0.
Hypothesis Habsent : namespace_present t = false.

Let valuesPerDim0 := NumElements values / dim_size0 values.
Let filled := default_fill (flat default_value) valuesPerDim0 0 (dim_size0 keys)
                (flat values).

Lemma rows_fit : (0 + dim_size0 keys) * valuesPerDim0 <= length (flat values).
Proof.
  destruct Hpre as (_ & _ & _ & _ & Hn & _).
  subst valuesPerDim0. rewrite Hn. simpl.
  apply Nat.Div0.mul_div_le.
Qed.

Lemma Find_checks_pass (r : option nat * RocksDBTableOfTensors) :
  GetOrCreateColumnHandle t = Done r ->
  Find K V t keys values default_value =
  if (dim_size0 keys <? RDB_BATCH_MODE_MIN_QUERY_SIZE) then
    v <- Find_point K V (db r.2) r.1 (data keys) (dim_size0 keys)
           (flat values) 0 valuesPerDim0 (flat default_value)
           (NumElements default_value) ;;
    Done (OK, v, r.2)
  else
    r' <- Find_batch K V r.2 r.1 (flat keys) (dim_size0 keys)
            (flat values) valuesPerDim0 (flat default_value)
            (NumElements default_value) ;;
    let '(v, t') := r' in Done (OK, v, t').
Proof.
  destruct Hpre as (Hk & Hv & Hd & _ & Hn & Hn0 & Hw & Hm).
  intros Hr. unfold Find. rewrite Hk, Hv, Hd.
  rewrite !bool_decide_eq_true_2 by reflexivity. cbn [negb orb].
  rewrite Hr. cbn [bind]. destruct r as [colHandle t1]. cbn [fst snd].
  rewrite Hn, Nat.eqb_refl. cbn [negb].
  destruct (Nat.eqb_spec (dim_size0 values) 0); [contradiction|].
  fold valuesPerDim0 in Hw, Hm |- *.
  destruct (Nat.eqb_spec valuesPerDim0 0); [contradiction|].
  rewrite Hm. cbn [Nat.eqb negb]. reflexivity.
Qed.

(** Read-only: the handle is null, both paths fill every slot from the
    default buffer, and nothing but the scratch vector changes. *)
Lemma Find_read_only_absent :
  readOnly t = true ->
  exists t', Find K V t keys values default_value = Done (OK, filled, t') /\
             readOnly t' = readOnly t /\ db t' = db t /\
             colHandles t' = colHandles t /\ colIndex t' = colIndex t.
Proof.
  intros Hro.
  destruct Hpre as (_ & _ & _ & Hklen & _ & _ & Hw & Hm).
  fold valuesPerDim0 in Hw, Hm.
  rewrite (Find_checks_pass (None, t))
    by (apply GetOrCreateColumnHandle_read_only_absent; assumption).
  cbn [fst snd].
  destruct (dim_size0 keys <? RDB_BATCH_MODE_MIN_QUERY_SIZE).
  - exists t. unfold NumElements.
    rewrite Find_point_null.
    change 0 with (0 * valuesPerDim0) at 1.
    rewrite Find_process_misses by (assumption || apply rows_fit).
    cbn [bind]. repeat split; reflexivity.
  - unfold Find_batch.
    destruct (key_slices_Done K (dim_size0 keys) (flat keys) Hklen)
      as (slices & -> & _).
    cbn [bind]. rewrite length_replicate, Nat.eqb_refl. cbn [negb].
    unfold NumElements.
    change 0 with (0 * valuesPerDim0) at 1.
    rewrite Find_process_misses by (assumption || apply rows_fit).
    cbn [bind]. eexists. split; [reflexivity|]. repeat split; reflexivity.
Qed.

(** Read-write: the handle is that of a column family created on the spot;
    the point path looks its key up there and misses. *)
Lemma Find_read_write_absent_point :
  readOnly t = false -> table_wf t ->
  dim_size0 keys < RDB_BATCH_MODE_MIN_QUERY_SIZE ->
  Find K V t keys values default_value
  = Done (OK, filled, with_created_family t).
Proof.
  intros Hrw (Hle & _ & _) Hsmall.
  destruct Hpre as (_ & _ & _ & Hklen & _ & _ & Hw & Hm).
  fold valuesPerDim0 in Hw, Hm.
  rewrite (Find_checks_pass (Some (next_handle (db t)), with_created_family t))
    by (apply GetOrCreateColumnHandle_creates; assumption).
  cbn [fst snd].
  apply Nat.ltb_lt in Hsmall. rewrite Hsmall.
  unfold NumElements.
  rewrite Find_point_empty by apply created_family_lookup.
  change 0 with (0 * valuesPerDim0) at 1.
  rewrite Find_process_misses by (assumption || apply rows_fit).
  reflexivity.
Qed.

(** Read-write, either path: if the call returns at all, the column family
    it created is there, and empty. *)
Lemma Find_read_write_absent_state (c : Code) (v : list V)
  (t' : RocksDBTableOfTensors) :
  readOnly t = false -> table_wf t ->
  Find K V t keys values default_value = Done (c, v, t') ->
  namespace_present t' = true /\ namespace_records t' = Some ∅.
Proof.
  intros Hrw (Hle & _ & _).
  rewrite (Find_checks_pass (Some (next_handle (db t)), with_created_family t))
    by (apply GetOrCreateColumnHandle_creates; assumption).
  cbn [fst snd]. intros H.
  assert (Hstate : namespace_present t' = namespace_present (with_created_family t)
                   /\ namespace_records t' = namespace_records (with_created_family t)).
  { destruct (dim_size0 keys <? RDB_BATCH_MODE_MIN_QUERY_SIZE).
    - apply bind_Done in H as (v' & _ & H). injection H as _ _ <-.
      split; reflexivity.
    - apply bind_Done in H as ([v' t2] & Hb & H). injection H as _ _ <-.
      unfold Find_batch in Hb.
      apply bind_Done in Hb as (kSlices & _ & Hb).
      apply bind_Done in Hb as (statuses & _ & Hb).
      destruct (negb _); [discriminate|].
      apply bind_Done in Hb as (v2 & _ & Hb). injection Hb as _ <-.
      split; reflexivity. }
  destruct Hstate as [-> ->].
  split; [apply created_family_present | apply created_family_records];
    assumption.
Qed.

End FindAbsent.

(** C5, as amended.  For a [Find] that passes its argument checks with a
    non-empty default buffer, on a table without a column family: on a
    read-only table every key is a miss, the call returns OK with every slot
    filled from the default buffer, and the column family is still absent;
    on a read-write table the call first creates the column family, so that
    whenever it returns the column family is present and empty, and on the
    point path the key is a miss filled from the default buffer and the call
    returns OK. *)
Theorem Find_absent_namespace (K V : ElemType) (t : RocksDBTableOfTensors)
  (keys : Tensor K) (values default_value : Tensor V) :
  Find_preconditions K V keys values default_value ->
  NumElements default_value <> 0 ->
  namespace_present t = false ->
  table_wf t ->
  let filled := default_fill (flat default_value)
                  (NumElements values / dim_size0 values) 0 (dim_size0 keys)
                  (flat values) in
  (readOnly t = true ->
   exists t', Find K V t keys values default_value = Done (OK, filled, t') /\
              namespace_present t' = false /\ db t' = db t) /\
  (readOnly t = false ->
   (forall c v t',
      Find K V t keys values default_value = Done (c, v, t') ->
      namespace_present t' = true /\ namespace_records t' = Some ∅) /\
   (dim_size0 keys < RDB_BATCH_MODE_MIN_QUERY_SIZE ->
    Find K V t keys values default_value
    = Done (OK, filled, with_created_family t))).
Proof.
  intros Hpre Hd Habs Hwf filled. split.
  - intros Hro.
    destruct (Find_read_only_absent K V t keys values default_value
                Hpre Hd Habs Hro) as (t' & HF & _ & Hdb & Hh & Hi).
    exists t'. split; [exact HF | split; [|exact Hdb]].
    unfold namespace_present in *. rewrite Hh, Hi. exact Habs.
  - intros Hrw. split.
    + intros c v t'.
      apply (Find_read_write_absent_state K V t keys values default_value);
        assumption.
    + intros Hsmall. apply Find_read_write_absent_point; assumption.
Qed.

Lemma one_key_preconditions : Find_preconditions int64 int32 one_key one_row default_nines.
Proof. repeat split; try reflexivity; vm_compute; lia. Qed.

(** Witness of [Find_absent_namespace], on a read-only and on a read-write
    table. *)
Lemma Find_absent_namespace_witness :
  (exists t', Find int64 int32 (table_absent true) one_key one_row default_nines
              = Done (OK, [9; 9; 9]%Z, t') /\ namespace_present t' = false) /\
  Find int64 int32 (table_absent false) one_key one_row default_nines
  = Done (OK, [9; 9; 9]%Z, with_created_family (table_absent false)).
Proof.
  split.
  - destruct (Find_absent_namespace int64 int32 (table_absent true)
                one_key one_row default_nines one_key_preconditions
                ltac:(vm_compute; lia) eq_refl (table_absent_wf true))
      as [Hro _].
    destruct (Hro eq_refl) as (t' & HF & Ht' & _).
    exists t'. split; [exact HF | exact Ht'].
  - destruct (Find_absent_namespace int64 int32 (table_absent false)
                one_key one_row default_nines one_key_preconditions
                ltac:(vm_compute; lia) eq_refl (table_absent_wf false))
      as [_ Hrw].
    destruct (Hrw eq_refl) as (_ & HF).
    apply HF. simpl. unfold RDB_BATCH_MODE_MIN_QUERY_SIZE. lia.
Defined.

(** C5, counterexample.  [Find] of one key on a read-write table without a
    column family returns the default row, and the column family exists
    afterwards. *)
Lemma Find_creates_namespace :
  namespace_present (table_absent false) = false /\
  exists t', Find int64 int32 (table_absent false) one_key one_row default_nines
             = Done (OK, [9; 9; 9]%Z, t') /\
             namespace_present t' = true.
Proof.
  split; [reflexivity|].
  eexists. split; [vm_compute; reflexivity | reflexivity].
Qed.

(** ** Reads of the default buffer stay in bounds *)

Lemma copyToTensor_tstring_no_fault (n : nat) : forall (src : string) (f : fault),
  copyToTensor_tstring src n <> Undefined f.
Proof.
  induction n as [|n IH]; intros src f; cbn [copyToTensor_tstring].
  - destruct (negb (String.length src =? 0)); discriminate.
  - destruct (read_n 4 src) as [[lenb src1]|]; [|discriminate].
    destruct (read_n (Z.to_nat (le_value lenb)) src1) as [[elt src2]|];
      [|discriminate].
    specialize (IH src2 f).
    destruct (copyToTensor_tstring src2 n); simpl; congruence.
Qed.

Lemma copyToTensor_no_fault (T : ElemType) (slice : string) (n : nat) (f : fault) :
  copyToTensor T slice n <> Undefined f.
Proof.
  destruct T as [dt w|]; simpl.
  - unfold copyToTensor_fixed.
    destruct (negb (String.length slice =? n * w)); discriminate.
  - apply copyToTensor_tstring_no_fault.
Qed.

Lemma Get_avoids (store : DB) (h : nat) (k : string) :
  Get store h k <> Undefined DefaultOutOfBounds.
Proof. unfold Get. destruct (families store !! h); discriminate. Qed.

Lemma MultiGet_avoids (store : DB) (keys : list string) :
  forall column_family : list nat,
  MultiGet store column_family keys <> Undefined DefaultOutOfBounds.
Proof.
  induction keys as [|k keys IH]; intros column_family; simpl; [discriminate|].
  destruct column_family as [|h hs]; [discriminate|].
  apply bind_avoids; [apply Get_avoids|]. intros r _.
  apply bind_avoids; [apply IH|]. discriminate.
Qed.

Lemma key_slices_avoids (K : ElemType) (n : nat) : forall k : list K,
  key_slices K k n <> Undefined DefaultOutOfBounds.
Proof.
  induction n as [|n IH]; intros k; destruct k as [|key rest]; simpl;
    try discriminate.
  apply bind_avoids; [apply IH|]. discriminate.
Qed.

Lemma GetOrCreateColumnHandle_avoids (t : RocksDBTableOfTensors) :
  GetOrCreateColumnHandle t <> Undefined DefaultOutOfBounds.
Proof.
  unfold GetOrCreateColumnHandle.
  destruct (length (colHandles t) <=? colIndex t).
  - destruct (readOnly t); [discriminate|]. simpl.
    destruct (_ !! _); discriminate.
  - destruct (_ !! _); discriminate.
Qed.

Section InBounds.

Context (K V : ElemType).
Variables (d : list V) (valuesPerDim0 : nat).
Hypothesis Hwidth : valuesPerDim0 <> 0.
Hypothesis Hmultiple : length d mod valuesPerDim0 = 0.

Lemma store_result_avoids (status : option string) (v : list V) (i : nat) :
  store_result V status v (i * valuesPerDim0) valuesPerDim0 d (length d)
  <> Undefined DefaultOutOfBounds.
Proof.
  destruct status as [vSlice|]; simpl.
  - apply bind_avoids; [apply copyToTensor_no_fault | discriminate].
  - apply bind_avoids; [apply copy_default_in_bounds; assumption | discriminate].
Qed.

Lemma Find_process_avoids (statuses : list (option string)) :
  forall (v : list V) (i : nat),
  Find_process V statuses v (i * valuesPerDim0) valuesPerDim0 d (length d)
  <> Undefined DefaultOutOfBounds.
Proof.
  induction statuses as [|status rest IH]; intros v i; simpl; [discriminate|].
  apply bind_avoids; [apply store_result_avoids|]. intros v' _.
  replace (i * valuesPerDim0 + valuesPerDim0) with (S i * valuesPerDim0) by lia.
  apply IH.
Qed.

Lemma Find_point_avoids (store : DB) (colHandle : option nat) (n : nat) :
  forall (k : Z) (v : list V) (i : nat),
  Find_point K V store colHandle k n v (i * valuesPerDim0) valuesPerDim0 d (length d)
  <> Undefined DefaultOutOfBounds.
Proof.
  induction n as [|n IH]; intros k v i; simpl; [discriminate|].
  apply bind_avoids.
  { destruct colHandle; [apply Get_avoids | discriminate]. }
  intros status _.
  apply bind_avoids; [apply store_result_avoids|]. intros v' _.
  replace (i * valuesPerDim0 + valuesPerDim0) with (S i * valuesPerDim0) by lia.
  apply IH.
Qed.

Lemma Find_batch_avoids (t : RocksDBTableOfTensors) (colHandle : option nat)
  (k : list K) (numKeys : nat) (v : list V) :
  Find_batch K V t colHandle k numKeys v valuesPerDim0 d (length d)
  <> Undefined DefaultOutOfBounds.
Proof.
  unfold Find_batch.
  apply bind_avoids; [apply key_slices_avoids|]. intros kSlices _.
  apply bind_avoids.
  { destruct colHandle; [apply MultiGet_avoids | discriminate]. }
  intros statuses _.
  destruct (negb (length statuses =? numKeys)); [discriminate|].
  apply bind_avoids; [apply (Find_process_avoids statuses v 0) | discriminate].
Qed.

End InBounds.

(** No call of [Find] reads the default buffer out of bounds: the copy is
    reached only after the size check, and then each slot offset is a
    multiple of the row width. *)
Lemma Find_avoids_default_overrun (K V : ElemType) (t : RocksDBTableOfTensors)
  (keys : Tensor K) (values default_value : Tensor V) :
  Find K V t keys values default_value <> Undefined DefaultOutOfBounds.
Proof.
  unfold Find.
  destruct (_ || _); [discriminate|].
  apply bind_avoids; [apply GetOrCreateColumnHandle_avoids|].
  intros [colHandle t1] _.
  destruct (negb (dim_size0 keys =? dim_size0 values)); [discriminate|].
  destruct (dim_size0 values =? 0); [discriminate|].
  destruct (Nat.eqb_spec (NumElements values / dim_size0 values) 0) as [|Hw];
    [discriminate|].
  destruct (Nat.eqb_spec
              (NumElements default_value mod (NumElements values / dim_size0 values)) 0)
    as [Hm|]; [|discriminate].
  cbn [negb].
  destruct (dim_size0 keys <? RDB_BATCH_MODE_MIN_QUERY_SIZE).
  - apply bind_avoids; [|discriminate].
    apply (Find_point_avoids K V _ _ Hw Hm _ _ _ _ _ 0).
  - apply bind_avoids; [|intros [v t2] _; discriminate].
    apply (Find_batch_avoids K V _ _ Hw Hm).
Qed.

(** C10.  When the size check of [Find] passes (the row width is defined
    and divides the size of the default buffer), no default fill reads
    outside the default buffer: the call never performs such a read, every
    copy at a slot offset [i * valuesPerDim0] is within bounds, and for a
    non-empty buffer the range read, from [offset mod dSize] over
    [valuesPerDim0] elements, ends at or before [dSize]. *)
Theorem Find_default_reads_in_bounds (K V : ElemType) (t : RocksDBTableOfTensors)
  (keys : Tensor K) (values default_value : Tensor V) :
  let valuesPerDim0 := NumElements values / dim_size0 values in
  let dSize := NumElements default_value in
  dim_size0 values <> 0 ->
  valuesPerDim0 <> 0 ->
  dSize mod valuesPerDim0 = 0 ->
  Find K V t keys values default_value <> Undefined DefaultOutOfBounds /\
  forall i : nat,
    copy_default V (flat default_value) dSize (i * valuesPerDim0) valuesPerDim0
    <> Undefined DefaultOutOfBounds /\
    (dSize <> 0 -> (i * valuesPerDim0) mod dSize + valuesPerDim0 <= dSize).
Proof.
  intros valuesPerDim0 dSize _ Hw Hm. split.
  - apply Find_avoids_default_overrun.
  - intros i. split.
    + apply copy_default_in_bounds; assumption.
    + intros Hd. apply tile_in_bounds; assumption.
Qed.

(** Witness of [Find_default_reads_in_bounds]. *)
Lemma Find_default_reads_in_bounds_witness :
  Find int64 int32 (table_absent true) one_key one_row default_nines
  <> Undefined DefaultOutOfBounds /\
  (2 * 3) mod 3 + 3 <= 3.
Proof.
  destruct (Find_default_reads_in_bounds int64 int32 (table_absent true)
              one_key one_row default_nines
              ltac:(vm_compute; lia) ltac:(vm_compute; lia) eq_refl)
    as [HF Hi].
  split; [exact HF|].
  destruct (Hi 2) as [_ Hb]. apply Hb. vm_compute. lia.
Defined.

(** ** Byte buffers *)

Lemma append_cons (c : ascii) (a r : string) :
  (String c a ++ r)%string = String c (a ++ r)%string.
Proof. reflexivity. Qed.

Lemma append_assoc (a b c : string) :
  ((a ++ b) ++ c)%string = (a ++ b ++ c)%string.
Proof.
  induction a as [|x a IH]; [reflexivity|].
  rewrite !append_cons, IH. reflexivity.
Qed.

Lemma append_nil_r (a : string) : (a ++ "")%string = a.
Proof. induction a as [|x a IH]; [reflexivity|]. rewrite append_cons, IH. reflexivity. Qed.

Lemma read_n_app (a r : string) : read_n (String.length a) (a ++ r)%string = Some (a, r).
Proof.
  induction a as [|c a IH]; [reflexivity|].
  rewrite append_cons. simpl. rewrite IH. reflexivity.
Qed.

Lemma ifstream_read_app (a r : string) :
  ifstream_read (String.length a)
    {| unread := (a ++ r)%string; eofbit := false; failbit := false |}
  = (Some a, {| unread := r; eofbit := false; failbit := false |}).
Proof. unfold ifstream_read. simpl. rewrite read_n_app. reflexivity. Qed.

(** ** [Clear] *)

Lemma Clear_absent (t : RocksDBTableOfTensors) :
  namespace_present t = false -> Clear t = Done (OK, set_colHandleCache t []).
Proof. unfold Clear, namespace_present. simpl. intros ->. reflexivity. Qed.

Lemma Clear_read_only_present (t : RocksDBTableOfTensors) :
  readOnly t = true -> namespace_present t = true ->
  Clear t = Done (PERMISSION_DENIED, set_colHandleCache t []).
Proof. unfold Clear, namespace_present. simpl. intros -> ->. reflexivity. Qed.

Lemma Clear_read_write_present (t : RocksDBTableOfTensors) :
  readOnly t = false -> namespace_present t = true -> table_wf t ->
  ~ owns_default t ->
  exists t1, Clear t = Done (OK, t1).
Proof.
  intros Hrw Hp (_ & Hlive & _) Hnd.
  destruct (namespace_present_lookup t Hp) as [h Hh].
  destruct (Hlive h) as [cf Hcf]; [eapply list_elem_of_lookup_2; eassumption|].
  unfold Clear, namespace_present in *. simpl. rewrite Hp, Hrw, Hh.
  unfold DropColumnFamily. rewrite Hcf.
  rewrite bool_decide_eq_false_2
    by (intros ->; apply Hnd; exact Hh).
  simpl. eauto.
Qed.

(** The engine refuses to drop its default column family: [Clear] on a
    read-write table that owns it throws, at line 220. *)
Lemma Clear_default_refused (t : RocksDBTableOfTensors) :
  readOnly t = false -> table_wf t -> owns_default t ->
  Clear t = Throw StoreStatus.
Proof.
  intros Hrw (_ & Hlive & _) Hd. unfold owns_default, own_handle in Hd.
  destruct (Hlive (default_family (db t))) as [cf Hcf];
    [eapply list_elem_of_lookup_2; eassumption|].
  pose proof (lookup_lt_Some _ _ _ Hd) as Hlt. apply Nat.ltb_lt in Hlt.
  unfold Clear. simpl. rewrite Hlt, Hrw, Hd.
  unfold DropColumnFamily. rewrite Hcf, bool_decide_eq_true_2 by reflexivity.
  reflexivity.
Qed.

(** A successful [Clear] leaves the table without a column family. *)
Lemma Clear_OK_absent (t t1 : RocksDBTableOfTensors) :
  Clear t = Done (OK, t1) ->
  namespace_present t1 = false /\ namespace_records t1 = None.
Proof.
  unfold Clear. simpl.
  destruct (colIndex t <? length (colHandles t)) eqn:Hp.
  - destruct (readOnly t); [discriminate|].
    destruct (colHandles t !! colIndex t) as [h|]; [|discriminate].
    destruct (DropColumnFamily (db t) h) as [d| |]; simpl; [|discriminate..].
    intros [= <-]. unfold namespace_present, namespace_records. simpl.
    rewrite Nat.ltb_irrefl. split; [reflexivity|].
    rewrite lookup_ge_None_2 by lia. reflexivity.
  - intros [= <-]. unfold namespace_present, namespace_records. simpl.
    split; [exact Hp|]. apply Nat.ltb_ge in Hp.
    rewrite lookup_ge_None_2 by lia. reflexivity.
Qed.

(** C9, as amended.  A snapshot whose first eight bytes are not the
    expected magic and version is imported.  On a table whose initial clear
    is carried out (a read-write table, or a read-only one without a column
    family) and that does not own the store's default column family, the
    import returns INTERNAL ("Unsupported file-type"); afterwards the table
    has no column family, the column family it had is gone from the store
    with all its records, and every other column family is exactly as it
    was: nothing has been written.  On a read-only table whose column family
    is present the import returns PERMISSION_DENIED and the store is
    untouched.  On a read-write table that owns the store's default column
    family the clear throws. *)
Theorem ImportValues_unsupported_header (t : RocksDBTableOfTensors)
  (fs : FileSystem) (magic version payload : string) :
  table_wf t ->
  String.length magic = 4 ->
  String.length version = 4 ->
  dump fs = Some (magic ++ version ++ payload)%string ->
  le_value magic <> RDB_EXPORT_FILE_MAGIC \/
  le_value version <> RDB_EXPORT_FILE_VERSION ->
  (readOnly t = false \/ namespace_present t = false ->
   ~ owns_default t ->
   exists t1,
     ImportValues t fs = Done (INTERNAL, t1) /\
     namespace_present t1 = false /\
     (forall h, own_handle t = Some h -> families (db t1) !! h = None) /\
     (forall h, own_handle t <> Some h ->
                families (db t1) !! h = families (db t) !! h)) /\
  (readOnly t = true -> namespace_present t = true ->
   exists t1,
     ImportValues t fs = Done (PERMISSION_DENIED, t1) /\
     namespace_present t1 = true /\ db t1 = db t) /\
  (readOnly t = false -> owns_default t ->
   ImportValues t fs = Throw StoreStatus).
Proof.
  intros Hwf Hm Hv Hdump Hbad. split; [|split].
  - intros Hmode Hown.
    assert (Hclear : exists t1,
              Clear t = Done (OK, t1) /\
              (forall h, own_handle t = Some h -> families (db t1) !! h = None) /\
              (forall h, own_handle t <> Some h ->
                         families (db t1) !! h = families (db t) !! h)).
    { destruct (namespace_present t) eqn:Hp.
      - destruct Hmode as [Hrw|]; [|discriminate].
        destruct Hwf as (_ & Hlive & _).
        destruct (namespace_present_lookup t Hp) as [h Hh].
        destruct (Hlive h) as [cf Hcf]; [eapply list_elem_of_lookup_2; eassumption|].
        unfold Clear, namespace_present in *. simpl. rewrite Hp, Hrw, Hh.
        unfold DropColumnFamily. rewrite Hcf.
        rewrite bool_decide_eq_false_2 by (intros ->; apply Hown; exact Hh).
        cbn [bind]. eexists. split; [reflexivity|].
        unfold own_handle. rewrite Hh. cbn [db families]. split.
        + intros h' [= <-]. apply lookup_delete_eq.
        + intros h' Hne. apply lookup_delete_ne. congruence.
      - rewrite (Clear_absent t Hp). eexists. split; [reflexivity|].
        unfold namespace_present in Hp. apply Nat.ltb_ge in Hp.
        unfold own_handle. rewrite lookup_ge_None_2 by lia.
        split; [discriminate | reflexivity]. }
    destruct Hclear as (t1 & Hclear & Hgone & Hkept).
    exists t1. split; [|split; [apply (Clear_OK_absent t); exact Hclear|]].
    2:{ split; assumption. }
    unfold ImportValues. rewrite Hclear. cbn [bind].
    rewrite bool_decide_eq_true_2 by reflexivity. cbn [negb].
    pose proof (ifstream_read_app magic (version ++ payload)%string) as Hr1.
    pose proof (ifstream_read_app version payload) as Hr2.
    rewrite Hm in Hr1. rewrite Hv in Hr2.
    rewrite Hdump. cbv zeta iota. rewrite Hr1, Hr2.
    destruct Hbad as [Hbad|Hbad].
    + apply Z.eqb_neq in Hbad. rewrite Hbad. reflexivity.
    + apply Z.eqb_neq in Hbad. rewrite Hbad.
      rewrite orb_true_r. reflexivity.
  - intros Hro Hp. exists (set_colHandleCache t []).
    split; [|split; [exact Hp | reflexivity]].
    unfold ImportValues. rewrite (Clear_read_only_present t Hro Hp). reflexivity.
  - intros Hrw Hd. unfold ImportValues.
    rewrite (Clear_default_refused t Hrw Hwf Hd). reflexivity.
Qed.

(** C9, counterexample.  The table is read-only and holds "k" -> "v".  The
    import of a dump whose magic reads "TFKX" returns PERMISSION_DENIED, not
    INTERNAL, and nothing is cleared: the record is still there.  The clear
    at the start of the import is refused on a read-only table whose column
    family is present, and the import returns its status before the file is
    opened. *)
Theorem ImportValues_bad_header_read_only :
  namespace_records (table_one_record true) = Some {["k" := "v"]} /\
  exists t1,
    ImportValues (table_one_record true) bad_magic_dump
    = Done (PERMISSION_DENIED, t1) /\
    namespace_records t1 = Some {["k" := "v"]}.
Proof.
  split; [vm_compute; reflexivity|].
  eexists. split; vm_compute; reflexivity.
Qed.

(** ** The snapshot written by [ExportValues] *)

Global Instance key_le_trans : Transitive key_le.
Proof. intros p q r. unfold key_le. apply transitivity. Qed.

Global Instance key_le_total : Total key_le.
Proof. intros p q. unfold key_le. apply total. apply _. Qed.

Lemma stored_records_perm (cf : gmap string string) :
  stored_records cf ≡ₚ map_to_list cf.
Proof. apply merge_sort_Permutation. Qed.

Lemma stored_records_sorted (cf : gmap string string) :
  StronglySorted key_le (stored_records cf).
Proof. apply StronglySorted_merge_sort; apply _. Qed.

Lemma stored_records_NoDup (cf : gmap string string) :
  NoDup (stored_records cf).*1.
Proof.
  rewrite stored_records_perm. apply NoDup_fst_map_to_list.
Qed.

Lemma stored_records_lookup (cf : gmap string string) (k v : string) :
  (k, v) ∈ stored_records cf <-> cf !! k = Some v.
Proof. rewrite stored_records_perm. apply elem_of_map_to_list. Qed.

Lemma export_loop_fits (iter : list (string * string)) : forall file : string,
  Forall fits iter ->
  export_loop iter file = Done (file ++ concat_bytes (map frame iter))%string.
Proof.
  induction iter as [|[k v] rest IH]; intros file Hall.
  - simpl. rewrite append_nil_r. reflexivity.
  - apply Forall_cons in Hall as [[Hk Hv] Hrest]. simpl in Hk, Hv.
    cbn [export_loop].
    destruct (Nat.ltb_spec UINT8_MAX (String.length k)); [lia|].
    destruct (Z.ltb_spec UINT32_MAX (Z.of_nat (String.length v))); [lia|].
    rewrite IH by assumption. f_equal.
    unfold frame. cbn [map concat_bytes foldr fst snd].
    rewrite !append_assoc. reflexivity.
Qed.

Lemma export_loop_throws (iter : list (string * string)) : forall file : string,
  ~ Forall fits iter ->
  exists e, export_loop iter file = Throw e /\ (e = KeyTooLong \/ e = ValueTooLarge).
Proof.
  induction iter as [|[k v] rest IH]; intros file Hnot.
  - destruct Hnot. constructor.
  - cbn [export_loop].
    destruct (Nat.ltb_spec UINT8_MAX (String.length k)) as [|Hk]; [eauto|].
    destruct (Z.ltb_spec UINT32_MAX (Z.of_nat (String.length v))) as [|Hv]; [eauto|].
    apply IH. intros Hrest. apply Hnot. constructor; [split; assumption | assumption].
Qed.

Lemma export_header_bytes :
  export_header
  = String "T" (String "F" (String "K" (String "V"
      (String "001" (String "000" (String "000" (String "000" ""))))))).
Proof. reflexivity. Qed.

(** What [ExportValues] walks and writes, for a table that yields a handle
    and a dump file that can be opened. *)
Lemma ExportValues_writes_snapshot (t : RocksDBTableOfTensors) (fs : FileSystem)
  (cf : gmap string string) :
  writable fs = true ->
  table_wf t ->
  (namespace_present t = true /\ namespace_records t = Some cf) \/
  (namespace_present t = false /\ readOnly t = false /\ cf = ∅) ->
  let records := stored_records cf in
  let t' := if namespace_present t then t else with_created_family t in
  (forall k v, (k, v) ∈ records <-> cf !! k = Some v) /\
  StronglySorted key_le records /\
  NoDup records.*1 /\
  (Forall fits records ->
   ExportValues t fs
   = Done (OK, t', {| dump := Some (snapshot records); writable := true |}) /\
   snapshot records
   = (String "T" (String "F" (String "K" (String "V"
       (String "001" (String "000" (String "000" (String "000" ""))))))) ++
      concat_bytes (map frame records))%string) /\
  (~ Forall fits records ->
   exists e, ExportValues t fs = Throw e /\ (e = KeyTooLong \/ e = ValueTooLarge)).
Proof.
  intros Hw Hwf Hcase records t'.
  split; [intros k v; apply stored_records_lookup|].
  split; [apply stored_records_sorted|].
  split; [apply stored_records_NoDup|].
  assert (Hiter : exists h,
             GetOrCreateColumnHandle t = Done (Some h, t') /\
             families (db t') !! h = Some cf).
  { destruct Hcase as [[Hp Hr]|(Ha & Hrw & ->)]; subst t'.
    - rewrite Hp. destruct (namespace_present_lookup t Hp) as [h Hh].
      exists h. split; [apply GetOrCreateColumnHandle_present; assumption|].
      unfold namespace_records in Hr. rewrite Hh in Hr. exact Hr.
    - rewrite Ha. exists (next_handle (db t)). destruct Hwf as (Hle & _).
      split; [apply GetOrCreateColumnHandle_creates; assumption|].
      apply created_family_lookup. }
  destruct Hiter as (h & HG & Hcf).
  assert (Hexp : ExportValues t fs =
                 (file <- export_loop records export_header ;;
                  Done (OK, t', {| dump := Some file; writable := writable fs |}))).
  { unfold ExportValues. rewrite Hw. cbn [negb]. rewrite HG. cbn [bind].
    unfold NewIterator. rewrite Hcf. reflexivity. }
  split.
  - intros Hfits. split; [|unfold snapshot; rewrite export_header_bytes; reflexivity].
    rewrite Hexp, export_loop_fits by assumption. cbn [bind].
    rewrite Hw. reflexivity.
  - intros Hnot.
    destruct (export_loop_throws records export_header Hnot) as (e & He & Hkind).
    exists e. split; [|exact Hkind]. rewrite Hexp, He. reflexivity.
Qed.

(** C7.  When the dump file can be opened and the table yields a handle
    (its column family is present, or the table is read-write and creates an
    empty one), the records the iterator walks are exactly the stored ones,
    in ascending order of their keys and with distinct keys.  If each fits
    the frame, [ExportValues] returns OK and the file is the eight header
    bytes 'T' 'F' 'K' 'V' 1 0 0 0 followed by one frame per record in that
    order; if some key is longer than 255 bytes or some value longer than
    2^32-1 bytes, it throws and returns nothing. *)
Theorem ExportValues_format (t : RocksDBTableOfTensors) (fs : FileSystem)
  (cf : gmap string string) :
  writable fs = true ->
  table_wf t ->
  (namespace_present t = true /\ namespace_records t = Some cf) \/
  (namespace_present t = false /\ readOnly t = false /\ cf = ∅) ->
  let records := stored_records cf in
  let t' := if namespace_present t then t else with_created_family t in
  (forall k v, (k, v) ∈ records <-> cf !! k = Some v) /\
  StronglySorted key_le records /\
  NoDup records.*1 /\
  (Forall fits records ->
   ExportValues t fs
   = Done (OK, t', {| dump := Some (snapshot records); writable := true |}) /\
   snapshot records
   = (String "T" (String "F" (String "K" (String "V"
       (String "001" (String "000" (String "000" (String "000" ""))))))) ++
      concat_bytes (map frame records))%string) /\
  (~ Forall fits records ->
   exists e, ExportValues t fs = Throw e /\ (e = KeyTooLong \/ e = ValueTooLarge)).
Proof.
  intros Hw Hwf Hcase. exact (ExportValues_writes_snapshot t fs cf Hw Hwf Hcase).
Qed.

Lemma table_wfb_wf (t : RocksDBTableOfTensors) : table_wfb t = true -> table_wf t.
Proof.
  unfold table_wfb, table_wf. rewrite !andb_true_iff, !forallb_forall.
  intros [[Hle Hlive] Hfresh]. split; [|split].
  - apply Nat.leb_le. exact Hle.
  - intros h Hh. apply list_elem_of_In in Hh.
    apply Hlive in Hh. apply bool_decide_eq_true in Hh. exact Hh.
  - intros h [cf Hcf]. apply Nat.ltb_lt. apply Hfresh.
    apply list_elem_of_In, list_elem_of_fmap.
    exists (h, cf). split; [reflexivity|]. apply elem_of_map_to_list. exact Hcf.
Qed.

Lemma table_one_record_wf (read_only : bool) : table_wf (table_one_record read_only).
Proof. apply table_wfb_wf. vm_compute. reflexivity. Qed.

(** Witness of [ExportValues_format]: the table holding "k" -> "v". *)
Lemma ExportValues_format_witness :
  ExportValues (table_one_record false) no_dump
  = Done (OK, table_one_record false,
          {| dump := Some (snapshot [("k", "v")]); writable := true |}).
Proof.
  assert (Hrec : stored_records {["k" := "v"]} = [("k", "v")])
    by (vm_compute; reflexivity).
  assert (Hns : namespace_records (table_one_record false) = Some {["k" := "v"]})
    by (vm_compute; reflexivity).
  assert (Hp : namespace_present (table_one_record false) = true) by reflexivity.
  assert (Hfits : Forall fits [("k", "v")]).
  { constructor; [split; vm_compute; [lia | discriminate] | constructor]. }
  pose proof (ExportValues_format (table_one_record false) no_dump {["k" := "v"]}
                eq_refl (table_one_record_wf false) (or_introl (conj Hp Hns)))
    as (_ & _ & _ & Hok & _).
  rewrite Hrec in Hok. apply Hok. exact Hfits.
Defined.

(** Witness of [ImportValues_unsupported_header]: a dump whose magic reads
    "TFKX" is imported into the table holding "k" -> "v".  The column family
    (handle 1) is gone from the store and the other one is as it was. *)
Lemma ImportValues_unsupported_header_witness :
  exists t1,
    ImportValues (table_one_record false) bad_magic_dump = Done (INTERNAL, t1) /\
    namespace_present t1 = false /\
    families (db t1) !! 1 = None /\
    families (db t1) !! 0 = Some ∅.
Proof.
  pose proof (table_one_record_wf false) as Hwf.
  assert (Hown : ~ owns_default (table_one_record false))
    by (vm_compute; discriminate).
  assert (Hm : String.length "TFKX" = 4) by reflexivity.
  assert (Hv : String.length (le_bytes 4 1) = 4) by reflexivity.
  assert (Hd : dump bad_magic_dump = Some ("TFKX" ++ le_bytes 4 1 ++ "")%string)
    by reflexivity.
  assert (Hbad : le_value "TFKX" <> RDB_EXPORT_FILE_MAGIC)
    by (vm_compute; discriminate).
  destruct (ImportValues_unsupported_header (table_one_record false)
              bad_magic_dump "TFKX" (le_bytes 4 1) ""
              Hwf Hm Hv Hd (or_introl Hbad))
    as (Hcleared & _ & _).
  destruct (Hcleared (or_introl eq_refl) Hown) as (t1 & HI & Hp & Hgone & Hkept).
  exists t1. split; [exact HI|]. split; [exact Hp|]. split.
  - apply Hgone. reflexivity.
  - rewrite Hkept by (vm_compute; discriminate). reflexivity.
Defined.

(** ** Read-only tables *)

Section ReadOnly.

Context (K V : ElemType).
Variable t : RocksDBTableOfTensors.
Hypothesis Hro : readOnly t = true.







End ReadOnly.






(** ** Fixed-width integers and byte counts *)

Lemma length_append (a b : string) :
  String.length (a ++ b)%string = String.length a + String.length b.
Proof.
  induction a as [|c a IH]; [reflexivity|].
  rewrite append_cons. simpl. rewrite IH. reflexivity.
Qed.

Lemma length_le_bytes (w : nat) : forall z : Z, String.length (le_bytes w z) = w.
Proof. induction w as [|w IH]; intros z; simpl; [|rewrite IH]; reflexivity. Qed.

Lemma lor_shiftl_8 (a b : Z) :
  (0 <= a < 256)%Z -> Z.lor a (Z.shiftl b 8) = (a + b * 256)%Z.
Proof.
  intros Ha. rewrite Z.shiftl_mul_pow2 by lia. change (2 ^ 8)%Z with 256%Z.
  symmetry. apply Z.add_nocarry_lor.
  apply Z.bits_inj'. intros n Hn. rewrite Z.land_spec, Z.bits_0.
  destruct (Z.lt_ge_cases n 8) as [Hlt|Hge].
  - replace (b * 256)%Z with (Z.shiftl b 8)
      by (rewrite Z.shiftl_mul_pow2 by lia; reflexivity).
    rewrite Z.shiftl_spec_low by assumption. apply andb_false_r.
  - replace a with (a mod 2 ^ 8)%Z by (apply Z.mod_small; simpl; lia).
    rewrite Z.mod_pow2_bits_high by lia. reflexivity.
Qed.

(** Decoding undoes encoding up to the width. *)
Lemma le_value_le_bytes (w : nat) : forall z : Z,
  le_value (le_bytes w z) = (z mod 2 ^ (8 * Z.of_nat w))%Z.
Proof.
  induction w as [|w IH]; intros z.
  - simpl. rewrite Z.mod_1_r. reflexivity.
  - cbn [le_bytes le_value]. rewrite IH.
    change 255%Z with (Z.ones 8). rewrite Z.land_ones by lia.
    assert (Hb : (0 <= z mod 2 ^ 8 < 256)%Z) by (apply Z.mod_pos_bound; reflexivity).
    rewrite N_ascii_embedding by (change 256%N with (Z.to_N 256); lia).
    rewrite Z2N.id by lia.
    rewrite lor_shiftl_8 by assumption.
    rewrite Z.shiftr_div_pow2 by lia.
    replace (8 * Z.of_nat (S w))%Z with (8 + 8 * Z.of_nat w)%Z by lia.
    rewrite Z.pow_add_r by lia.
    rewrite Z.rem_mul_r by lia. lia.
Qed.

Lemma le_value_le_bytes_small (w : nat) (n : nat) :
  (Z.of_nat n < 2 ^ (8 * Z.of_nat w))%Z ->
  Z.to_nat (le_value (le_bytes w (Z.of_nat n))) = n.
Proof.
  intros Hn. rewrite le_value_le_bytes, Z.mod_small by lia. apply Nat2Z.id.
Qed.

(** ** The import loop *)

Lemma ifstream_read_good (n : nat) (f f' : ifstream) (a : string) :
  ifstream_read n f = (Some a, f') ->
  eofbit f' = false /\
  String.length (unread f) = n + String.length (unread f').
Proof.
  unfold ifstream_read. destruct (failbit f || eofbit f); [discriminate|].
  destruct (read_n n (unread f)) as [[a' r]|] eqn:Hr; [|discriminate].
  intros [= <- <-]. split; [reflexivity|]. simpl.
  revert a' r Hr. generalize (unread f). clear.
  induction n as [|n IH]; intros s a r Hr; simpl in Hr.
  - injection Hr as <- <-. reflexivity.
  - destruct s as [|c s]; [discriminate|].
    destruct (read_n n s) as [[a0 r0]|] eqn:Hs; [|discriminate].
    injection Hr as <- <-. simpl. f_equal. eapply IH. exact Hs.
Qed.

Lemma Write_not_out_of_fuel (batch : list batch_op) : forall store : DB,
  Write store batch <> Undefined OutOfFuel.
Proof.
  induction batch as [|op batch IH]; intros store; simpl; [discriminate|].
  destruct (apply_op store op) as [d| |f] eqn:Hop; simpl;
    [apply IH | discriminate |].
  destruct op; simpl in Hop; destruct (families store !! _); congruence.
Qed.

(** The loop is entered with [eofbit] clear, and only a failed read sets
    it; a failed read returns at once.  So the loop never gets to the exit
    that writes the remaining entries and returns OK. *)
Lemma import_loop_never_OK (fuel : nat) :
  forall (file : ifstream) (batch : list batch_op) (store store' : DB) (h : nat),
  eofbit file = false ->
  import_loop fuel file batch store h <> Done (OK, store').
Proof.
  induction fuel as [|fuel IH]; intros file batch store store' h Heof;
    cbn [import_loop]; [discriminate|].
  rewrite Heof.
  destruct (ifstream_read 1 file) as [[kSize|] f1] eqn:H1; [|discriminate].
  destruct (ifstream_read _ f1) as [[k|] f2] eqn:H2; [|discriminate].
  destruct (ifstream_read 4 f2) as [[vSize|] f3] eqn:H3; [|discriminate].
  destruct (ifstream_read _ f3) as [[v|] f4] eqn:H4; [|discriminate].
  apply ifstream_read_good in H4 as [Heof4 _].
  destruct (_ =? 0).
  - destruct (Write store _) as [d| |]; simpl; [|discriminate..].
    apply IH. exact Heof4.
  - apply IH. exact Heof4.
Qed.

(** [ImportValues] never returns OK. *)
Lemma ImportValues_never_OK (t t' : RocksDBTableOfTensors) (fs : FileSystem) :
  ImportValues t fs <> Done (OK, t').
Proof.
  unfold ImportValues. intros H.
  apply bind_Done in H as ([clearStatus t1] & _ & H).
  destruct (bool_decide (clearStatus = OK)) eqn:Hc; cbn [negb] in H.
  2:{ injection H as -> _. rewrite bool_decide_eq_true_2 in Hc by reflexivity.
      discriminate. }
  destruct (dump fs) as [content|]; [|discriminate].
  cbv zeta in H.
  destruct (ifstream_read 4 _) as [[magic|] f1] eqn:H1; [|discriminate].
  destruct (ifstream_read 4 f1) as [[version|] f2] eqn:H2; [|discriminate].
  destruct (_ || _); [discriminate|].
  apply bind_Done in H as ([colHandle t2] & _ & H).
  destruct colHandle as [h|]; [|discriminate].
  destruct (readOnly t2); [discriminate|].
  apply bind_Done in H as ([status store] & Hloop & H).
  injection H as -> _.
  apply ifstream_read_good in H2 as [Heof _].
  revert Hloop. apply import_loop_never_OK. exact Heof.
Qed.

(** The fuel [ImportValues] passes to the loop is enough. *)
Lemma import_loop_fuel (fuel : nat) :
  forall (file : ifstream) (batch : list batch_op) (store : DB) (h : nat),
  String.length (unread file) < fuel ->
  import_loop fuel file batch store h <> Undefined OutOfFuel.
Proof.
  induction fuel as [|fuel IH]; intros file batch store h Hlen;
    cbn [import_loop]; [lia|].
  destruct (eofbit file).
  { destruct (negb _); [|discriminate].
    apply bind_avoids; [apply Write_not_out_of_fuel | discriminate]. }
  destruct (ifstream_read 1 file) as [[kSize|] f1] eqn:H1; [|discriminate].
  destruct (ifstream_read _ f1) as [[k|] f2] eqn:H2; [|discriminate].
  destruct (ifstream_read 4 f2) as [[vSize|] f3] eqn:H3; [|discriminate].
  destruct (ifstream_read _ f3) as [[v|] f4] eqn:H4; [|discriminate].
  apply ifstream_read_good in H1 as [_ L1].
  apply ifstream_read_good in H2 as [_ L2].
  apply ifstream_read_good in H3 as [_ L3].
  apply ifstream_read_good in H4 as [_ L4].
  destruct (_ =? 0).
  - apply bind_avoids; [apply Write_not_out_of_fuel|].
    intros store1 _. apply IH. lia.
  - apply IH. lia.
Qed.

Lemma ImportValues_fuel (t : RocksDBTableOfTensors) (fs : FileSystem) :
  ImportValues t fs <> Undefined OutOfFuel.
Proof.
  unfold ImportValues.
  apply bind_avoids.
  { unfold Clear. simpl. destruct (_ <? _); [|discriminate].
    destruct (readOnly t); [discriminate|].
    destruct (_ !! _); [|discriminate].
    unfold DropColumnFamily.
    destruct (_ !! _); [destruct (bool_decide _)|]; discriminate. }
  intros [clearStatus t1] _.
  destruct (negb _); [discriminate|].
  destruct (dump fs) as [content|]; [|discriminate]. cbv zeta.
  destruct (ifstream_read 4 _) as [[magic|] f1]; [|discriminate].
  destruct (ifstream_read 4 f1) as [[version|] f2]; [|discriminate].
  destruct (_ || _); [discriminate|].
  apply bind_avoids.
  { unfold GetOrCreateColumnHandle. destruct (_ <=? _).
    - destruct (readOnly t1); [discriminate|]. simpl.
      destruct (_ !! _); discriminate.
    - destruct (_ !! _); discriminate. }
  intros [colHandle t2] _.
  destruct colHandle as [h|]; [|discriminate].
  destruct (readOnly t2); [discriminate|].
  apply bind_avoids; [apply import_loop_fuel; lia|].
  intros [status store] _. discriminate.
Qed.

(** ** Importing a well-formed snapshot *)

Lemma frame_length (k v : string) :
  String.length (frame (k, v)) = 5 + String.length k + String.length v.
Proof.
  unfold frame. cbn [fst snd].
  rewrite !length_append, !length_le_bytes. lia.
Qed.

Lemma import_loop_reads_frame (fuel : nat) (k v rest : string)
  (batch : list batch_op) (store : DB) (h : nat) :
  fits (k, v) ->
  import_loop (S fuel)
    {| unread := (frame (k, v) ++ rest)%string; eofbit := false; failbit := false |}
    batch store h
  = let batch' := batch ++ [BatchPut h k v] in
    let file' := {| unread := rest; eofbit := false; failbit := false |} in
    if length batch' mod RDB_BATCH_MODE_MAX_QUERY_SIZE =? 0
    then store' <- Write store batch' ;; import_loop fuel file' [] store' h
    else import_loop fuel file' batch' store h.
Proof.
  intros [Hk Hv]. cbn [fst snd] in Hk, Hv. unfold UINT8_MAX, UINT32_MAX in *.
  cbn [import_loop eofbit]. unfold frame. cbn [fst snd].
  rewrite !append_assoc.
  pose proof (ifstream_read_app (le_bytes 1 (Z.of_nat (String.length k)))
                (k ++ le_bytes 4 (Z.of_nat (String.length v)) ++ v ++ rest)%string)
    as R1.
  rewrite length_le_bytes in R1. rewrite R1.
  rewrite le_value_le_bytes_small by (simpl; lia).
  rewrite ifstream_read_app.
  pose proof (ifstream_read_app (le_bytes 4 (Z.of_nat (String.length v)))
                (v ++ rest)%string) as R3.
  rewrite length_le_bytes in R3. rewrite R3.
  rewrite le_value_le_bytes_small by (simpl; lia).
  rewrite ifstream_read_app. reflexivity.
Qed.

(** With fewer than 128 records in all, nothing is ever written: the read
    after the last record fails and the loop returns with the batch
    unwritten. *)
Lemma import_loop_short (records : list (string * string)) :
  forall (fuel : nat) (batch : list batch_op) (store : DB) (h : nat),
  Forall fits records ->
  length batch + length records < RDB_BATCH_MODE_MAX_QUERY_SIZE ->
  String.length (concat_bytes (map frame records)) < fuel ->
  import_loop fuel
    {| unread := concat_bytes (map frame records); eofbit := false; failbit := false |}
    batch store h
  = Done (OUT_OF_RANGE, store).
Proof.
  induction records as [|[k v] records IH]; intros fuel batch store h Hfits Hn Hfuel.
  - destruct fuel as [|fuel]; [simpl in Hfuel; lia|]. reflexivity.
  - apply Forall_cons in Hfits as [Hkv Hfits].
    cbn [map concat_bytes foldr] in Hfuel |- *.
    fold (concat_bytes (map frame records)) in Hfuel |- *.
    rewrite length_append, frame_length in Hfuel.
    destruct fuel as [|fuel]; [lia|].
    rewrite import_loop_reads_frame by assumption. cbv zeta.
    simpl in Hn. unfold RDB_BATCH_MODE_MAX_QUERY_SIZE in *.
    assert (Hlen : length (batch ++ [BatchPut h k v]) = length batch + 1)
      by (rewrite length_app; reflexivity).
    rewrite Hlen, Nat.mod_small by lia.
    destruct (Nat.eqb_spec (length batch + 1) 0); [lia|].
    apply IH; [assumption | rewrite Hlen; lia | lia].
Qed.

Lemma Clear_OK_index (t t1 : RocksDBTableOfTensors) :
  colIndex t <= length (colHandles t) ->
  Clear t = Done (OK, t1) ->
  colIndex t1 <= length (colHandles t1) /\ readOnly t1 = readOnly t.
Proof.
  unfold Clear. simpl. intros Hle.
  destruct (colIndex t <? length (colHandles t)) eqn:Hp.
  - destruct (readOnly t) eqn:Hro; [discriminate|].
    destruct (colHandles t !! colIndex t) as [h|]; [|discriminate].
    destruct (DropColumnFamily (db t) h) as [d| |]; simpl; [|discriminate..].
    intros [= <-]. simpl. split; [lia | reflexivity].
  - intros [= <-]. simpl. split; [assumption | reflexivity].
Qed.

(** Importing a well-formed snapshot of fewer than 128 records into a
    read-write table (one that does not own the store's default column
    family) returns OUT_OF_RANGE and leaves the table with an empty column
    family: none of the records is written. *)
Lemma ImportValues_short_snapshot (t : RocksDBTableOfTensors)
  (records : list (string * string)) :
  readOnly t = false -> table_wf t -> ~ owns_default t ->
  Forall fits records -> length records < RDB_BATCH_MODE_MAX_QUERY_SIZE ->
  exists t', ImportValues t (dump_of records) = Done (OUT_OF_RANGE, t') /\
             namespace_records t' = Some ∅.
Proof.
  intros Hrw Hwf Hnd Hfits Hn. pose proof Hwf as (Hle & _ & _).
  assert (Hclear : exists t1, Clear t = Done (OK, t1)).
  { destruct (namespace_present t) eqn:Hp.
    - apply Clear_read_write_present; assumption.
    - eexists. apply Clear_absent. assumption. }
  destruct Hclear as [t1 Hclear].
  destruct (Clear_OK_index t t1 Hle Hclear) as [Hle1 Hrw1]. rewrite Hrw in Hrw1.
  destruct (Clear_OK_absent t t1 Hclear) as [Ha1 _].
  exists (with_created_family t1). split;
    [|apply created_family_records; assumption].
  unfold ImportValues. rewrite Hclear. cbn [bind].
  rewrite bool_decide_eq_true_2 by reflexivity. cbn [negb].
  unfold dump_of, snapshot, export_header. cbn [dump]. cbv zeta.
  rewrite !append_assoc.
  pose proof (ifstream_read_app (le_bytes 4 RDB_EXPORT_FILE_MAGIC)
                (le_bytes 4 RDB_EXPORT_FILE_VERSION
                 ++ concat_bytes (map frame records))%string) as Hr1.
  pose proof (ifstream_read_app (le_bytes 4 RDB_EXPORT_FILE_VERSION)
                (concat_bytes (map frame records))) as Hr2.
  change (String.length (le_bytes 4 RDB_EXPORT_FILE_MAGIC)) with 4 in Hr1.
  change (String.length (le_bytes 4 RDB_EXPORT_FILE_VERSION)) with 4 in Hr2.
  rewrite Hr1, Hr2.
  change (le_value (le_bytes 4 RDB_EXPORT_FILE_MAGIC) =? RDB_EXPORT_FILE_MAGIC)%Z
    with true.
  change (le_value (le_bytes 4 RDB_EXPORT_FILE_VERSION) =? RDB_EXPORT_FILE_VERSION)%Z
    with true.
  cbn [negb orb].
  rewrite GetOrCreateColumnHandle_creates by assumption. cbn [bind].
  replace (readOnly (with_created_family t1)) with false
    by (symmetry; exact Hrw1).
  cbn [unread].
  rewrite import_loop_short by (assumption || simpl; lia).
  reflexivity.
Qed.

(** Exporting a table of fewer than 128 records and importing the dump
    again loses every record. *)
Lemma export_then_import_short (t : RocksDBTableOfTensors) (fs : FileSystem)
  (cf : gmap string string) :
  readOnly t = false -> table_wf t -> ~ owns_default t ->
  writable fs = true ->
  namespace_present t = true -> namespace_records t = Some cf ->
  Forall fits (stored_records cf) ->
  length (stored_records cf) < RDB_BATCH_MODE_MAX_QUERY_SIZE ->
  exists t2, export_then_import t fs = Done (OK, OUT_OF_RANGE, t2) /\
             namespace_records t2 = Some ∅.
Proof.
  intros Hrw Hwf Hnd Hw Hp Hr Hfits Hn.
  destruct (ExportValues_writes_snapshot t fs cf Hw Hwf (or_introl (conj Hp Hr)))
    as (_ & _ & _ & Hok & _).
  destruct (Hok Hfits) as [Hexp _]. rewrite Hp in Hexp.
  destruct (ImportValues_short_snapshot t (stored_records cf) Hrw Hwf Hnd Hfits Hn)
    as (t2 & Himp & Ht2).
  exists t2. split; [|exact Ht2].
  unfold export_then_import. rewrite Hexp. cbn [bind].
  fold (dump_of (stored_records cf)). rewrite Himp. reflexivity.
Qed.

(** C1, failing input.  The table holds the single record "k" -> "v".
    [ExportValues] returns OK; [ImportValues] of that dump into the same
    table returns OUT_OF_RANGE and the table ends up with an empty column
    family: the one-record final batch is never written.  The loop condition
    [!file.eof()] still holds after the last record, so the next read fails
    and the function returns before the remainder is committed. *)
Theorem export_import_loses_record :
  namespace_records (table_one_record false) = Some {["k" := "v"]} /\
  exists t2,
    export_then_import (table_one_record false) no_dump
    = Done (OK, OUT_OF_RANGE, t2) /\
    namespace_records t2 = Some ∅.
Proof.
  split; [vm_compute; reflexivity|].
  eexists. split; vm_compute; reflexivity.
Qed.

(** C8, failing input.  Importing a well-formed snapshot of one record
    returns OUT_OF_RANGE with nothing written; importing one of 129 records
    returns OUT_OF_RANGE with the first 128 written, at the moment the batch
    reached 128, and the last one dropped: the remainder is never
    committed. *)
Theorem import_drops_final_batch :
  import_result (table_absent false) (dump_of [("k", "v")])
  = Some (OUT_OF_RANGE, Some ∅) /\
  import_result (table_absent false) (dump_of (numbered_records 129))
  = Some (OUT_OF_RANGE, Some (list_to_map (numbered_records 128))).
Proof.
  split; apply (bool_decide_unpack _); vm_compute; exact I.
Qed.

(** C4, failing inputs.  (1) Bulk path: keys 7 and 8 are both absent from
    the table's column family, which is empty, yet the slot of key 7 is
    filled with the row the store's first column family holds under 7:
    [MultiGet] is given [colHandles], so key number [i] is looked up in the
    [i]-th open column family.  (2) Point path: after inserting key 7 with
    the row 1, 2, 3, a lookup of key 8, never inserted, from a buffer at the
    same address returns 1, 2, 3: [assignSlice(kSlice, k)] takes the bytes of
    the pointer [k], not of the key. *)
Theorem Find_absent_key_not_default :
  namespace_records table_other_family = Some ∅ /\
  find_result (Find int64 int32 table_other_family keys_7_8 two_rows default_nines)
  = Done (OK, [1; 2; 3; 9; 9; 9]%Z) /\
  insert_then_find int64 int32 (table_absent false) one_key row_123_values
    other_key one_row default_nines
  = Done (OK, [1; 2; 3]%Z).
Proof. repeat split; vm_compute; reflexivity. Qed.

(** ** The two paths of [Insert] and of [Remove] agree *)

Lemma bind_assoc {A B C : Type} (m : outcome A) (f : A -> outcome B)
  (g : B -> outcome C) :
  bind (bind m f) g = bind m (fun a => bind (f a) g).
Proof. destruct m; reflexivity. Qed.

Lemma bind_Done_r {A : Type} (m : outcome A) : bind m Done = m.
Proof. destruct m; reflexivity. Qed.

Lemma Write_app (b1 b2 : list batch_op) : forall store : DB,
  Write store (b1 ++ b2) = (store' <- Write store b1 ;; Write store' b2).
Proof.
  induction b1 as [|op b1 IH]; intros store; simpl; [reflexivity|].
  destruct (apply_op store op); simpl; [apply IH | reflexivity | reflexivity].
Qed.

(** Deleting key by key and deleting in one batch give the same store. *)
Lemma Remove_fill_point (K : ElemType) (h : nat) (n : nat) :
  forall (batch : list batch_op) (k : Z) (store : DB),
  Write store (Remove_fill K batch h k n)
  = (store' <- Write store batch ;; Remove_point K store' h k n).
Proof.
  induction n as [|n IH]; intros batch k store; simpl.
  - symmetry. apply bind_Done_r.
  - rewrite IH, Write_app, bind_assoc.
    destruct (Write store batch) as [store'| |]; simpl; try reflexivity.
    rewrite bind_Done_r. reflexivity.
Qed.

Lemma Remove_paths_agree (K : ElemType) (store : DB) (h : nat) (k : Z) (n : nat) :
  Remove_batch K store h k n = Remove_point K store h k n.
Proof. unfold Remove_batch. rewrite Remove_fill_point. reflexivity. Qed.

Lemma apply_op_live (store : DB) (h : nat) (op : batch_op) :
  is_Some (families store !! h) -> on_family h op ->
  exists store', apply_op store op = Done store' /\
                 is_Some (families store' !! h).
Proof.
  intros [cf Hcf] Hop.
  destruct op as [h' k v|h' k]; simpl in Hop; subst h'; simpl; rewrite Hcf;
    eexists; (split; [reflexivity|]); simpl; rewrite lookup_insert_eq; eauto.
Qed.

Lemma Write_live (h : nat) (batch : list batch_op) : forall store : DB,
  is_Some (families store !! h) -> Forall (on_family h) batch ->
  exists store', Write store batch = Done store' /\
                 is_Some (families store' !! h).
Proof.
  induction batch as [|op batch IH]; intros store Hlive Hall; simpl; [eauto|].
  apply Forall_cons in Hall as [Hop Hall].
  destruct (apply_op_live store h op Hlive Hop) as (store1 & -> & Hlive1).
  simpl. apply IH; assumption.
Qed.

(** Putting row by row and putting in one batch give the same outcome on a
    live column family. *)
Lemma Insert_fill_point (K V : ElemType) (h : nat) (valuesPerDim0 : nat) (n : nat) :
  forall (batch : list batch_op) (k : Z) (v : list V) (store : DB),
  is_Some (families store !! h) -> Forall (on_family h) batch ->
  (b <- Insert_fill K V batch h k v n valuesPerDim0 ;; Write store b)
  = (store' <- Write store batch ;;
     Insert_point K V store' h k v n valuesPerDim0).
Proof.
  induction n as [|n IH]; intros batch k v store Hlive Hall; simpl.
  - symmetry. apply bind_Done_r.
  - destruct (Write_live h batch store Hlive Hall) as (store1 & Hw & Hlive1).
    destruct (assignSlice_n V (take valuesPerDim0 v)) as [vSlice| |] eqn:Hs; simpl.
    + rewrite IH; [|assumption|].
      2:{ apply Forall_app. split; [assumption|]. constructor; [reflexivity|constructor]. }
      rewrite Write_app, Hw. simpl. rewrite bind_Done_r. reflexivity.
    + rewrite Hw. reflexivity.
    + rewrite Hw. reflexivity.
Qed.

Lemma Insert_paths_agree (K V : ElemType) (store : DB) (h : nat) (k : Z)
  (v : list V) (n valuesPerDim0 : nat) :
  is_Some (families store !! h) ->
  Insert_batch K V store h k v n valuesPerDim0
  = Insert_point K V store h k v n valuesPerDim0.
Proof.
  intros Hlive. unfold Insert_batch.
  rewrite Insert_fill_point by (assumption || constructor). reflexivity.
Qed.

(** C3, failing input.  The table's column family holds the row 1, 2, 3
    under key 7.  A request with the one key 7 takes the point path and
    returns the default row; a request with the keys 7, 7 takes the bulk path
    and returns the default row for the first and the stored row for the
    second.  On the same two-key arguments the bodies of the two paths give
    different contents. *)
Theorem Find_paths_disagree :
  find_result (Find int64 int32 table_key_7 one_key one_row default_nines)
  = Done (OK, [9; 9; 9]%Z) /\
  find_result (Find int64 int32 table_key_7 keys_7_7 two_rows default_nines)
  = Done (OK, [9; 9; 9; 1; 2; 3]%Z) /\
  Find_point int64 int32 (db table_key_7) (Some 1) (data keys_7_7) 2
    (flat two_rows) 0 3 (flat default_nines) 3
  = Done [9; 9; 9; 9; 9; 9]%Z /\
  (x <- Find_batch int64 int32 table_key_7 (Some 1) (flat keys_7_7) 2
          (flat two_rows) 3 (flat default_nines) 3 ;; Done x.1)
  = Done [9; 9; 9; 1; 2; 3]%Z.
Proof. repeat split; vm_compute; reflexivity. Qed.

(** ** The constructor's column index *)

Lemma find_colIndex_bound (embeddingName : string) (colFamilies : list string) :
  forall (colFamilyExists : bool) (colIndex : nat),
  find_colIndex embeddingName colFamilies colFamilyExists colIndex
  <= colIndex + length colFamilies.
Proof.
  induction colFamilies as [|cf rest IH]; intros colFamilyExists colIndex; simpl;
    [lia|].
  destruct (colFamilyExists || bool_decide (cf = embeddingName));
    etransitivity; [apply IH | lia | apply IH | lia].
Qed.

(** * Further properties *)

(** ** The value codec: [assignSlice] and [copyToTensor] *)

Lemma read_n_Some (n : nat) : forall (s a r : string),
  read_n n s = Some (a, r) -> String.length a = n /\ s = (a ++ r)%string.
Proof.
  induction n as [|n IH]; intros s a r H; simpl in H.
  - injection H as <- <-. split; reflexivity.
  - destruct s as [|c s]; [discriminate|].
    destruct (read_n n s) as [[a0 r0]|] eqn:Hs; [|discriminate].
    injection H as <- <-. destruct (IH _ _ _ Hs) as [Hl ->].
    split; [simpl; rewrite Hl|]; reflexivity.
Qed.

Lemma le_value_bound (s : string) :
  (0 <= le_value s < 2 ^ (8 * Z.of_nat (String.length s)))%Z.
Proof.
  induction s as [|c s IH]; [simpl; lia|].
  cbn [le_value String.length].
  pose proof (N_ascii_bounded c) as Hc.
  rewrite lor_shiftl_8 by lia.
  replace (8 * Z.of_nat (S (String.length s)))%Z
    with (8 + 8 * Z.of_nat (String.length s))%Z by lia.
  rewrite Z.pow_add_r by lia. change (2 ^ 8)%Z with 256%Z. lia.
Qed.

(** Encoding undoes decoding. *)
Lemma le_bytes_le_value (s : string) : le_bytes (String.length s) (le_value s) = s.
Proof.
  induction s as [|c s IH]; [reflexivity|].
  cbn [le_value String.length le_bytes].
  pose proof (N_ascii_bounded c) as Hc. pose proof (le_value_bound s) as Hs.
  rewrite lor_shiftl_8 by lia.
  change 255%Z with (Z.ones 8). rewrite Z.land_ones by lia.
  rewrite Z.shiftr_div_pow2 by lia. change (2 ^ 8)%Z with 256%Z.
  rewrite Z.mod_add, Z.mod_small by lia.
  rewrite Z.div_add, Z.div_small by lia. rewrite Z.add_0_l.
  rewrite N2Z.id, ascii_N_embedding, IH. reflexivity.
Qed.

Lemma le_bytes_mod (w : nat) : forall z : Z,
  le_bytes w (z mod 2 ^ (8 * Z.of_nat w)) = le_bytes w z.
Proof.
  intros z.
  rewrite <- (le_value_le_bytes w z).
  pose proof (le_bytes_le_value (le_bytes w z)) as H.
  rewrite length_le_bytes in H. exact H.
Qed.

Lemma testbit_top (n u : Z) :
  (1 <= n)%Z -> (0 <= u < 2 ^ n)%Z ->
  Z.testbit u (n - 1) = (2 ^ (n - 1) <=? u)%Z.
Proof.
  intros Hn Hu.
  assert (Hp : (2 ^ n = 2 * 2 ^ (n - 1))%Z).
  { replace n with (1 + (n - 1))%Z at 1 by lia. rewrite Z.pow_add_r by lia.
    reflexivity. }
  assert (Hpos : (0 < 2 ^ (n - 1))%Z) by (apply Z.pow_pos_nonneg; lia).
  destruct (Z.leb_spec (2 ^ (n - 1)) u) as [Hge|Hlt].
  - apply Z.testbit_true; [lia|].
    assert (u / 2 ^ (n - 1) = 1)%Z as ->; [|reflexivity].
    symmetry. apply (Z.div_unique u (2 ^ (n - 1)) 1 (u - 2 ^ (n - 1))); lia.
  - apply Z.testbit_false; [lia|].
    rewrite Z.div_small by lia. reflexivity.
Qed.

(** A value within the width survives encoding and signed decoding. *)
Lemma to_signed_le_bytes (w : nat) (z : Z) :
  1 <= w -> in_range w z -> to_signed w (le_value (le_bytes w z)) = z.
Proof.
  intros Hw [Hlo Hhi]. unfold to_signed.
  rewrite le_value_le_bytes.
  set (n := (8 * Z.of_nat w)%Z) in *.
  assert (Hn : (1 <= n)%Z) by (subst n; lia).
  assert (Hp : (2 ^ n = 2 * 2 ^ (n - 1))%Z).
  { replace n with (1 + (n - 1))%Z at 1 by lia. rewrite Z.pow_add_r by lia.
    reflexivity. }
  assert (Hpos : (0 < 2 ^ (n - 1))%Z) by (apply Z.pow_pos_nonneg; lia).
  rewrite testbit_top by (lia || apply Z.mod_pos_bound; lia).
  rewrite Z.shiftl_mul_pow2, Z.mul_1_l by lia.
  destruct (Z.lt_ge_cases z 0) as [Hneg|Hnonneg].
  - assert (z mod 2 ^ n = z + 2 ^ n)%Z as ->.
    { symmetry. apply (Z.mod_unique z (2 ^ n) (-1)); lia. }
    destruct (Z.leb_spec (2 ^ (n - 1)) (z + 2 ^ n)); lia.
  - rewrite Z.mod_small by lia.
    destruct (Z.leb_spec (2 ^ (n - 1)) z); lia.
Qed.

(** The bytes of a decoded chunk are the chunk. *)
Lemma le_bytes_to_signed (w : nat) (c : string) :
  String.length c = w -> le_bytes w (to_signed w (le_value c)) = c.
Proof.
  intros Hc. unfold to_signed.
  destruct (Z.testbit _ _).
  - rewrite <- le_bytes_mod.
    rewrite Z.shiftl_mul_pow2, Z.mul_1_l by lia.
    rewrite <- (Z.mul_1_l (2 ^ _)) at 1.
    rewrite <- Z.add_opp_r, <- Z.mul_opp_l, Z.mod_add
      by (apply Z.pow_nonzero; lia).
    rewrite le_bytes_mod. rewrite <- Hc. apply le_bytes_le_value.
  - rewrite <- Hc. apply le_bytes_le_value.
Qed.

Lemma chunks_concat (w : nat) (l : list Z) :
  chunks w (length l) (concat_bytes (map (le_bytes w) l)) = map (le_bytes w) l.
Proof.
  induction l as [|z l IH]; [reflexivity|].
  cbn [length map concat_bytes foldr chunks].
  fold (concat_bytes (map (le_bytes w) l)).
  pose proof (read_n_app (le_bytes w z) (concat_bytes (map (le_bytes w) l))) as H.
  rewrite length_le_bytes in H. rewrite H, IH. reflexivity.
Qed.

Lemma concat_bytes_length_fixed (w : nat) (l : list Z) :
  String.length (concat_bytes (map (le_bytes w) l)) = length l * w.
Proof.
  induction l as [|z l IH]; [reflexivity|].
  cbn [length map concat_bytes foldr].
  fold (concat_bytes (map (le_bytes w) l)).
  rewrite length_append, length_le_bytes, IH. simpl. reflexivity.
Qed.

(** A slice of [n * w] bytes splits into [n] chunks of [w] bytes. *)
Lemma chunks_exact (w n : nat) : forall s : string,
  String.length s = n * w ->
  length (chunks w n s) = n /\
  Forall (fun c => String.length c = w) (chunks w n s) /\
  concat_bytes (chunks w n s) = s.
Proof.
  induction n as [|n IH]; intros s Hs.
  - simpl in *. destruct s; [|discriminate]. repeat split. constructor.
  - cbn [chunks].
    destruct (read_n w s) as [[a r]|] eqn:Hr.
    + destruct (read_n_Some _ _ _ _ Hr) as [Ha ->].
      rewrite length_append in Hs.
      destruct (IH r) as (Hl & Hall & Hc); [simpl in Hs; lia|].
      repeat split.
      * simpl. rewrite Hl. reflexivity.
      * constructor; assumption.
      * cbn [concat_bytes foldr]. fold (concat_bytes (chunks w n r)).
        rewrite Hc. reflexivity.
    + exfalso. revert Hr. assert (Hle : w <= String.length s) by (simpl in Hs; lia).
      clear -Hle. revert s Hle.
      induction w as [|w IHw]; intros s Hle; simpl; [discriminate|].
      destruct s as [|c s]; [simpl in Hle; lia|].
      simpl in Hle. specialize (IHw s ltac:(lia)).
      destruct (read_n w s) as [[a r]|]; [discriminate | contradiction].
Qed.

Lemma copyToTensor_tstring_round_trip (values : list string) :
  Forall (representable tstring) values ->
  exists slice, assignSlice_tstring values = Done slice /\
                copyToTensor_tstring slice (length values) = Done values.
Proof.
  induction values as [|s values IH]; intros Hall.
  - exists EmptyString. split; reflexivity.
  - apply Forall_cons in Hall as [Hs Hall]. simpl in Hs.
    destruct (IH Hall) as (rest & Henc & Hdec).
    cbn [assignSlice_tstring]. rewrite Henc.
    destruct (Z.ltb_spec UINT32_MAX (Z.of_nat (String.length s))); [lia|].
    eexists. split; [reflexivity|].
    cbn [length copyToTensor_tstring].
    pose proof (read_n_app (le_bytes 4 (Z.of_nat (String.length s)))
                  (s ++ rest)%string) as H4.
    rewrite length_le_bytes in H4. rewrite H4.
    rewrite le_value_le_bytes_small by (unfold UINT32_MAX in *; simpl; lia).
    rewrite read_n_app, Hdec. reflexivity.
Qed.

Lemma assignSlice_n_decodes (T : ElemType) (values : list T) :
  Forall (representable T) values ->
  exists slice, assignSlice_n T values = Done slice /\
                copyToTensor T slice (length values) = Done values.
Proof.
  destruct T as [dt w|]; [|apply copyToTensor_tstring_round_trip].
  intros Hall. eexists. split; [reflexivity|].
  cbn [copyToTensor]. unfold copyToTensor_fixed.
  rewrite concat_bytes_length_fixed, Nat.eqb_refl. cbn [negb].
  rewrite chunks_concat, map_map. f_equal.
  induction Hall as [|z values [Hw Hz] _ IH]; [reflexivity|].
  cbn [map]. rewrite to_signed_le_bytes by assumption. f_equal. exact IH.
Qed.

(** X1.  Round trip of the value codec, for every element type: a run of
    representable values is encoded without a throw, and decoding the slice
    for as many values gives the run back. *)
Theorem codec_round_trip (T : ElemType) (values : list T) :
  Forall (representable T) values ->
  exists slice, assignSlice_n T values = Done slice /\
                copyToTensor T slice (length values) = Done values.
Proof. apply assignSlice_n_decodes. Qed.

(** Witness of [codec_round_trip]: the row 1, 2, 3 of [int32] values. *)
Lemma codec_round_trip_witness :
  assignSlice_n int32 [1; 2; 3]%Z = Done row_123 /\
  copyToTensor int32 row_123 3 = Done [1; 2; 3]%Z.
Proof.
  assert (Hall : Forall (representable int32) [1; 2; 3]%Z).
  { repeat constructor; vm_compute; discriminate. }
  destruct (codec_round_trip int32 [1; 2; 3]%Z Hall) as (slice & Henc & Hdec).
  assert (Hs : slice = row_123) by (injection Henc as <-; reflexivity).
  subst slice. split; [reflexivity | exact Hdec].
Defined.

Lemma copyToTensor_tstring_exact (n : nat) : forall (slice : string) (l : list string),
  copyToTensor_tstring slice n = Done l ->
  length l = n /\ assignSlice_tstring l = Done slice.
Proof.
  induction n as [|n IH]; intros slice l H; cbn [copyToTensor_tstring] in H.
  - destruct slice; simpl in H; [|discriminate].
    injection H as <-. split; reflexivity.
  - destruct (read_n 4 slice) as [[lenb src1]|] eqn:H4; [|discriminate].
    destruct (read_n (Z.to_nat (le_value lenb)) src1) as [[elt src2]|] eqn:He;
      [|discriminate].
    apply bind_Done in H as (rest & Hrest & H). injection H as <-.
    destruct (IH _ _ Hrest) as [Hl Henc].
    destruct (read_n_Some _ _ _ _ H4) as [Hlen4 ->].
    destruct (read_n_Some _ _ _ _ He) as [Hlene ->].
    split; [simpl; rewrite Hl; reflexivity|].
    cbn [assignSlice_tstring]. rewrite Henc, Hlene.
    pose proof (le_value_bound lenb) as Hb. rewrite Hlen4 in Hb.
    rewrite Z2Nat.id by lia.
    destruct (Z.ltb_spec UINT32_MAX (le_value lenb)) as [Hbig|_].
    { unfold UINT32_MAX in Hbig. simpl in Hb. lia. }
    cbn [bind]. rewrite <- Hlen4 at 1. rewrite le_bytes_le_value.
    reflexivity.
Qed.

(** X2.  A slice that [copyToTensor] accepts is exactly the stored form of
    what it returns: the result has [numValues] elements, and encoding it
    gives the slice back, byte for byte (no trailing or missing bytes are
    tolerated). *)
Theorem copyToTensor_exact (T : ElemType) (slice : string) (numValues : nat)
  (l : list T) :
  copyToTensor T slice numValues = Done l ->
  length l = numValues /\ assignSlice_n T l = Done slice.
Proof.
  destruct T as [dt w|]; [|apply copyToTensor_tstring_exact].
  cbn [copyToTensor assignSlice_n]. unfold copyToTensor_fixed.
  destruct (Nat.eqb_spec (String.length slice) (numValues * w)) as [Hs|];
    [|discriminate].
  cbn [negb]. intros [= <-].
  destruct (chunks_exact w numValues slice Hs) as (Hl & Hall & Hc).
  split; [rewrite length_map; exact Hl|].
  f_equal. rewrite map_map. rewrite <- Hc at 2. f_equal.
  clear -Hall. induction Hall as [|c cs Hc _ IH]; [reflexivity|].
  cbn [map]. rewrite le_bytes_to_signed by assumption. f_equal. exact IH.
Qed.

(** Witness of [copyToTensor_exact]. *)
Lemma copyToTensor_exact_witness :
  copyToTensor int32 row_123 3 = Done [1; 2; 3]%Z /\
  assignSlice_n int32 [1; 2; 3]%Z = Done row_123.
Proof.
  assert (Hdec : copyToTensor int32 row_123 3 = Done [1; 2; 3]%Z)
    by (vm_compute; reflexivity).
  split; [exact Hdec|].
  exact (proj2 (copyToTensor_exact int32 row_123 3 [1; 2; 3]%Z Hdec)).
Defined.

(** X3.  For a fixed-width type [copyToTensor] succeeds exactly when the
    slice is [numValues * sizeof(T)] bytes long, and then returns
    [numValues] elements; any other length makes it throw, with nothing
    copied. *)
Theorem copyToTensor_fixed_size (dt : DataType) (w : nat) (slice : string)
  (numValues : nat) :
  (String.length slice = numValues * w ->
   exists l, copyToTensor (fixed_width dt w) slice numValues = Done l /\
             length l = numValues) /\
  (String.length slice <> numValues * w ->
   copyToTensor (fixed_width dt w) slice numValues
   = Throw (UnexpectedSliceSize (numValues * w) (String.length slice))).
Proof.
  cbn [copyToTensor]. unfold copyToTensor_fixed. split; intros Hs.
  - rewrite Hs, Nat.eqb_refl. cbn [negb]. eexists. split; [reflexivity|].
    rewrite length_map. apply chunks_exact. exact Hs.
  - apply Nat.eqb_neq in Hs. rewrite Hs. reflexivity.
Qed.

(** Witness of [copyToTensor_fixed_size]: three bytes for one [int32]. *)
Lemma copyToTensor_fixed_size_witness :
  copyToTensor int32 "abc" 1 = Throw (UnexpectedSliceSize 4 3) /\
  exists l, copyToTensor int32 row_123 3 = Done l /\ length l = 3.
Proof.
  destruct (copyToTensor_fixed_size DT_INT32 4 "abc" 1) as [_ Hbad].
  destruct (copyToTensor_fixed_size DT_INT32 4 row_123 3) as [Hgood _].
  split; [apply Hbad; vm_compute; lia | apply Hgood; reflexivity].
Defined.

(** ** The constructor *)

Lemma find_colIndex_found (embeddingName : string) (colFamilies : list string) :
  forall colIndex : nat,
  find_colIndex embeddingName colFamilies true colIndex = colIndex.
Proof. induction colFamilies as [|cf rest IH]; intros colIndex; simpl; auto. Qed.

Lemma find_colIndex_spec (embeddingName : string) (colFamilies : list string) :
  forall base : nat,
  let i := find_colIndex embeddingName colFamilies false base - base in
  base <= find_colIndex embeddingName colFamilies false base /\
  (forall j, j < i -> colFamilies !! j <> Some embeddingName) /\
  (embeddingName ∈ colFamilies -> colFamilies !! i = Some embeddingName) /\
  (embeddingName ∉ colFamilies -> i = length colFamilies).
Proof.
  induction colFamilies as [|cf rest IH]; intros base; cbn zeta.
  - simpl. rewrite Nat.sub_diag.
    split; [lia|]. split; [intros j Hj; lia|].
    split; [intros H; inversion H | reflexivity].
  - cbn [find_colIndex orb].
    destruct (bool_decide_reflect (cf = embeddingName)) as [->|Hne].
    + rewrite find_colIndex_found, Nat.sub_diag.
      split; [lia|]. split; [intros j Hj; lia|].
      split; [reflexivity|].
      intros H. apply not_elem_of_cons in H as [H _]. contradiction.
    + specialize (IH (S base)). cbn zeta in IH.
      destruct IH as (Hle & Hbefore & Hin & Hnotin).
      set (r := find_colIndex embeddingName rest false (S base)) in *.
      replace (r - base) with (S (r - S base)) by lia.
      split; [lia|]. split; [|split].
      * intros [|j] Hj; simpl; [congruence|]. apply Hbefore. lia.
      * intros H. apply elem_of_cons in H as [H|H]; [congruence|].
        simpl. apply Hin. exact H.
      * intros H. apply not_elem_of_cons in H as [_ H].
        simpl. f_equal. apply Hnotin. exact H.
Qed.

Lemma find_colIndex_from_0 (embeddingName : string) (colFamilies : list string) :
  let i := find_colIndex embeddingName colFamilies false 0 in
  (forall j, j < i -> colFamilies !! j <> Some embeddingName) /\
  (embeddingName ∈ colFamilies ->
   colFamilies !! i = Some embeddingName /\ i < length colFamilies) /\
  (embeddingName ∉ colFamilies -> i = length colFamilies).
Proof.
  pose proof (find_colIndex_spec embeddingName colFamilies 0) as H.
  cbn zeta in *. rewrite Nat.sub_0_r in H.
  destruct H as (_ & Hbefore & Hin & Hnotin).
  split; [exact Hbefore|]. split; [|exact Hnotin].
  intros H. split; [apply Hin; exact H|].
  eapply lookup_lt_Some. apply Hin. exact H.
Qed.

(** X4.  The constructor's [colIndex] is the position of the first column
    family named [embeddingName], and the number of column families when
    there is none; so the column family counts as present exactly when the
    store has one of that name. *)
Theorem find_colIndex_first (embeddingName : string) (colFamilies : list string) :
  let i := find_colIndex embeddingName colFamilies false 0 in
  (forall j, j < i -> colFamilies !! j <> Some embeddingName) /\
  (embeddingName ∈ colFamilies ->
   colFamilies !! i = Some embeddingName /\ i < length colFamilies) /\
  (embeddingName ∉ colFamilies -> i = length colFamilies).
Proof. apply find_colIndex_from_0. Qed.

Lemma Open_lookup (stored : list (string * gmap string string)) (h : nat) :
  families (Open stored).1 !! h = stored.*2 !! h.
Proof.
  simpl. rewrite lookup_map_seq_0. reflexivity.
Qed.

(** X5.  A freshly constructed table satisfies the invariant, with distinct
    handles; its column family is present exactly when the store holds one
    named [embeddingName], and then its records are those of the first such
    column family. *)
Theorem construct_invariant (read_only : bool) (embeddingName : string)
  (stored : list (string * gmap string string)) :
  let t := construct read_only embeddingName stored in
  table_inv t /\
  (namespace_present t = true <-> embeddingName ∈ stored.*1) /\
  (forall cf,
     namespace_records t = Some cf ->
     stored !! colIndex t = Some (embeddingName, cf)).
Proof.
  cbn zeta.
  pose proof (find_colIndex_from_0 embeddingName stored.*1) as Hfirst.
  cbn zeta in Hfirst. destruct Hfirst as (Hbefore & Hin & Hnotin).
  set (i := find_colIndex embeddingName stored.*1 false 0) in *.
  assert (Hle : i <= length stored).
  { destruct (decide (embeddingName ∈ stored.*1)) as [H|H].
    - destruct (Hin H) as [_ Hlt]. rewrite length_fmap in Hlt. lia.
    - rewrite (Hnotin H), length_fmap. lia. }
  unfold table_inv, table_wf. cbn [db colHandles colIndex construct].
  split; [split; [split; [|split]|]|split; [split|]].
  - simpl. rewrite length_seq. exact Hle.
  - intros h Hh. simpl in Hh. apply elem_of_seq in Hh.
    rewrite Open_lookup. apply lookup_lt_is_Some. rewrite length_fmap. lia.
  - intros h Hh. rewrite Open_lookup in Hh.
    apply lookup_lt_is_Some in Hh. rewrite length_fmap in Hh. simpl. lia.
  - simpl. apply NoDup_seq.
  - unfold namespace_present. simpl. rewrite length_seq. fold i.
    intros Hlt. apply Nat.ltb_lt in Hlt.
    destruct (decide (embeddingName ∈ stored.*1)) as [H|H]; [exact H|].
    rewrite (Hnotin H), length_fmap in Hlt. lia.
  - unfold namespace_present. simpl. rewrite length_seq. fold i.
    intros H. apply Nat.ltb_lt. destruct (Hin H) as [_ Hlt].
    rewrite length_fmap in Hlt. exact Hlt.
  - intros cf Hrec. unfold namespace_records in Hrec.
    cbn [colHandles colIndex construct db Open fst snd] in *. fold i in Hrec |- *.
    destruct (seq 0 (length stored) !! i) as [h|] eqn:Hh; [|discriminate].
    apply lookup_seq in Hh as [-> Hlt]. simpl in Hrec.
    rewrite lookup_map_seq_0 in Hrec.
    assert (Hname : stored.*1 !! i = Some embeddingName).
    { destruct (decide (embeddingName ∈ stored.*1)) as [H|H];
        [apply Hin; exact H|].
      rewrite (Hnotin H), length_fmap in Hlt. lia. }
    rewrite list_lookup_fmap in Hname. rewrite list_lookup_fmap in Hrec.
    destruct (stored !! i) as [[name cf']|]; [|discriminate].
    simpl in *. congruence.
Qed.

(** ** The invariant and the other column families *)

Lemma touches_only_refl (h : nat) (s : DB) : touches_only h s s.
Proof. repeat split; auto. Qed.

Lemma touches_only_trans (h : nat) (s1 s2 s3 : DB) :
  touches_only h s1 s2 -> touches_only h s2 s3 -> touches_only h s1 s3.
Proof.
  intros (Hn1 & Hl1 & Hf1) (Hn2 & Hl2 & Hf2). split; [congruence|]. split.
  - rewrite Hl2. exact Hl1.
  - intros h' Hne. rewrite Hf2, Hf1 by assumption. reflexivity.
Qed.

Lemma apply_op_touches (h : nat) (s s' : DB) (op : batch_op) :
  on_family h op -> apply_op s op = Done s' -> touches_only h s s'.
Proof.
  intros Hop H.
  destruct op as [h0 k v|h0 k]; simpl in Hop; subst h0; simpl in H;
    destruct (families s !! h) as [cf|] eqn:Hcf; try discriminate;
    injection H as <-; (split; [reflexivity|]); simpl;
    (split; [rewrite lookup_insert_eq; split; eauto
            | intros h' Hne; rewrite lookup_insert_ne by congruence; reflexivity]).
Qed.

Lemma Write_touches (h : nat) (batch : list batch_op) : forall s s' : DB,
  Forall (on_family h) batch -> Write s batch = Done s' -> touches_only h s s'.
Proof.
  induction batch as [|op batch IH]; intros s s' Hall H; simpl in H.
  - injection H as <-. apply touches_only_refl.
  - apply Forall_cons in Hall as [Hop Hall].
    apply bind_Done in H as (s1 & H1 & H).
    eapply touches_only_trans; [eapply apply_op_touches | eapply IH]; eassumption.
Qed.

Lemma Insert_point_touches (K V : ElemType) (h : nat) (vpd : nat) (n : nat) :
  forall (s s' : DB) (k : Z) (v : list V),
  Insert_point K V s h k v n vpd = Done s' -> touches_only h s s'.
Proof.
  induction n as [|n IH]; intros s s' k v H; simpl in H.
  - injection H as <-. apply touches_only_refl.
  - apply bind_Done in H as (vSlice & _ & H).
    apply bind_Done in H as (s1 & H1 & H).
    eapply touches_only_trans; [|eapply IH; eassumption].
    eapply (apply_op_touches h); [|exact H1]. reflexivity.
Qed.

Lemma Insert_fill_on_family (K V : ElemType) (h : nat) (vpd : nat) (n : nat) :
  forall (batch batch' : list batch_op) (k : Z) (v : list V),
  Forall (on_family h) batch ->
  Insert_fill K V batch h k v n vpd = Done batch' ->
  Forall (on_family h) batch'.
Proof.
  induction n as [|n IH]; intros batch batch' k v Hall H; simpl in H.
  - injection H as <-. exact Hall.
  - apply bind_Done in H as (vSlice & _ & H).
    eapply IH; [|exact H]. apply Forall_app. split; [exact Hall|].
    constructor; [reflexivity | constructor].
Qed.

Lemma Insert_batch_touches (K V : ElemType) (h : nat) (vpd n : nat)
  (s s' : DB) (k : Z) (v : list V) :
  Insert_batch K V s h k v n vpd = Done s' -> touches_only h s s'.
Proof.
  unfold Insert_batch. intros H. apply bind_Done in H as (batch & Hb & H).
  eapply Write_touches; [|exact H].
  eapply Insert_fill_on_family; [|exact Hb]. constructor.
Qed.

Lemma Remove_point_touches (K : ElemType) (h : nat) (n : nat) :
  forall (s s' : DB) (k : Z),
  Remove_point K s h k n = Done s' -> touches_only h s s'.
Proof.
  induction n as [|n IH]; intros s s' k H; simpl in H.
  - injection H as <-. apply touches_only_refl.
  - apply bind_Done in H as (s1 & H1 & H).
    eapply touches_only_trans; [|eapply IH; eassumption].
    eapply (apply_op_touches h); [|exact H1]. reflexivity.
Qed.

Lemma Remove_fill_on_family (K : ElemType) (h : nat) (n : nat) :
  forall (batch : list batch_op) (k : Z),
  Forall (on_family h) batch ->
  Forall (on_family h) (Remove_fill K batch h k n).
Proof.
  induction n as [|n IH]; intros batch k Hall; simpl; [assumption|].
  apply IH. apply Forall_app. split; [assumption|].
  constructor; [reflexivity | constructor].
Qed.

Lemma Remove_batch_touches (K : ElemType) (h : nat) (n : nat) (s s' : DB) (k : Z) :
  Remove_batch K s h k n = Done s' -> touches_only h s s'.
Proof.
  unfold Remove_batch. apply Write_touches.
  apply Remove_fill_on_family. constructor.
Qed.

Lemma import_loop_touches (fuel : nat) :
  forall (file : ifstream) (batch : list batch_op) (s s' : DB) (h : nat) (c : Code),
  Forall (on_family h) batch ->
  import_loop fuel file batch s h = Done (c, s') -> touches_only h s s'.
Proof.
  induction fuel as [|fuel IH]; intros file batch s s' h c Hall H;
    cbn [import_loop] in H; [discriminate|].
  destruct (eofbit file).
  { destruct (negb _).
    - apply bind_Done in H as (s1 & H1 & H). injection H as _ <-.
      eapply Write_touches; eassumption.
    - injection H as _ <-. apply touches_only_refl. }
  destruct (ifstream_read 1 file) as [[kSize|] f1];
    [|injection H as _ <-; apply touches_only_refl].
  destruct (ifstream_read _ f1) as [[k|] f2];
    [|injection H as _ <-; apply touches_only_refl].
  destruct (ifstream_read 4 f2) as [[vSize|] f3];
    [|injection H as _ <-; apply touches_only_refl].
  destruct (ifstream_read _ f3) as [[v|] f4];
    [|injection H as _ <-; apply touches_only_refl].
  assert (Hall' : Forall (on_family h) (batch ++ [BatchPut h k v])).
  { apply Forall_app. split; [exact Hall|]. constructor; [reflexivity|constructor]. }
  destruct (_ =? 0).
  - apply bind_Done in H as (s1 & H1 & H).
    eapply touches_only_trans; [eapply Write_touches; eassumption|].
    eapply IH; [|exact H]. constructor.
  - eapply IH; eassumption.
Qed.

(** Writing to the table's own column family keeps the invariant and the
    other column families. *)
Lemma set_db_keeps (t : RocksDBTableOfTensors) (h : nat) (s : DB) :
  table_inv t -> touches_only h (db t) s ->
  table_inv (set_db t s) /\
  (forall h' cf, families (db t) !! h' = Some cf -> h' <> h ->
                 families s !! h' = Some cf).
Proof.
  intros [(Hle & Hlive & Hfresh) Hnd] (Hn & Hl & Hf). split.
  - split; [|exact Hnd]. split; [exact Hle|]. split.
    + intros h' Hh'. simpl. destruct (decide (h' = h)) as [->|Hne].
      * apply Hl. apply Hlive. exact Hh'.
      * rewrite Hf by exact Hne. apply Hlive. exact Hh'.
    + intros h' Hh'. simpl in *. rewrite Hn. apply Hfresh.
      destruct (decide (h' = h)) as [->|Hne].
      * apply Hl. exact Hh'.
      * rewrite <- Hf by exact Hne. exact Hh'.
  - intros h' cf Hcf Hne. rewrite Hf by exact Hne. exact Hcf.
Qed.

(** What [GetOrCreateColumnHandle] returns and leaves behind. *)
Lemma GetOrCreateColumnHandle_keeps (t t' : RocksDBTableOfTensors) (o : option nat) :
  table_inv t -> GetOrCreateColumnHandle t = Done (o, t') ->
  table_inv t' /\
  readOnly t' = readOnly t /\
  (forall h' cf, families (db t) !! h' = Some cf ->
                 families (db t') !! h' = Some cf) /\
  (forall h, o = Some h ->
     own_handle t' = Some h /\
     forall h', is_Some (families (db t) !! h') -> own_handle t <> Some h' ->
                h' <> h).
Proof.
  intros [Hwf Hnd] H. pose proof Hwf as (Hle & Hlive & Hfresh).
  destruct (namespace_present t) eqn:Hp.
  - destruct (namespace_present_lookup t Hp) as [h Hh].
    rewrite (GetOrCreateColumnHandle_present t h Hp Hh) in H.
    injection H as <- <-.
    split; [split; assumption|]. split; [simpl; congruence|].
    split; [auto|].
    intros h0 [= <-]. split; [exact Hh|].
    intros h' _ Hown ->. apply Hown. exact Hh.
  - destruct (readOnly t) eqn:Hro.
    + rewrite (GetOrCreateColumnHandle_read_only_absent t Hro Hp) in H.
      injection H as <- <-.
      split; [split; assumption|]. split; [simpl; congruence|].
      split; [auto|]. intros h0 [=].
    + rewrite (GetOrCreateColumnHandle_creates t Hro Hp Hle) in H.
      injection H as <- <-.
      assert (Habs : colIndex t = length (colHandles t)).
      { unfold namespace_present in Hp. apply Nat.ltb_ge in Hp. lia. }
      split; [split|].
      * split; [simpl; rewrite length_app; simpl; lia|]. split.
        -- intros h' Hh'. simpl in Hh' |- *.
           apply elem_of_app in Hh' as [Hh'|Hh'].
           ++ rewrite lookup_insert_ne; [apply Hlive; exact Hh'|].
              specialize (Hfresh h' (Hlive h' Hh')). lia.
           ++ apply list_elem_of_singleton in Hh' as ->.
              rewrite lookup_insert_eq. eauto.
        -- intros h' Hh'. simpl in Hh' |- *.
           destruct (decide (h' = next_handle (db t))) as [->|Hne]; [lia|].
           rewrite lookup_insert_ne in Hh' by congruence.
           specialize (Hfresh h' Hh'). lia.
      * simpl. apply NoDup_app. split; [exact Hnd|]. split.
        -- intros h' Hh' Hin. apply list_elem_of_singleton in Hin as ->.
           specialize (Hfresh _ (Hlive _ Hh')). lia.
        -- apply NoDup_singleton.
      * split; [simpl; congruence|]. split.
        -- intros h' cf. apply created_family_frame. exact Hwf.
        -- intros h0 [= <-]. split.
           ++ unfold own_handle. simpl.
              rewrite Habs, lookup_app_r, Nat.sub_diag by lia. reflexivity.
           ++ intros h' Hh' _ ->. specialize (Hfresh _ Hh'). lia.
Qed.

(** What a successful or refused [Clear] leaves behind. *)
Lemma Clear_keeps (t t' : RocksDBTableOfTensors) (c : Code) :
  table_inv t -> Clear t = Done (c, t') ->
  table_inv t' /\ readOnly t' = readOnly t /\ others_kept t t'.
Proof.
  intros [Hwf Hnd] H. pose proof Hwf as (Hle & Hlive & Hfresh).
  unfold Clear in H. simpl in H.
  destruct (colIndex t <? length (colHandles t)) eqn:Hp.
  2:{ injection H as _ <-. split; [split; assumption|].
      split; [simpl; congruence|]. intros h' cf Hcf _. exact Hcf. }
  destruct (readOnly t) eqn:Hro.
  { injection H as _ <-. split; [split; assumption|].
    split; [simpl; congruence|]. intros h' cf Hcf _. exact Hcf. }
  destruct (colHandles t !! colIndex t) as [h|] eqn:Hh; [|discriminate].
  unfold DropColumnFamily in H.
  destruct (families (db t) !! h) eqn:Hcf; [|discriminate].
  destruct (bool_decide (h = default_family (db t))); [discriminate|].
  simpl in H. injection H as _ <-.
  pose proof (take_drop_middle _ _ _ Hh) as Hsplit.
  rewrite <- Hsplit in Hnd.
  apply NoDup_app in Hnd as (Hnd1 & Hdisj & Hnd2).
  apply NoDup_cons in Hnd2 as [Hnotin Hnd2].
  assert (Hdel : forall x, x ∈ delete (colIndex t) (colHandles t) ->
                           x ∈ colHandles t /\ x <> h).
  { intros x Hx. rewrite delete_take_drop in Hx.
    apply elem_of_app in Hx as [Hx|Hx].
    - split.
      + rewrite <- Hsplit. apply elem_of_app. left. exact Hx.
      + intros ->. apply (Hdisj h Hx). left.
    - split.
      + rewrite <- Hsplit. apply elem_of_app. right. right. exact Hx.
      + intros ->. contradiction. }
  split; [split|].
  - split; [simpl; lia|]. split.
    + intros x Hx. simpl in Hx |- *. destruct (Hdel x Hx) as [Hin Hne].
      rewrite lookup_delete_ne by congruence. apply Hlive. exact Hin.
    + intros x Hx. simpl in Hx |- *.
      destruct (decide (x = h)) as [->|Hne].
      * rewrite lookup_delete_eq in Hx. destruct Hx; discriminate.
      * rewrite lookup_delete_ne in Hx by congruence. apply Hfresh. exact Hx.
  - simpl. rewrite delete_take_drop. apply NoDup_app.
    split; [exact Hnd1|]. split; [|exact Hnd2].
    intros x Hx Hx'. apply (Hdisj x Hx). right. exact Hx'.
  - split; [simpl; congruence|].
    intros h' cf Hcf' Hown. simpl.
    rewrite lookup_delete_ne; [exact Hcf'|].
    intros ->. apply Hown. exact Hh.
Qed.

Section Keeps.

Context (K V : ElemType).
Variable t : RocksDBTableOfTensors.
Hypothesis Hinv : table_inv t.

(** A write to the handle [GetOrCreateColumnHandle] returned. *)
Lemma written_keeps (t1 : RocksDBTableOfTensors) (h : nat) (s : DB) :
  GetOrCreateColumnHandle t = Done (Some h, t1) ->
  touches_only h (db t1) s ->
  table_inv (set_db t1 s) /\ others_kept t (set_db t1 s).
Proof.
  intros HG Ht.
  destruct (GetOrCreateColumnHandle_keeps t t1 (Some h) Hinv HG)
    as (Hinv1 & _ & Hframe & Hown).
  destruct (Hown h eq_refl) as [_ Hne].
  destruct (set_db_keeps t1 h s Hinv1 Ht) as [Hinv' Hother].
  split; [exact Hinv'|].
  intros h' cf Hcf Hnot. simpl. apply Hother; [apply Hframe; exact Hcf|].
  apply Hne; eauto.
Qed.

Lemma unwritten_keeps (t1 : RocksDBTableOfTensors) (o : option nat) :
  GetOrCreateColumnHandle t = Done (o, t1) ->
  table_inv t1 /\ others_kept t t1.
Proof.
  intros HG.
  destruct (GetOrCreateColumnHandle_keeps t t1 o Hinv HG)
    as (Hinv1 & _ & Hframe & _).
  split; [exact Hinv1|]. intros h' cf Hcf _. apply Hframe. exact Hcf.
Qed.

Lemma same_keeps : table_inv t /\ others_kept t t.
Proof. split; [exact Hinv|]. intros h' cf Hcf _. exact Hcf. Qed.

Lemma Insert_keeps (keys : Tensor K) (values : Tensor V) (c : Code)
  (t' : RocksDBTableOfTensors) :
  Insert K V t keys values = Done (c, t') ->
  table_inv t' /\ others_kept t t'.
Proof.
  unfold Insert.
  destruct (_ || _); [intros [= _ <-]; apply same_keeps|].
  intros H. apply bind_Done in H as ([o t1] & HG & H).
  destruct o as [h|]; [|injection H as _ <-; eapply unwritten_keeps; eassumption].
  destruct (readOnly t1);
    [injection H as _ <-; eapply unwritten_keeps; eassumption|].
  destruct (negb _);
    [injection H as _ <-; eapply unwritten_keeps; eassumption|].
  destruct (_ =? 0); [discriminate|].
  destruct (_ <? _); apply bind_Done in H as (s & Hs & H);
    injection H as _ <-; eapply written_keeps; try eassumption.
  - eapply Insert_point_touches. exact Hs.
  - eapply Insert_batch_touches. exact Hs.
Qed.

Lemma Remove_keeps (keys : Tensor K) (c : Code) (t' : RocksDBTableOfTensors) :
  Remove K t keys = Done (c, t') ->
  table_inv t' /\ others_kept t t'.
Proof.
  unfold Remove.
  destruct (negb _); [intros [= _ <-]; apply same_keeps|].
  intros H. apply bind_Done in H as ([o t1] & HG & H).
  destruct o as [h|]; [|injection H as _ <-; eapply unwritten_keeps; eassumption].
  destruct (readOnly t1);
    [injection H as _ <-; eapply unwritten_keeps; eassumption|].
  destruct (_ <? _); apply bind_Done in H as (s & Hs & H);
    injection H as _ <-; eapply written_keeps; try eassumption.
  - eapply Remove_point_touches. exact Hs.
  - eapply Remove_batch_touches. exact Hs.
Qed.

Lemma Find_keeps (keys : Tensor K) (values default_value : Tensor V) (c : Code)
  (v : list V) (t' : RocksDBTableOfTensors) :
  Find K V t keys values default_value = Done (c, v, t') ->
  table_inv t' /\ others_kept t t'.
Proof.
  unfold Find.
  destruct (_ || _); [intros [= _ _ <-]; apply same_keeps|].
  intros H. apply bind_Done in H as ([o t1] & HG & H).
  destruct (negb _);
    [injection H as _ _ <-; eapply unwritten_keeps; eassumption|].
  destruct (_ =? 0); [discriminate|].
  destruct (_ =? 0); [discriminate|].
  destruct (negb _);
    [injection H as _ _ <-; eapply unwritten_keeps; eassumption|].
  destruct (_ <? _).
  - apply bind_Done in H as (v' & _ & H). injection H as _ _ <-.
    eapply unwritten_keeps; eassumption.
  - apply bind_Done in H as ([v' t2] & Hb & H). injection H as _ _ <-.
    unfold Find_batch in Hb.
    apply bind_Done in Hb as (kSlices & _ & Hb).
    apply bind_Done in Hb as (statuses & _ & Hb).
    destruct (negb _); [discriminate|].
    apply bind_Done in Hb as (v2 & _ & Hb). injection Hb as _ <-.
    exact (unwritten_keeps t1 o HG).
Qed.

Lemma ExportValues_keeps (fs fs' : FileSystem) (c : Code)
  (t' : RocksDBTableOfTensors) :
  ExportValues t fs = Done (c, t', fs') ->
  table_inv t' /\ others_kept t t'.
Proof.
  unfold ExportValues.
  destruct (negb _); [intros [= _ <- _]; apply same_keeps|].
  intros H. apply bind_Done in H as ([o t1] & HG & H).
  apply bind_Done in H as (iter & _ & H).
  apply bind_Done in H as (file & _ & H). injection H as _ <- _.
  eapply unwritten_keeps; eassumption.
Qed.

End Keeps.

Lemma ImportValues_keeps (t t' : RocksDBTableOfTensors) (fs : FileSystem) (c : Code) :
  table_inv t -> ImportValues t fs = Done (c, t') ->
  table_inv t' /\ others_kept t t'.
Proof.
  intros Hinv H. unfold ImportValues in H.
  apply bind_Done in H as ([clearStatus t1] & Hclear & H).
  destruct (Clear_keeps t t1 clearStatus Hinv Hclear) as (Hinv1 & _ & Hkept1).
  destruct (bool_decide_reflect (clearStatus = OK)) as [->|_]; cbn [negb] in H;
    [|injection H as _ <-; split; assumption].
  destruct (dump fs) as [content|]; [|injection H as _ <-; split; assumption].
  cbv zeta in H.
  destruct (ifstream_read 4 _) as [[magic|] f1];
    [|injection H as _ <-; split; assumption].
  destruct (ifstream_read 4 f1) as [[version|] f2];
    [|injection H as _ <-; split; assumption].
  destruct (_ || _); [injection H as _ <-; split; assumption|].
  apply bind_Done in H as ([o t2] & HG & H).
  assert (Hstep : forall t3, table_inv t3 /\ others_kept t1 t3 ->
                             table_inv t3 /\ others_kept t t3).
  { intros t3 [Hinv3 Hkept3]. split; [exact Hinv3|].
    intros h' cf Hcf Hown. apply Hkept3; [apply Hkept1; assumption|].
    destruct (Clear_OK_absent t t1 Hclear) as [Hp _].
    unfold own_handle. unfold namespace_present in Hp. apply Nat.ltb_ge in Hp.
    rewrite lookup_ge_None_2 by lia. discriminate. }
  apply Hstep.
  destruct o as [h|];
    [|injection H as _ <-; eapply unwritten_keeps; eassumption].
  destruct (readOnly t2);
    [injection H as _ <-; eapply unwritten_keeps; eassumption|].
  apply bind_Done in H as ([status s] & Hloop & H). injection H as _ <-.
  eapply written_keeps; try eassumption.
  eapply import_loop_touches; [|exact Hloop]. constructor.
Qed.

(** X6.  Every method keeps the invariant of the table state: whenever
    [Clear], [Insert], [Remove], [Find], [ExportValues] or [ImportValues]
    returns, with whatever status, [colIndex] is still at most the number of
    open handles, the handles are distinct and each names a live column
    family. *)
Theorem invariant_kept (t : RocksDBTableOfTensors) :
  table_inv t ->
  (forall c t', Clear t = Done (c, t') -> table_inv t') /\
  (forall (K V : ElemType) (keys : Tensor K) (values : Tensor V) c t',
     Insert K V t keys values = Done (c, t') -> table_inv t') /\
  (forall (K : ElemType) (keys : Tensor K) c t',
     Remove K t keys = Done (c, t') -> table_inv t') /\
  (forall (K V : ElemType) (keys : Tensor K) (values default_value : Tensor V)
          c v t',
     Find K V t keys values default_value = Done (c, v, t') -> table_inv t') /\
  (forall fs c t' fs', ExportValues t fs = Done (c, t', fs') -> table_inv t') /\
  (forall fs c t', ImportValues t fs = Done (c, t') -> table_inv t').
Proof.
  intros Hinv. repeat apply conj.
  - intros c t' H. exact (proj1 (Clear_keeps t t' c Hinv H)).
  - intros K V keys values c t' H.
    exact (proj1 (Insert_keeps K V t Hinv keys values c t' H)).
  - intros K keys c t' H. exact (proj1 (Remove_keeps K t Hinv keys c t' H)).
  - intros K V keys values default_value c v t' H.
    exact (proj1 (Find_keeps K V t Hinv keys values default_value c v t' H)).
  - intros fs c t' fs' H. exact (proj1 (ExportValues_keeps t Hinv fs fs' c t' H)).
  - intros fs c t' H. exact (proj1 (ImportValues_keeps t t' fs c Hinv H)).
Qed.

(** X7.  No method touches another table's records: whenever [Clear],
    [Insert], [Remove], [Find], [ExportValues] or [ImportValues] returns,
    every column family of the store other than the table's own still holds
    the records it held before. *)
Theorem other_families_untouched (t : RocksDBTableOfTensors) :
  table_inv t ->
  (forall c t', Clear t = Done (c, t') -> others_kept t t') /\
  (forall (K V : ElemType) (keys : Tensor K) (values : Tensor V) c t',
     Insert K V t keys values = Done (c, t') -> others_kept t t') /\
  (forall (K : ElemType) (keys : Tensor K) c t',
     Remove K t keys = Done (c, t') -> others_kept t t') /\
  (forall (K V : ElemType) (keys : Tensor K) (values default_value : Tensor V)
          c v t',
     Find K V t keys values default_value = Done (c, v, t') -> others_kept t t') /\
  (forall fs c t' fs', ExportValues t fs = Done (c, t', fs') -> others_kept t t') /\
  (forall fs c t', ImportValues t fs = Done (c, t') -> others_kept t t').
Proof.
  intros Hinv. repeat apply conj.
  - intros c t' H. exact (proj2 (proj2 (Clear_keeps t t' c Hinv H))).
  - intros K V keys values c t' H.
    exact (proj2 (Insert_keeps K V t Hinv keys values c t' H)).
  - intros K keys c t' H. exact (proj2 (Remove_keeps K t Hinv keys c t' H)).
  - intros K V keys values default_value c v t' H.
    exact (proj2 (Find_keeps K V t Hinv keys values default_value c v t' H)).
  - intros fs c t' fs' H. exact (proj2 (ExportValues_keeps t Hinv fs fs' c t' H)).
  - intros fs c t' H. exact (proj2 (ImportValues_keeps t t' fs c Hinv H)).
Qed.

Lemma table_one_record_inv : table_inv (table_one_record false).
Proof.
  split; [apply table_one_record_wf|].
  apply (bool_decide_unpack _). vm_compute. exact I.
Qed.

Lemma table_other_family_inv : table_inv table_other_family.
Proof.
  split; [apply table_wfb_wf; vm_compute; reflexivity|].
  apply (bool_decide_unpack _). vm_compute. exact I.
Qed.

(** Witness of [invariant_kept]: an insertion into the table holding
    "k" -> "v". *)
Lemma invariant_kept_witness :
  exists t', Insert int64 int32 (table_one_record false) one_key row_123_values
             = Done (OK, t') /\ table_inv t'.
Proof.
  assert (H : exists t', Insert int64 int32 (table_one_record false) one_key
                           row_123_values = Done (OK, t'))
    by (eexists; vm_compute; reflexivity).
  destruct H as [t' H]. exists t'. split; [exact H|].
  destruct (invariant_kept (table_one_record false) table_one_record_inv)
    as (_ & Hinsert & _).
  exact (Hinsert int64 int32 one_key row_123_values OK t' H).
Defined.

(** Witness of [other_families_untouched]: after an insertion into the
    table, the store's other column family still holds its row. *)
Lemma other_families_untouched_witness :
  exists t', Insert int64 int32 table_other_family one_key row_123_values
             = Done (OK, t') /\
             families (db t') !! 0 = Some {[le_bytes 8 7 := row_123]}.
Proof.
  assert (H : exists t', Insert int64 int32 table_other_family one_key
                           row_123_values = Done (OK, t'))
    by (eexists; vm_compute; reflexivity).
  destruct H as [t' H]. exists t'. split; [exact H|].
  destruct (other_families_untouched table_other_family table_other_family_inv)
    as (_ & Hinsert & _).
  apply (Hinsert int64 int32 one_key row_123_values OK t' H).
  - vm_compute. reflexivity.
  - vm_compute. discriminate.
Defined.

(** ** [Clear], twice *)

(** X8.  [Clear] on a read-write table that does not own the store's
    default column family drops exactly the table's own column family and
    can be repeated: the first call returns OK and leaves the table without
    a column family, every other column family as it was; a second call
    returns OK and changes nothing.  (When the table owns the default column
    family the engine refuses the drop and the call throws, see
    [Clear_default_refused].) *)
Theorem Clear_idempotent (t : RocksDBTableOfTensors) :
  readOnly t = false -> table_inv t -> ~ owns_default t ->
  exists t1,
    Clear t = Done (OK, t1) /\
    namespace_present t1 = false /\
    others_kept t t1 /\
    (forall h, own_handle t = Some h -> families (db t1) !! h = None) /\
    Clear t1 = Done (OK, t1).
Proof.
  intros Hrw Hinv Hown. pose proof Hinv as [Hwf Hnd].
  assert (H1 : exists t1, Clear t = Done (OK, t1)).
  { destruct (namespace_present t) eqn:Hp.
    - apply Clear_read_write_present; assumption.
    - eexists. apply Clear_absent. exact Hp. }
  destruct H1 as [t1 H1]. exists t1.
  destruct (Clear_OK_absent t t1 H1) as [Hp1 _].
  destruct (Clear_keeps t t1 OK Hinv H1) as (_ & _ & Hkept).
  split; [exact H1|]. split; [exact Hp1|]. split; [exact Hkept|]. split.
  - intros h Hh. unfold own_handle in Hh.
    unfold Clear in H1. simpl in H1.
    destruct (colIndex t <? length (colHandles t)) eqn:Hp.
    + rewrite Hrw, Hh in H1. unfold DropColumnFamily in H1.
      destruct (families (db t) !! h); [|discriminate].
      destruct (bool_decide (h = default_family (db t))); [discriminate|].
      simpl in H1. injection H1 as <-. simpl. apply lookup_delete_eq.
    + apply Nat.ltb_ge in Hp. apply lookup_lt_Some in Hh. lia.
  - rewrite (Clear_absent t1 Hp1). f_equal. f_equal.
    unfold Clear in H1. simpl in H1.
    destruct (colIndex t <? length (colHandles t)).
    + rewrite Hrw in H1.
      destruct (colHandles t !! colIndex t); [|discriminate].
      destruct (DropColumnFamily (db t) n); simpl in H1; [|discriminate..].
      injection H1 as <-. reflexivity.
    + injection H1 as <-. reflexivity.
Qed.

(** Witness of [Clear_idempotent]. *)
Lemma Clear_idempotent_witness :
  Clear (table_one_record false) = Done (OK, table_one_record_cleared) /\
  Clear table_one_record_cleared = Done (OK, table_one_record_cleared).
Proof.
  assert (Hown : ~ owns_default (table_one_record false))
    by (vm_compute; discriminate).
  destruct (Clear_idempotent (table_one_record false) eq_refl table_one_record_inv
              Hown)
    as (t1 & H1 & _ & _ & _ & H2).
  assert (Hc : Clear (table_one_record false) = Done (OK, table_one_record_cleared))
    by (vm_compute; reflexivity).
  assert (Ht : t1 = table_one_record_cleared) by congruence.
  subst t1. split; assumption.
Defined.

(** ** Insertion, removal and lookup through the same key buffer *)

Lemma key_at_0 (K : ElemType) (k : Z) : key_at K k 0 = assignSlice_pointer k.
Proof. unfold key_at. f_equal. lia. Qed.

Lemma key_at_S (K : ElemType) (k : Z) (i : nat) :
  key_at K (k + Z.of_nat (sizeof K)) i = key_at K k (S i).
Proof. unfold key_at. f_equal. lia. Qed.

(** Pointers to different keys of one buffer have different bytes. *)
Lemma key_at_inj (K : ElemType) (k : Z) (i j : nat) :
  0 < sizeof K -> (Z.of_nat (j * sizeof K) < 2 ^ 64)%Z ->
  i < j -> key_at K k i <> key_at K k j.
Proof.
  intros Hs Hj Hij E. unfold key_at, assignSlice_pointer in E.
  apply (f_equal le_value) in E. rewrite !le_value_le_bytes in E.
  change (8 * Z.of_nat 8)%Z with 64%Z in E.
  rewrite Nat2Z.inj_mul in Hj.
  set (a := (Z.of_nat i * Z.of_nat (sizeof K))%Z) in *.
  set (b := (Z.of_nat j * Z.of_nat (sizeof K))%Z) in *.
  assert (Hab : (0 <= a < b)%Z) by (unfold a, b; nia).
  assert (Hd : ((b - a) mod 2 ^ 64 = 0)%Z).
  { replace (b - a)%Z with ((k + b) - (k + a))%Z by lia.
    rewrite Zminus_mod, E, Z.sub_diag. reflexivity. }
  rewrite Z.mod_small in Hd; lia.
Qed.

Lemma GetOrCreateColumnHandle_read_write (t : RocksDBTableOfTensors) :
  readOnly t = false -> table_inv t ->
  exists h t0,
    GetOrCreateColumnHandle t = Done (Some h, t0) /\
    table_inv t0 /\ readOnly t0 = false /\
    namespace_present t0 = true /\ own_handle t0 = Some h /\
    is_Some (families (db t0) !! h).
Proof.
  intros Hrw Hinv. pose proof Hinv as [Hwf Hnd]. pose proof Hwf as (Hle & Hlive & _).
  assert (HG : exists h t0, GetOrCreateColumnHandle t = Done (Some h, t0) /\
                            namespace_present t0 = true).
  { destruct (namespace_present t) eqn:Hp.
    - destruct (namespace_present_lookup t Hp) as [h Hh].
      exists h, t. split; [apply GetOrCreateColumnHandle_present; assumption|exact Hp].
    - eexists _, _. split; [apply GetOrCreateColumnHandle_creates; assumption|].
      apply created_family_present. exact Hle. }
  destruct HG as (h & t0 & HG & Hp0). exists h, t0.
  destruct (GetOrCreateColumnHandle_keeps t t0 (Some h) Hinv HG)
    as (Hinv0 & Hro & _ & Hown).
  destruct (Hown h eq_refl) as [Hown0 _].
  split; [exact HG|]. split; [exact Hinv0|]. split; [congruence|].
  split; [exact Hp0|]. split; [exact Hown0|].
  destruct Hinv0 as [(_ & Hlive0 & _) _]. apply Hlive0.
  eapply list_elem_of_lookup_2. exact Hown0.
Qed.

Section SameBuffer.

Context (K V : ElemType).
Variables (h valuesPerDim0 : nat).
Hypothesis Hsize : 0 < sizeof K.

(** The point path of [Insert] stores the row of key [i] under [key_at i]
    and leaves every other record of the column family alone. *)
Lemma Insert_point_stores (n : nat) :
  forall (store : DB) (k : Z) (v : list V) (cf : gmap string string),
  families store !! h = Some cf ->
  Forall (representable V) v -> length v = n * valuesPerDim0 ->
  (Z.of_nat (n * sizeof K) <= 2 ^ 64)%Z ->
  exists store' cf',
    Insert_point K V store h k v n valuesPerDim0 = Done store' /\
    touches_only h store store' /\
    families store' !! h = Some cf' /\
    (forall i, i < n ->
       exists slice, cf' !! key_at K k i = Some slice /\
                     copyToTensor V slice valuesPerDim0
                     = Done (take valuesPerDim0 (drop (i * valuesPerDim0) v))) /\
    (forall key, (forall i, i < n -> key <> key_at K k i) -> cf' !! key = cf !! key).
Proof.
  induction n as [|n IH]; intros store k v cf Hcf Hall Hlen Hfit.
  - exists store, cf. split; [reflexivity|]. split; [apply touches_only_refl|].
    split; [exact Hcf|]. split; [intros i Hi; lia | reflexivity].
  - cbn [Insert_point].
    assert (Hrow : length (take valuesPerDim0 v) = valuesPerDim0)
      by (rewrite length_take; lia).
    destruct (assignSlice_n_decodes V (take valuesPerDim0 v)) as (slice0 & Henc & Hdec);
      [apply Forall_take; exact Hall|].
    rewrite Hrow in Hdec. rewrite Henc. cbn [bind].
    unfold Put. cbn [apply_op]. rewrite Hcf. cbn [bind].
    set (store1 := {| families := _; next_handle := _; default_family := _ |}).
    assert (Ht1 : touches_only h store store1).
    { split; [reflexivity|]. split.
      - unfold store1. cbn [families]. rewrite lookup_insert_eq, Hcf.
        split; intros _; eauto.
      - intros h' Hne. unfold store1. cbn [families].
        apply lookup_insert_ne. congruence. }
    destruct (IH store1 (k + Z.of_nat (sizeof K))%Z (drop valuesPerDim0 v)
                (<[assignSlice_pointer k := slice0]> cf))
      as (store' & cf' & E & Ht & Hcf' & Hrows & Hframe).
    { unfold store1. cbn [families]. apply lookup_insert_eq. }
    { apply Forall_drop. exact Hall. }
    { rewrite length_drop. lia. }
    { lia. }
    exists store', cf'. split; [exact E|].
    split; [eapply touches_only_trans; eassumption|].
    split; [exact Hcf'|]. split.
    + intros [|i] Hi.
      * exists slice0. split; [|exact Hdec].
        rewrite Hframe.
          { rewrite key_at_0. apply lookup_insert_eq. }
        intros i Hi'. rewrite key_at_S. apply key_at_inj; [exact Hsize|nia|lia].
      * destruct (Hrows i) as (slice & Hl & Hd); [lia|].
        exists slice. rewrite <- key_at_S. split; [exact Hl|].
        rewrite Hd, drop_drop. reflexivity.
    + intros key Hkey. rewrite Hframe.
      * apply lookup_insert_ne. rewrite <- key_at_0 with (K := K).
        intros E0. apply (Hkey 0); [lia|]. symmetry. exact E0.
      * intros i Hi. rewrite key_at_S. apply Hkey. lia.
Qed.

(** The point path of [Find] over keys that are all stored: the rows are
    copied to the output buffer one after the other. *)
Lemma Find_point_reads (store : DB) (cf : gmap string string) (src d : list V)
  (dSize : nat) (n : nat) :
  families store !! h = Some cf ->
  forall (k : Z) (v : list V) (vOffset : nat),
  (forall i, i < n ->
     exists slice, cf !! key_at K k i = Some slice /\
                   copyToTensor V slice valuesPerDim0
                   = Done (take valuesPerDim0
                             (drop (vOffset + i * valuesPerDim0) src))) ->
  vOffset + n * valuesPerDim0 <= length v ->
  vOffset + n * valuesPerDim0 <= length src ->
  Find_point K V store (Some h) k n v vOffset valuesPerDim0 d dSize
  = Done (take vOffset v ++ take (n * valuesPerDim0) (drop vOffset src)
          ++ drop (vOffset + n * valuesPerDim0) v).
Proof.
  clear Hsize.
  intros Hcf. induction n as [|n IH]; intros k v vOffset Hrows Hv Hsrc.
  - cbn [Find_point]. simpl. rewrite Nat.add_0_r, take_drop. reflexivity.
  - cbn [Find_point]. unfold Get. rewrite Hcf. cbn [bind].
    destruct (Hrows 0) as (slice0 & Hl0 & Hd0); [lia|].
    rewrite key_at_0 in Hl0. rewrite Hl0. cbn [store_result].
    rewrite Hd0. cbn [bind]. rewrite Nat.add_0_r.
    set (row := take valuesPerDim0 (drop vOffset src)).
    assert (Hrow : length row = valuesPerDim0)
      by (unfold row; rewrite length_take, length_drop; lia).
    unfold write_slot. rewrite Hrow.
    assert (Hpre : length (take vOffset v) = vOffset) by (rewrite length_take; lia).
    set (v1 := take vOffset v ++ row ++ drop (vOffset + valuesPerDim0) v).
    assert (Hv1 : length v1 = length v).
    { unfold v1. rewrite !length_app, Hpre, Hrow, length_drop. lia. }
    rewrite IH.
    + assert (E1 : take (vOffset + valuesPerDim0) v1 = take vOffset v ++ row).
      { unfold v1. rewrite app_assoc. apply take_app_length'.
        rewrite length_app, Hpre, Hrow. reflexivity. }
      assert (E2 : drop (vOffset + valuesPerDim0 + n * valuesPerDim0) v1
                   = drop (vOffset + S n * valuesPerDim0) v).
      { unfold v1. rewrite app_assoc, drop_app_ge
          by (rewrite length_app, Hpre, Hrow; lia).
        rewrite length_app, Hpre, Hrow, drop_drop. f_equal. lia. }
      rewrite E1, E2. rewrite <- app_assoc. do 2 f_equal.
      rewrite app_assoc. f_equal.
      unfold row. rewrite <- drop_drop. rewrite take_take_drop. reflexivity.
    + intros i Hi. destruct (Hrows (S i)) as (slice & Hl & Hd); [lia|].
      exists slice. rewrite key_at_S. split; [exact Hl|].
      rewrite Hd. do 3 f_equal. lia.
    + rewrite Hv1. lia.
    + lia.
Qed.

(** The point path of [Remove] leaves none of its keys in the column
    family. *)
Lemma Remove_point_deletes (n : nat) :
  forall (store : DB) (k : Z) (cf : gmap string string),
  families store !! h = Some cf ->
  exists store' cf',
    Remove_point K store h k n = Done store' /\
    touches_only h store store' /\
    families store' !! h = Some cf' /\
    (forall i, i < n -> cf' !! key_at K k i = None) /\
    (forall key, cf !! key = None -> cf' !! key = None).
Proof.
  clear Hsize.
  induction n as [|n IH]; intros store k cf Hcf.
  - exists store, cf. split; [reflexivity|]. split; [apply touches_only_refl|].
    split; [exact Hcf|]. split; [intros i Hi; lia | auto].
  - cbn [Remove_point]. unfold Delete. cbn [apply_op]. rewrite Hcf. cbn [bind].
    set (store1 := {| families := _; next_handle := _; default_family := _ |}).
    assert (Ht1 : touches_only h store store1).
    { split; [reflexivity|]. split.
      - unfold store1. cbn [families]. rewrite lookup_insert_eq, Hcf.
        split; intros _; eauto.
      - intros h' Hne. unfold store1. cbn [families].
        apply lookup_insert_ne. congruence. }
    destruct (IH store1 (k + Z.of_nat (sizeof K))%Z (delete (assignSlice_pointer k) cf))
      as (store' & cf' & E & Ht & Hcf' & Hgone & Hkeep).
    { unfold store1. cbn [families]. apply lookup_insert_eq. }
    exists store', cf'. split; [exact E|].
    split; [eapply touches_only_trans; eassumption|].
    split; [exact Hcf'|]. split.
    + intros [|i] Hi.
      * apply Hkeep. rewrite key_at_0. apply lookup_delete_eq.
      * rewrite <- key_at_S. apply Hgone. lia.
    + intros key Hkey. apply Hkeep.
      destruct (decide (assignSlice_pointer k = key)) as [<-|Hne].
      * apply lookup_delete_eq.
      * rewrite lookup_delete_ne by exact Hne. exact Hkey.
Qed.

(** The point path of [Find] over keys none of which is stored. *)
Lemma Find_point_misses (store : DB) (cf : gmap string string) (d : list V)
  (dSize : nat) (n : nat) :
  families store !! h = Some cf ->
  forall (k : Z) (v : list V) (vOffset : nat),
  (forall i, i < n -> cf !! key_at K k i = None) ->
  Find_point K V store (Some h) k n v vOffset valuesPerDim0 d dSize
  = Find_process V (replicate n None) v vOffset valuesPerDim0 d dSize.
Proof.
  clear Hsize.
  intros Hcf. induction n as [|n IH]; intros k v vOffset Hgone; [reflexivity|].
  cbn [Find_point replicate Find_process]. unfold Get. rewrite Hcf. cbn [bind].
  pose proof (Hgone 0) as H0. rewrite key_at_0 in H0. rewrite H0 by lia.
  destruct (store_result V None v vOffset valuesPerDim0 d dSize); cbn [bind];
    [|reflexivity..].
  apply IH. intros i Hi. rewrite key_at_S. apply Hgone. lia.
Qed.

End SameBuffer.

Section PointCalls.

Context (K V : ElemType).
Variables (n valuesPerDim0 : nat).

Lemma Insert_point_call (t t0 : RocksDBTableOfTensors) (h : nat)
  (keys : Tensor K) (inserted : Tensor V) :
  point_call K V n valuesPerDim0 keys inserted ->
  GetOrCreateColumnHandle t = Done (Some h, t0) -> readOnly t0 = false ->
  Insert K V t keys inserted
  = (store <- Insert_point K V (db t0) h (data keys) (flat inserted) n valuesPerDim0 ;;
     Done (OK, set_db t0 store)).
Proof.
  intros (Hk & Hv & Hnk & Hnv & Hlen & [Hpos Hlt] & Hw) HG Hrw.
  unfold Insert. rewrite !bool_decide_eq_true_2 by assumption. cbn [negb orb].
  rewrite HG. cbn [bind]. rewrite Hrw, Hnk, Hnv, Nat.eqb_refl. cbn [negb].
  destruct (Nat.eqb_spec n 0) as [|_]; [lia|].
  destruct (Nat.ltb_spec n RDB_BATCH_MODE_MIN_QUERY_SIZE) as [_|]; [|lia].
  replace (NumElements inserted / n) with valuesPerDim0
    by (rewrite Hlen, Nat.mul_comm, Nat.div_mul; lia).
  reflexivity.
Qed.

Lemma Remove_point_call (t t0 : RocksDBTableOfTensors) (h : nat) (keys : Tensor K) :
  dtype keys = DataTypeToEnum K -> dim_size0 keys = n ->
  n < RDB_BATCH_MODE_MIN_QUERY_SIZE ->
  GetOrCreateColumnHandle t = Done (Some h, t0) -> readOnly t0 = false ->
  Remove K t keys
  = (store <- Remove_point K (db t0) h (data keys) n ;; Done (OK, set_db t0 store)).
Proof.
  intros Hk Hnk Hlt HG Hrw.
  unfold Remove. rewrite !bool_decide_eq_true_2 by assumption. cbn [negb].
  rewrite HG. cbn [bind]. rewrite Hrw, Hnk.
  destruct (Nat.ltb_spec n RDB_BATCH_MODE_MIN_QUERY_SIZE) as [_|]; [|lia].
  reflexivity.
Qed.

Lemma Find_point_call (t : RocksDBTableOfTensors) (h : nat)
  (keys : Tensor K) (values default_value : Tensor V) :
  point_call K V n valuesPerDim0 keys values ->
  dtype default_value = DataTypeToEnum V ->
  NumElements default_value mod valuesPerDim0 = 0 ->
  namespace_present t = true -> own_handle t = Some h ->
  Find K V t keys values default_value
  = (v <- Find_point K V (db t) (Some h) (data keys) n (flat values) 0
            valuesPerDim0 (flat default_value) (NumElements default_value) ;;
     Done (OK, v, t)).
Proof.
  intros (Hk & Hv & Hnk & Hnv & Hlen & [Hpos Hlt] & Hw) Hd Hmod Hp Hown.
  unfold Find. rewrite !bool_decide_eq_true_2 by assumption. cbn [negb orb].
  rewrite (GetOrCreateColumnHandle_present t h Hp Hown). cbn [bind].
  rewrite Hnk, Hnv, Nat.eqb_refl. cbn [negb].
  destruct (Nat.eqb_spec n 0) as [|_]; [lia|].
  replace (NumElements values / n) with valuesPerDim0
    by (rewrite Hlen, Nat.mul_comm, Nat.div_mul; lia).
  destruct (Nat.eqb_spec valuesPerDim0 0) as [|_]; [contradiction|].
  rewrite Hmod. cbn [Nat.eqb negb].
  destruct (Nat.ltb_spec n RDB_BATCH_MODE_MIN_QUERY_SIZE) as [_|]; [|lia].
  reflexivity.
Qed.

End PointCalls.

Lemma one_key_point_call (K V : ElemType) (valuesPerDim0 : nat)
  (keys : Tensor K) (values : Tensor V) :
  one_key_call K V valuesPerDim0 keys values ->
  point_call K V 1 valuesPerDim0 keys values.
Proof.
  intros (Hk & Hv & Hnk & Hnv & Hlen & Hw).
  unfold point_call, RDB_BATCH_MODE_MIN_QUERY_SIZE.
  repeat split; try assumption; lia.
Qed.

(** The point path of [Insert] for one key: the row is put under the bytes
    of the pointer to the key. *)
Lemma Insert_point_one (K V : ElemType) (store : DB) (h : nat) (k : Z)
  (v : list V) (cf : gmap string string) :
  families store !! h = Some cf -> Forall (representable V) v ->
  exists store' slice,
    Insert_point K V store h k v 1 (length v) = Done store' /\
    families store' !! h = Some (<[assignSlice_pointer k := slice]> cf) /\
    copyToTensor V slice (length v) = Done v.
Proof.
  intros Hcf Hall.
  destruct (assignSlice_n_decodes V v Hall) as (slice & Henc & Hdec).
  cbn [Insert_point]. rewrite take_ge by lia. rewrite Henc. cbn [bind].
  unfold Put. cbn [apply_op]. rewrite Hcf. cbn [bind].
  eexists _, slice. split; [reflexivity|]. split; [|exact Hdec].
  cbn [families]. apply lookup_insert_eq.
Qed.

(** Different addresses have different pointer bytes. *)
Lemma assignSlice_pointer_inj (a b : Z) :
  address a -> address b -> a <> b ->
  assignSlice_pointer a <> assignSlice_pointer b.
Proof.
  unfold address, assignSlice_pointer. intros Ha Hb Hne E. apply Hne.
  apply (f_equal le_value) in E. rewrite !le_value_le_bytes in E.
  change (8 * Z.of_nat 8)%Z with 64%Z in E.
  rewrite !Z.mod_small in E by lia. exact E.
Qed.

(** X9.  Insertion then lookup of one key through the same key buffer (one
    key is the only number the point paths serve, the bulk threshold being
    2): on a read-write table, [Insert] of one row of representable values
    returns OK, and a following [Find] of one key whose key tensor has the
    same buffer address returns OK with exactly the inserted row in
    [values].  The contents of the two key tensors play no role. *)
Theorem Insert_then_Find_same_buffer (K V : ElemType) (t : RocksDBTableOfTensors)
  (valuesPerDim0 : nat) (keys keys' : Tensor K)
  (inserted values default_value : Tensor V) :
  readOnly t = false -> table_inv t ->
  one_key_call K V valuesPerDim0 keys inserted ->
  Forall (representable V) (flat inserted) ->
  one_key_call K V valuesPerDim0 keys' values ->
  data keys' = data keys ->
  dtype default_value = DataTypeToEnum V ->
  NumElements default_value mod valuesPerDim0 = 0 ->
  exists t1,
    Insert K V t keys inserted = Done (OK, t1) /\
    Find K V t1 keys' values default_value = Done (OK, flat inserted, t1).
Proof.
  intros Hrw Hinv Hins Hall Hfind Haddr Hd Hmod.
  destruct (GetOrCreateColumnHandle_read_write t Hrw Hinv)
    as (h & t0 & HG & Hinv0 & Hrw0 & Hp0 & Hown0 & [cf Hcf]).
  pose proof Hins as (_ & _ & _ & _ & Hlen & _).
  pose proof Hfind as (_ & _ & _ & _ & Hlen' & _).
  unfold NumElements in Hlen, Hlen'.
  destruct (Insert_point_one K V (db t0) h (data keys) (flat inserted) cf Hcf Hall)
    as (store' & slice & E & Hcf' & Hdec).
  rewrite Hlen in E, Hdec.
  exists (set_db t0 store'). split.
  - rewrite (Insert_point_call K V 1 valuesPerDim0 t t0 h keys inserted
               (one_key_point_call K V valuesPerDim0 keys inserted Hins) HG Hrw0).
    rewrite E. reflexivity.
  - rewrite (Find_point_call K V 1 valuesPerDim0 (set_db t0 store') h keys' values
               default_value (one_key_point_call K V valuesPerDim0 keys' values Hfind)
               Hd Hmod Hp0 Hown0).
    cbn [db set_db Find_point]. rewrite Haddr.
    unfold Get. rewrite Hcf'. cbn [bind]. rewrite lookup_insert_eq.
    cbn [store_result]. rewrite Hdec. cbn [bind].
    unfold write_slot. rewrite take_0, drop_ge by lia.
    cbn [app]. rewrite app_nil_r. reflexivity.
Qed.

(** X10.  Removal then lookup of one key through the same key buffer: on a
    read-write table [Remove] of one key returns OK, and a following [Find]
    of one key whose key tensor has the same buffer address returns OK with
    the row of [values] filled from the default buffer. *)
Theorem Remove_then_Find_default (K V : ElemType) (t : RocksDBTableOfTensors)
  (valuesPerDim0 : nat) (keys keys' : Tensor K)
  (values default_value : Tensor V) :
  readOnly t = false -> table_inv t ->
  dtype keys = DataTypeToEnum K -> dim_size0 keys = 1 ->
  one_key_call K V valuesPerDim0 keys' values ->
  data keys' = data keys ->
  dtype default_value = DataTypeToEnum V ->
  NumElements default_value <> 0 ->
  NumElements default_value mod valuesPerDim0 = 0 ->
  exists t1,
    Remove K t keys = Done (OK, t1) /\
    Find K V t1 keys' values default_value
    = Done (OK, default_fill (flat default_value) valuesPerDim0 0 1 (flat values), t1).
Proof.
  intros Hrw Hinv Hk Hnk Hfind Haddr Hd Hne Hmod.
  destruct (GetOrCreateColumnHandle_read_write t Hrw Hinv)
    as (h & t0 & HG & Hinv0 & Hrw0 & Hp0 & Hown0 & [cf Hcf]).
  pose proof Hfind as (_ & _ & _ & _ & Hlen' & Hw).
  unfold NumElements in Hlen'.
  destruct (Remove_point_deletes K h 1 (db t0) (data keys) cf Hcf)
    as (store' & cf' & E & _ & Hcf' & Hgone & _).
  exists (set_db t0 store'). split.
  - rewrite (Remove_point_call K 1 t t0 h keys Hk Hnk) by
      (first [exact HG | exact Hrw0 | unfold RDB_BATCH_MODE_MIN_QUERY_SIZE; lia]).
    rewrite E. reflexivity.
  - rewrite (Find_point_call K V 1 valuesPerDim0 (set_db t0 store') h keys' values
               default_value (one_key_point_call K V valuesPerDim0 keys' values Hfind)
               Hd Hmod Hp0 Hown0).
    cbn [db set_db]. rewrite Haddr.
    rewrite (Find_point_misses K V h valuesPerDim0 store' cf' (flat default_value)
               (NumElements default_value) 1 Hcf' (data keys) (flat values) 0 Hgone).
    unfold NumElements in *.
    pose proof (Find_process_misses (flat default_value) valuesPerDim0 Hw Hne Hmod
                  1 (flat values) 0) as Hmiss.
    change (0 * valuesPerDim0) with 0 in Hmiss.
    rewrite Hmiss by (simpl; lia). reflexivity.
Qed.

(** X11.  Lookup of one key through another key buffer misses: after
    [Insert] of one row through the key buffer at one address into a
    read-write table whose column family was absent, a [Find] of one key
    through a key buffer at a different address returns OK with the row
    filled from the default buffer, whatever keys the two tensors hold,
    equal ones included. *)
Theorem Insert_then_Find_other_buffer (K V : ElemType) (t : RocksDBTableOfTensors)
  (valuesPerDim0 : nat) (keys keys' : Tensor K)
  (inserted values default_value : Tensor V) :
  readOnly t = false -> table_inv t -> namespace_present t = false ->
  one_key_call K V valuesPerDim0 keys inserted ->
  Forall (representable V) (flat inserted) ->
  one_key_call K V valuesPerDim0 keys' values ->
  address (data keys) -> address (data keys') -> data keys' <> data keys ->
  dtype default_value = DataTypeToEnum V ->
  NumElements default_value <> 0 ->
  NumElements default_value mod valuesPerDim0 = 0 ->
  exists t1,
    Insert K V t keys inserted = Done (OK, t1) /\
    Find K V t1 keys' values default_value
    = Done (OK, default_fill (flat default_value) valuesPerDim0 0 1 (flat values), t1).
Proof.
  intros Hrw Hinv Habs Hins Hall Hfind Ha Ha' Hother Hd Hne Hmod.
  pose proof Hinv as [Hwf _]. pose proof Hwf as (Hle & _).
  pose proof (GetOrCreateColumnHandle_creates t Hrw Habs Hle) as HG.
  set (h := next_handle (db t)) in *. set (t0 := with_created_family t) in *.
  assert (Hcf : families (db t0) !! h = Some ∅) by apply created_family_lookup.
  assert (Hp0 : namespace_present t0 = true) by (apply created_family_present; exact Hle).
  destruct (GetOrCreateColumnHandle_keeps t t0 (Some h) Hinv HG) as (_ & Hro & _ & Hown).
  destruct (Hown h eq_refl) as [Hown0 _].
  assert (Hrw0 : readOnly t0 = false) by congruence.
  pose proof Hins as (_ & _ & _ & _ & Hlen & _).
  pose proof Hfind as (_ & _ & _ & _ & Hlen' & Hw).
  unfold NumElements in Hlen, Hlen'.
  destruct (Insert_point_one K V (db t0) h (data keys) (flat inserted) ∅ Hcf Hall)
    as (store' & slice & E & Hcf' & _).
  rewrite Hlen in E.
  exists (set_db t0 store'). split.
  - rewrite (Insert_point_call K V 1 valuesPerDim0 t t0 h keys inserted
               (one_key_point_call K V valuesPerDim0 keys inserted Hins) HG Hrw0).
    rewrite E. reflexivity.
  - rewrite (Find_point_call K V 1 valuesPerDim0 (set_db t0 store') h keys' values
               default_value (one_key_point_call K V valuesPerDim0 keys' values Hfind)
               Hd Hmod Hp0 Hown0).
    cbn [db set_db].
    assert (Hgone : forall i, i < 1 ->
              <[assignSlice_pointer (data keys) := slice]> (∅ : gmap string string)
              !! key_at K (data keys') i = None).
    { intros i Hi. replace i with 0 by lia. rewrite key_at_0.
      rewrite lookup_insert_ne; [apply lookup_empty|].
      apply assignSlice_pointer_inj; [exact Ha | exact Ha' | congruence]. }
    rewrite (Find_point_misses K V h valuesPerDim0 store' _ (flat default_value)
               (NumElements default_value) 1 Hcf' (data keys') (flat values) 0 Hgone).
    unfold NumElements in *.
    pose proof (Find_process_misses (flat default_value) valuesPerDim0 Hw Hne Hmod
                  1 (flat values) 0) as Hmiss.
    change (0 * valuesPerDim0) with 0 in Hmiss.
    rewrite Hmiss by (simpl; lia). reflexivity.
Qed.

Lemma table_absent_inv (read_only : bool) : table_inv (table_absent read_only).
Proof.
  split; [apply table_absent_wf|].
  apply (bool_decide_unpack _). vm_compute. exact I.
Qed.

Lemma table_key_7_inv : table_inv table_key_7.
Proof.
  split; [apply table_wfb_wf; vm_compute; reflexivity|].
  apply (bool_decide_unpack _). vm_compute. exact I.
Qed.

Lemma row_123_representable : Forall (representable int32) (flat row_123_values).
Proof. repeat constructor; vm_compute; discriminate. Qed.

Lemma one_row_call (keys : Tensor int64) (values : Tensor int32) :
  dtype keys = DT_INT64 -> dim_size0 keys = 1 ->
  dtype values = DT_INT32 -> dim_size0 values = 1 -> length (flat values) = 3 ->
  one_key_call int64 int32 3 keys values.
Proof.
  intros Hk Hnk Hv Hnv Hlen. unfold one_key_call, NumElements.
  rewrite Hk, Hnk, Hv, Hnv, Hlen.
  repeat split; try reflexivity. lia.
Qed.

(** Witness of [Insert_then_Find_same_buffer]: the row 1, 2, 3 inserted for
    key 7 is found again for key 8 held in the same buffer. *)
Lemma Insert_then_Find_same_buffer_witness :
  exists t1,
    Insert int64 int32 (table_absent false) one_key row_123_values = Done (OK, t1) /\
    Find int64 int32 t1 other_key one_row default_nines
    = Done (OK, [1; 2; 3]%Z, t1).
Proof.
  assert (Hins : one_key_call int64 int32 3 one_key row_123_values)
    by (apply one_row_call; reflexivity).
  assert (Hfind : one_key_call int64 int32 3 other_key one_row)
    by (apply one_row_call; reflexivity).
  exact (Insert_then_Find_same_buffer int64 int32 (table_absent false) 3
           one_key other_key row_123_values one_row default_nines
           eq_refl (table_absent_inv false) Hins row_123_representable
           Hfind eq_refl eq_refl eq_refl).
Defined.

(** Witness of [Remove_then_Find_default]. *)
Lemma Remove_then_Find_default_witness :
  exists t1,
    Remove int64 table_key_7 one_key = Done (OK, t1) /\
    Find int64 int32 t1 one_key one_row default_nines
    = Done (OK, [9; 9; 9]%Z, t1).
Proof.
  assert (Hfind : one_key_call int64 int32 3 one_key one_row)
    by (apply one_row_call; reflexivity).
  assert (Hne : NumElements default_nines <> 0) by (vm_compute; discriminate).
  exact (Remove_then_Find_default int64 int32 table_key_7 3
           one_key one_key one_row default_nines
           eq_refl table_key_7_inv eq_refl eq_refl Hfind eq_refl eq_refl Hne eq_refl).
Defined.

(** Witness of [Insert_then_Find_other_buffer]: the row inserted for key 7
    is not found for key 7 held in another buffer. *)
Lemma Insert_then_Find_other_buffer_witness :
  exists t1,
    Insert int64 int32 (table_absent false) one_key row_123_values = Done (OK, t1) /\
    Find int64 int32 t1 one_key_elsewhere one_row default_nines
    = Done (OK, [9; 9; 9]%Z, t1).
Proof.
  assert (Ha : address (data one_key)) by (unfold address; simpl; lia).
  assert (Ha' : address (data one_key_elsewhere)) by (unfold address; simpl; lia).
  assert (Hother : data one_key_elsewhere <> data one_key) by (simpl; lia).
  assert (Hins : one_key_call int64 int32 3 one_key row_123_values)
    by (apply one_row_call; reflexivity).
  assert (Hfind : one_key_call int64 int32 3 one_key_elsewhere one_row)
    by (apply one_row_call; reflexivity).
  assert (Hne : NumElements default_nines <> 0) by (vm_compute; discriminate).
  exact (Insert_then_Find_other_buffer int64 int32 (table_absent false) 3
           one_key one_key_elsewhere row_123_values one_row default_nines
           eq_refl (table_absent_inv false) eq_refl Hins
           row_123_representable Hfind Ha Ha' Hother eq_refl Hne eq_refl).
Defined.

(** ** Importing a well-formed snapshot of any length *)

Lemma Write_puts (h : nat) (records : list (string * string)) :
  forall (store : DB) (cf : gmap string string),
  families store !! h = Some cf ->
  exists store',
    Write store (map (put_op h) records) = Done store' /\
    families store' !! h = Some (put_all cf records) /\
    touches_only h store store'.
Proof.
  induction records as [|[k v] records IH]; intros store cf Hcf.
  - exists store. split; [reflexivity|]. split; [exact Hcf|apply touches_only_refl].
  - cbn [map Write put_op apply_op fst snd]. rewrite Hcf. cbn [bind].
    set (store1 := {| families := _; next_handle := _; default_family := _ |}).
    destruct (IH store1 (<[k := v]> cf)) as (store' & E & Hcf' & Ht).
    { unfold store1. cbn [families]. apply lookup_insert_eq. }
    exists store'. split; [exact E|]. split; [exact Hcf'|].
    eapply touches_only_trans; [|exact Ht].
    split; [reflexivity|]. split.
    + unfold store1. cbn [families]. rewrite lookup_insert_eq, Hcf.
      split; intros _; eauto.
    + intros h' Hne. unfold store1. cbn [families].
      apply lookup_insert_ne. congruence.
Qed.

(** The loop writes a batch each time it has collected 128 records and
    returns OUT_OF_RANGE at the end of the file, with what it has collected
    since the last write unwritten. *)
Lemma import_loop_batches (records : list (string * string)) :
  forall (fuel : nat) (pending : list (string * string)) (store : DB) (h : nat)
         (cf : gmap string string),
  Forall fits records ->
  families store !! h = Some cf ->
  length pending < RDB_BATCH_MODE_MAX_QUERY_SIZE ->
  String.length (concat_bytes (map frame records)) < fuel ->
  exists store',
    import_loop fuel
      {| unread := concat_bytes (map frame records); eofbit := false; failbit := false |}
      (map (put_op h) pending) store h
    = Done (OUT_OF_RANGE, store') /\
    families store' !! h = Some (put_all cf (full_batches (pending ++ records))) /\
    touches_only h store store'.
Proof.
  unfold full_batches, RDB_BATCH_MODE_MAX_QUERY_SIZE.
  induction records as [|[k v] records IH];
    intros fuel pending store h cf Hfits Hcf Hn Hfuel.
  - destruct fuel as [|fuel]; [simpl in Hfuel; lia|].
    exists store. split; [reflexivity|]. split; [|apply touches_only_refl].
    rewrite app_nil_r, Nat.div_small, Nat.mul_0_r by exact Hn. exact Hcf.
  - apply Forall_cons in Hfits as [Hkv Hfits].
    cbn [map concat_bytes foldr] in Hfuel |- *.
    fold (concat_bytes (map frame records)) in Hfuel |- *.
    rewrite length_append, frame_length in Hfuel.
    destruct fuel as [|fuel]; [lia|].
    rewrite import_loop_reads_frame by assumption. cbv zeta.
    change (BatchPut h k v) with (put_op h (k, v)).
    change [put_op h (k, v)] with (map (put_op h) [(k, v)]).
    rewrite <- map_app.
    assert (Hlen : length (map (put_op h) (pending ++ [(k, v)])) = length pending + 1)
      by (rewrite length_map, length_app; reflexivity).
    rewrite Hlen. unfold RDB_BATCH_MODE_MAX_QUERY_SIZE.
    assert (Hall : pending ++ (k, v) :: records = (pending ++ [(k, v)]) ++ records)
      by (rewrite <- app_assoc; reflexivity).
    destruct (Nat.eq_dec (length pending + 1) 128) as [Hfull|Hpart].
    + rewrite Hfull. cbn [Nat.modulo Nat.divmod fst snd Nat.eqb Nat.sub].
      change (128 mod 128 =? 0) with true.
      destruct (Write_puts h (pending ++ [(k, v)]) store cf Hcf)
        as (store1 & E1 & Hcf1 & Ht1).
      rewrite E1. cbn [bind].
      destruct (IH fuel [] store1 h _ Hfits Hcf1) as (store' & E & Hcf' & Ht);
        [simpl; lia | lia |].
      exists store'. split; [exact E|].
      split; [|eapply touches_only_trans; eassumption].
      assert (Hp : length (pending ++ [(k, v)]) = 128)
        by (rewrite length_app; exact Hfull).
      assert (Htake : take (128 * (length (pending ++ (k, v) :: records) / 128))
                        (pending ++ (k, v) :: records)
                      = (pending ++ [(k, v)])
                        ++ take (128 * (length records / 128)) records).
      { rewrite Hall, (length_app (pending ++ [(k, v)])), Hp.
        replace ((128 + length records) / 128) with (1 + length records / 128)
          by (rewrite <- (Nat.div_add_l 1 128 (length records)) by lia; f_equal; lia).
        replace (128 * (1 + length records / 128))
          with (length (pending ++ [(k, v)]) + 128 * (length records / 128))
          by (rewrite Hp; lia).
        apply take_app_add'. reflexivity. }
      rewrite Hcf', Htake. cbn [app]. f_equal.
      unfold put_all. rewrite (foldl_app _ (pending ++ [(k, v)])). reflexivity.
    + rewrite Nat.mod_small by lia.
      destruct (Nat.eqb_spec (length pending + 1) 0); [lia|].
      destruct (IH fuel (pending ++ [(k, v)]) store h cf Hfits Hcf)
        as (store' & E & Hcf' & Ht);
        [rewrite length_app; simpl; lia | lia |].
      exists store'. split; [exact E|]. split; [|exact Ht].
      rewrite Hcf', Hall. reflexivity.
Qed.

Lemma ImportValues_snapshot (t : RocksDBTableOfTensors)
  (records : list (string * string)) :
  readOnly t = false -> table_wf t -> ~ owns_default t -> Forall fits records ->
  exists t', ImportValues t (dump_of records) = Done (OUT_OF_RANGE, t') /\
             namespace_records t' = Some (put_all ∅ (full_batches records)).
Proof.
  intros Hrw Hwf Hown Hfits. pose proof Hwf as (Hle & _ & _).
  assert (Hclear : exists t1, Clear t = Done (OK, t1)).
  { destruct (namespace_present t) eqn:Hp.
    - apply Clear_read_write_present; assumption.
    - eexists. apply Clear_absent. assumption. }
  destruct Hclear as [t1 Hclear].
  destruct (Clear_OK_index t t1 Hle Hclear) as [Hle1 Hrw1]. rewrite Hrw in Hrw1.
  destruct (Clear_OK_absent t t1 Hclear) as [Ha1 _].
  destruct (import_loop_batches records
              (S (String.length (concat_bytes (map frame records)))) []
              (db (with_created_family t1)) (next_handle (db t1)) ∅ Hfits
              (created_family_lookup t1))
    as (store' & E & Hcf' & _);
    [unfold RDB_BATCH_MODE_MAX_QUERY_SIZE; simpl; lia | lia |].
  exists (set_db (with_created_family t1) store'). split.
  - unfold ImportValues. rewrite Hclear. cbn [bind].
    rewrite bool_decide_eq_true_2 by reflexivity. cbn [negb].
    unfold dump_of, snapshot, export_header. cbn [dump]. cbv zeta.
    rewrite !append_assoc.
    pose proof (ifstream_read_app (le_bytes 4 RDB_EXPORT_FILE_MAGIC)
                  (le_bytes 4 RDB_EXPORT_FILE_VERSION
                   ++ concat_bytes (map frame records))%string) as Hr1.
    pose proof (ifstream_read_app (le_bytes 4 RDB_EXPORT_FILE_VERSION)
                  (concat_bytes (map frame records))) as Hr2.
    change (String.length (le_bytes 4 RDB_EXPORT_FILE_MAGIC)) with 4 in Hr1.
    change (String.length (le_bytes 4 RDB_EXPORT_FILE_VERSION)) with 4 in Hr2.
    rewrite Hr1, Hr2.
    change (le_value (le_bytes 4 RDB_EXPORT_FILE_MAGIC) =? RDB_EXPORT_FILE_MAGIC)%Z
      with true.
    change (le_value (le_bytes 4 RDB_EXPORT_FILE_VERSION) =? RDB_EXPORT_FILE_VERSION)%Z
      with true.
    cbn [negb orb].
    rewrite GetOrCreateColumnHandle_creates by assumption. cbn [bind].
    replace (readOnly (with_created_family t1)) with false
      by (symmetry; exact Hrw1).
    cbn [unread]. cbn [map] in E. rewrite E. reflexivity.
  - unfold namespace_records. cbn [colHandles colIndex set_db db with_created_family].
    unfold namespace_present in Ha1. apply Nat.ltb_ge in Ha1.
    assert (Ei : colIndex t1 = length (colHandles t1)) by lia.
    rewrite Ei, lookup_app_r, Nat.sub_diag by lia. cbn [lookup list_lookup option_bind mbind].
    simpl. exact Hcf'.
Qed.

(** X12.  [ImportValues] of a well-formed snapshot into a read-write table
    that does not own the store's default column family returns
    OUT_OF_RANGE, and the table then holds exactly the records of the
    complete batches of 128: the first [128 * (n / 128)] of the [n] records,
    put in file order.  What was in the table before is gone, and the
    records after the last complete batch are not imported. *)
Theorem ImportValues_commits_full_batches (t : RocksDBTableOfTensors)
  (records : list (string * string)) :
  readOnly t = false -> table_wf t -> ~ owns_default t -> Forall fits records ->
  exists t', ImportValues t (dump_of records) = Done (OUT_OF_RANGE, t') /\
             namespace_records t' = Some (put_all ∅ (full_batches records)).
Proof. apply ImportValues_snapshot. Qed.

Lemma numbered_records_fit (n : nat) : Forall fits (numbered_records n).
Proof.
  unfold numbered_records. apply Forall_map, Forall_forall. intros i _.
  split; cbn [fst snd]; [rewrite length_le_bytes|];
    unfold UINT8_MAX, UINT32_MAX; simpl; lia.
Qed.

(** Witness of [ImportValues_commits_full_batches]: a snapshot of 129
    records. *)
Lemma ImportValues_commits_full_batches_witness :
  exists t',
    ImportValues (table_absent false) (dump_of (numbered_records 129))
    = Done (OUT_OF_RANGE, t') /\
    namespace_records t'
    = Some (put_all ∅ (full_batches (numbered_records 129))).
Proof.
  assert (Hown : ~ owns_default (table_absent false))
    by (vm_compute; discriminate).
  exact (ImportValues_commits_full_batches (table_absent false)
           (numbered_records 129) eq_refl (table_absent_wf false) Hown
           (numbered_records_fit 129)).
Defined.

(** ** Export followed by import *)

Lemma put_all_union (records : list (string * string)) :
  forall cf : gmap string string,
  put_all cf records = list_to_map (reverse records) ∪ cf.
Proof.
  induction records as [|[k v] records IH]; intros cf.
  - simpl. rewrite (left_id_L ∅ (∪)). reflexivity.
  - cbn [put_all foldl fst snd]. fold (put_all (<[k := v]> cf) records).
    rewrite IH, reverse_cons, list_to_map_app. cbn [list_to_map foldr fst snd].
    rewrite <- (assoc_L (∪)). f_equal.
    rewrite <- insert_union_l, (left_id_L ∅ (∪)). reflexivity.
Qed.

(** Putting the records of a column family into an empty one gives the
    column family back. *)
Lemma put_all_stored_records (cf : gmap string string) :
  put_all ∅ (stored_records cf) = cf.
Proof.
  rewrite put_all_union, (right_id_L ∅ (∪)).
  rewrite <- (list_to_map_to_list cf) at 2.
  apply list_to_map_proper.
  - rewrite fmap_reverse, reverse_Permutation. apply stored_records_NoDup.
  - rewrite reverse_Permutation. apply stored_records_perm.
Qed.

Lemma stored_records_length (cf : gmap string string) :
  length (stored_records cf) = size cf.
Proof. rewrite stored_records_perm. apply length_map_to_list. Qed.

Lemma full_batches_all (records : list (string * string)) :
  length records mod RDB_BATCH_MODE_MAX_QUERY_SIZE = 0 ->
  full_batches records = records.
Proof.
  unfold full_batches, RDB_BATCH_MODE_MAX_QUERY_SIZE. intros Hm.
  apply take_ge.
  pose proof (Nat.div_mod_eq (length records) 128). lia.
Qed.

Lemma export_then_import_snapshot (t : RocksDBTableOfTensors) (fs : FileSystem)
  (cf : gmap string string) :
  readOnly t = false -> table_wf t -> ~ owns_default t ->
  writable fs = true ->
  namespace_present t = true -> namespace_records t = Some cf ->
  Forall fits (stored_records cf) ->
  exists t2,
    export_then_import t fs = Done (OK, OUT_OF_RANGE, t2) /\
    namespace_records t2 = Some (put_all ∅ (full_batches (stored_records cf))).
Proof.
  intros Hrw Hwf Hown Hw Hp Hr Hfits.
  destruct (ExportValues_writes_snapshot t fs cf Hw Hwf (or_introl (conj Hp Hr)))
    as (_ & _ & _ & Hok & _).
  destruct (Hok Hfits) as [Hexp _]. rewrite Hp in Hexp.
  destruct (ImportValues_snapshot t (stored_records cf) Hrw Hwf Hown Hfits)
    as (t2 & Himp & Ht2).
  exists t2. split; [|exact Ht2].
  unfold export_then_import. rewrite Hexp. cbn [bind].
  fold (dump_of (stored_records cf)). rewrite Himp. reflexivity.
Qed.

(** X13.  [ExportValues] followed by [ImportValues] of the dump into the
    same read-write table, one that does not own the store's default column
    family: the export returns OK, the import OUT_OF_RANGE, and the table
    keeps only the records of the complete batches of 128 in key order; the
    [n mod 128] records with the greatest keys are lost. *)
Theorem export_then_import_full_batches (t : RocksDBTableOfTensors)
  (fs : FileSystem) (cf : gmap string string) :
  readOnly t = false -> table_wf t -> ~ owns_default t ->
  writable fs = true ->
  namespace_present t = true -> namespace_records t = Some cf ->
  Forall fits (stored_records cf) ->
  exists t2,
    export_then_import t fs = Done (OK, OUT_OF_RANGE, t2) /\
    namespace_records t2 = Some (put_all ∅ (full_batches (stored_records cf))) /\
    length (full_batches (stored_records cf))
    = size cf - size cf mod RDB_BATCH_MODE_MAX_QUERY_SIZE.
Proof.
  intros Hrw Hwf Hown Hw Hp Hr Hfits.
  destruct (export_then_import_snapshot t fs cf Hrw Hwf Hown Hw Hp Hr Hfits)
    as (t2 & E & Ht2).
  exists t2. split; [exact E|]. split; [exact Ht2|].
  unfold full_batches, RDB_BATCH_MODE_MAX_QUERY_SIZE.
  rewrite length_take, stored_records_length.
  pose proof (Nat.div_mod_eq (size cf) 128). lia.
Qed.

(** X14.  Round trip of a read-write table that does not own the store's
    default column family and whose number of records is a multiple of 128:
    after [ExportValues] and [ImportValues] of the dump the table holds the
    records it held, although the import reports OUT_OF_RANGE. *)
Theorem export_then_import_round_trip (t : RocksDBTableOfTensors)
  (fs : FileSystem) (cf : gmap string string) :
  readOnly t = false -> table_wf t -> ~ owns_default t ->
  writable fs = true ->
  namespace_present t = true -> namespace_records t = Some cf ->
  Forall fits (stored_records cf) ->
  size cf mod RDB_BATCH_MODE_MAX_QUERY_SIZE = 0 ->
  exists t2,
    export_then_import t fs = Done (OK, OUT_OF_RANGE, t2) /\
    namespace_records t2 = Some cf.
Proof.
  intros Hrw Hwf Hown Hw Hp Hr Hfits Hm.
  destruct (export_then_import_snapshot t fs cf Hrw Hwf Hown Hw Hp Hr Hfits)
    as (t2 & E & Ht2).
  exists t2. split; [exact E|].
  rewrite Ht2, full_batches_all by (rewrite stored_records_length; exact Hm).
  rewrite put_all_stored_records. reflexivity.
Qed.

Lemma one_record_fits : Forall fits (stored_records {["k" := "v"]}).
Proof.
  apply Forall_forall. intros [k v] Hin.
  apply stored_records_lookup, lookup_singleton_Some in Hin as [<- <-].
  split; cbn [fst snd]; unfold UINT8_MAX, UINT32_MAX; simpl; lia.
Qed.

(** Witness of [export_then_import_full_batches]: the table holding
    "k" -> "v". *)
Lemma export_then_import_full_batches_witness :
  exists t2,
    export_then_import (table_one_record false) no_dump
    = Done (OK, OUT_OF_RANGE, t2) /\
    namespace_records t2
    = Some (put_all ∅ (full_batches (stored_records {["k" := "v"]}))) /\
    length (full_batches (stored_records {["k" := "v"]}))
    = size ({["k" := "v"]} : gmap string string)
      - size ({["k" := "v"]} : gmap string string) mod RDB_BATCH_MODE_MAX_QUERY_SIZE.
Proof.
  assert (Hr : namespace_records (table_one_record false) = Some {["k" := "v"]})
    by (vm_compute; reflexivity).
  assert (Hown : ~ owns_default (table_one_record false))
    by (vm_compute; discriminate).
  exact (export_then_import_full_batches (table_one_record false) no_dump
           {["k" := "v"]} eq_refl (table_one_record_wf false) Hown eq_refl
           eq_refl Hr one_record_fits).
Defined.

Lemma table_128_records_fit :
  Forall fits (stored_records (list_to_map (numbered_records 128))).
Proof.
  apply Forall_forall. intros [k v] Hin.
  apply stored_records_lookup, elem_of_list_to_map_2 in Hin.
  pose proof (numbered_records_fit 128) as Hall.
  rewrite Forall_forall in Hall. apply Hall. exact Hin.
Qed.

(** Witness of [export_then_import_round_trip]: a table of 128 records. *)
Lemma export_then_import_round_trip_witness :
  exists t2,
    export_then_import table_128_records no_dump = Done (OK, OUT_OF_RANGE, t2) /\
    namespace_records t2 = Some (list_to_map (numbered_records 128)).
Proof.
  assert (Hwf : table_wf table_128_records)
    by (apply table_wfb_wf; vm_compute; reflexivity).
  assert (Hr : namespace_records table_128_records
               = Some (list_to_map (numbered_records 128))).
  { unfold namespace_records, table_128_records.
    cbn [colHandles colIndex db families].
    generalize (list_to_map (numbered_records 128) : gmap string string).
    intros cf. vm_compute. reflexivity. }
  assert (Hm : size (list_to_map (numbered_records 128) : gmap string string)
               mod RDB_BATCH_MODE_MAX_QUERY_SIZE = 0)
    by (vm_compute; reflexivity).
  assert (Hown : ~ owns_default table_128_records).
  { unfold owns_default, own_handle, table_128_records.
    cbn [colHandles colIndex db default_family]. discriminate. }
  exact (export_then_import_round_trip table_128_records no_dump
           (list_to_map (numbered_records 128)) eq_refl Hwf Hown eq_refl eq_refl
           Hr table_128_records_fit Hm).
Defined.

(** ** The outcomes of an import *)

(** Entered with [eofbit] clear, the loop returns OUT_OF_RANGE whatever the
    file holds. *)
Lemma import_loop_returns (fuel : nat) :
  forall (file : ifstream) (batch : list batch_op) (store : DB) (h : nat),
  eofbit file = false ->
  String.length (unread file) < fuel ->
  is_Some (families store !! h) -> Forall (on_family h) batch ->
  exists store',
    import_loop fuel file batch store h = Done (OUT_OF_RANGE, store') /\
    touches_only h store store'.
Proof.
  induction fuel as [|fuel IH]; intros file batch store h Heof Hlen Hlive Hall;
    [lia|].
  cbn [import_loop]. rewrite Heof.
  destruct (ifstream_read 1 file) as [[kSize|] f1] eqn:H1;
    [|exists store; split; [reflexivity|apply touches_only_refl]].
  destruct (ifstream_read _ f1) as [[k|] f2] eqn:H2;
    [|exists store; split; [reflexivity|apply touches_only_refl]].
  destruct (ifstream_read 4 f2) as [[vSize|] f3] eqn:H3;
    [|exists store; split; [reflexivity|apply touches_only_refl]].
  destruct (ifstream_read _ f3) as [[v|] f4] eqn:H4;
    [|exists store; split; [reflexivity|apply touches_only_refl]].
  apply ifstream_read_good in H1 as [_ L1].
  apply ifstream_read_good in H2 as [_ L2].
  apply ifstream_read_good in H3 as [_ L3].
  apply ifstream_read_good in H4 as [Heof4 L4].
  assert (Hall' : Forall (on_family h) (batch ++ [BatchPut h k v])).
  { apply Forall_app. split; [exact Hall|]. repeat constructor. }
  destruct (_ =? 0).
  - destruct (Write_live h _ store Hlive Hall') as (store1 & E1 & Hlive1).
    rewrite E1. cbn [bind].
    destruct (IH f4 [] store1 h Heof4) as (store' & E & Ht);
      [lia | exact Hlive1 | constructor |].
    exists store'. split; [exact E|].
    eapply touches_only_trans; [|exact Ht].
    eapply Write_touches; eassumption.
  - apply IH; [exact Heof4 | lia | exact Hlive | exact Hall'].
Qed.

Lemma Clear_read_write (t : RocksDBTableOfTensors) :
  readOnly t = false -> table_inv t -> ~ owns_default t ->
  exists t1,
    Clear t = Done (OK, t1) /\
    table_inv t1 /\ readOnly t1 = false /\ namespace_present t1 = false /\
    forall h, own_handle t = Some h ->
              families (db t1) !! h = None /\ h < next_handle (db t1).
Proof.
  intros Hrw Hinv Hown. pose proof Hinv as [Hwf Hnd].
  pose proof Hwf as (Hle & Hlive & Hfresh).
  assert (H1 : exists t1, Clear t = Done (OK, t1)).
  { destruct (namespace_present t) eqn:Hp.
    - apply Clear_read_write_present; assumption.
    - eexists. apply Clear_absent. exact Hp. }
  destruct H1 as [t1 H1]. exists t1.
  destruct (Clear_OK_absent t t1 H1) as [Hp1 _].
  destruct (Clear_keeps t t1 OK Hinv H1) as (Hinv1 & Hro & _).
  split; [exact H1|]. split; [exact Hinv1|]. split; [congruence|].
  split; [exact Hp1|].
  intros h Hh. unfold own_handle in Hh.
  assert (Hlt : h < next_handle (db t)).
  { apply Hfresh, Hlive. eapply list_elem_of_lookup_2. exact Hh. }
  unfold Clear in H1. simpl in H1.
  destruct (colIndex t <? length (colHandles t)) eqn:Hp.
  - rewrite Hrw, Hh in H1. unfold DropColumnFamily in H1.
    destruct (families (db t) !! h); [|discriminate].
    destruct (bool_decide (h = default_family (db t))); [discriminate|].
    simpl in H1. injection H1 as <-. simpl.
    split; [apply lookup_delete_eq | exact Hlt].
  - apply Nat.ltb_ge in Hp. apply lookup_lt_Some in Hh. lia.
Qed.

(** X15.  [ImportValues] on a read-write table that does not own the
    store's default column family always returns, never with OK: the status
    is NOT_FOUND exactly when there is no dump file, and OUT_OF_RANGE or
    INTERNAL otherwise.  Whatever the status, the column family the table
    had before the call is gone.  (When the table owns the default column
    family the clear at the start throws, see [Clear_default_refused].) *)
Theorem ImportValues_read_write (t : RocksDBTableOfTensors) (fs : FileSystem) :
  readOnly t = false -> table_inv t -> ~ owns_default t ->
  exists c t',
    ImportValues t fs = Done (c, t') /\
    (c = NOT_FOUND \/ c = OUT_OF_RANGE \/ c = INTERNAL) /\
    (c = NOT_FOUND <-> dump fs = None) /\
    forall h, own_handle t = Some h -> families (db t') !! h = None.
Proof.
  intros Hrw Hinv Hown.
  destruct (Clear_read_write t Hrw Hinv Hown)
    as (t1 & Hclear & Hinv1 & Hrw1 & Hp1 & Hgone).
  pose proof Hinv1 as [Hwf1 _]. pose proof Hwf1 as (Hle1 & _ & _).
  unfold ImportValues. rewrite Hclear. cbn [bind].
  rewrite bool_decide_eq_true_2 by reflexivity. cbn [negb].
  destruct (dump fs) as [content|].
  2:{ exists NOT_FOUND, t1. split; [reflexivity|]. split; [auto|].
      split; [tauto|]. intros h Hh. apply Hgone. exact Hh. }
  cbv zeta.
  destruct (ifstream_read 4 _) as [[magic|] f1] eqn:H1.
  2:{ exists OUT_OF_RANGE, t1. split; [reflexivity|]. split; [auto|].
      split; [split; discriminate|]. intros h Hh. apply Hgone. exact Hh. }
  destruct (ifstream_read 4 f1) as [[version|] f2] eqn:H2.
  2:{ exists OUT_OF_RANGE, t1. split; [reflexivity|]. split; [auto|].
      split; [split; discriminate|]. intros h Hh. apply Hgone. exact Hh. }
  destruct (_ || _).
  { exists INTERNAL, t1. split; [reflexivity|]. split; [auto|].
    split; [split; discriminate|]. intros h Hh. apply Hgone. exact Hh. }
  rewrite GetOrCreateColumnHandle_creates by assumption. cbn [bind].
  replace (readOnly (with_created_family t1)) with false by (symmetry; exact Hrw1).
  apply ifstream_read_good in H2 as [Heof2 _].
  destruct (import_loop_returns (S (String.length (unread f2))) f2 []
              (db (with_created_family t1)) (next_handle (db t1)) Heof2)
    as (store' & E & Ht);
    [lia | rewrite created_family_lookup; eauto | constructor |].
  rewrite E. cbn [bind].
  exists OUT_OF_RANGE, (set_db (with_created_family t1) store').
  split; [reflexivity|]. split; [auto|]. split; [split; discriminate|].
  intros h Hh. destruct (Hgone h Hh) as [Hnone Hlt].
  destruct Ht as (_ & _ & Hother). cbn [db set_db].
  rewrite Hother by lia. simpl.
  rewrite lookup_insert_ne by lia. exact Hnone.
Qed.

(** Witness of [ImportValues_read_write]: a dump with a wrong magic is
    imported into the table holding "k" -> "v". *)
Lemma ImportValues_read_write_witness :
  exists c t',
    ImportValues (table_one_record false) bad_magic_dump = Done (c, t') /\
    (c = NOT_FOUND \/ c = OUT_OF_RANGE \/ c = INTERNAL) /\
    (c = NOT_FOUND <-> dump bad_magic_dump = None) /\
    forall h, own_handle (table_one_record false) = Some h ->
              families (db t') !! h = None.
Proof.
  assert (Hown : ~ owns_default (table_one_record false))
    by (vm_compute; discriminate).
  exact (ImportValues_read_write (table_one_record false) bad_magic_dump
           eq_refl table_one_record_inv Hown).
Defined.

(** ** What [Insert] and [Remove] leave in the column family, on either path *)

(** On a read-write table the handle is that of a live column family
    holding the table's records, or none when it had to be created. *)
Lemma GetOrCreateColumnHandle_records (t : RocksDBTableOfTensors) :
  readOnly t = false -> table_inv t ->
  exists h t0,
    GetOrCreateColumnHandle t = Done (Some h, t0) /\
    readOnly t0 = false /\ own_handle t0 = Some h /\
    families (db t0) !! h = Some (default ∅ (namespace_records t)).
Proof.
  intros Hrw Hinv. pose proof Hinv as [Hwf _]. pose proof Hwf as (Hle & Hlive & _).
  destruct (namespace_present t) eqn:Hp.
  - destruct (namespace_present_lookup t Hp) as [h Hh].
    exists h, t. split; [apply GetOrCreateColumnHandle_present; assumption|].
    split; [exact Hrw|]. split; [exact Hh|].
    unfold namespace_records. rewrite Hh. cbn [mbind option_bind].
    destruct (Hlive h) as [cf Hcf]; [eapply list_elem_of_lookup_2; exact Hh|].
    simpl. rewrite Hcf. reflexivity.
  - exists (next_handle (db t)), (with_created_family t).
    split; [apply GetOrCreateColumnHandle_creates; assumption|].
    split; [exact Hrw|].
    unfold namespace_present in Hp. apply Nat.ltb_ge in Hp.
    assert (E : colIndex t = length (colHandles t)) by lia.
    split.
    + unfold own_handle, with_created_family. cbn [colHandles colIndex].
      rewrite E, lookup_app_r, Nat.sub_diag by lia. reflexivity.
    + rewrite created_family_lookup. unfold namespace_records.
      rewrite lookup_ge_None_2 by lia. reflexivity.
Qed.

Lemma set_db_records (t0 : RocksDBTableOfTensors) (store : DB) (h : nat) :
  own_handle t0 = Some h ->
  namespace_records (set_db t0 store) = families store !! h.
Proof.
  unfold own_handle, namespace_records. cbn [colHandles colIndex db set_db].
  intros ->. reflexivity.
Qed.

Lemma Remove_point_others (K : ElemType) (h : nat) (n : nat) :
  forall (store store' : DB) (k : Z) (cf cf' : gmap string string) (key : string),
  families store !! h = Some cf ->
  Remove_point K store h k n = Done store' ->
  families store' !! h = Some cf' ->
  (forall i, i < n -> key <> key_at K k i) ->
  cf' !! key = cf !! key.
Proof.
  induction n as [|n IH]; intros store store' k cf cf' key Hcf H Hcf' Hkey.
  - cbn [Remove_point] in H. injection H as <-. congruence.
  - cbn [Remove_point] in H. unfold Delete in H. cbn [apply_op] in H.
    rewrite Hcf in H. cbn [bind] in H.
    assert (E : cf' !! key = delete (assignSlice_pointer k) cf !! key).
    { eapply IH; [|exact H|exact Hcf'|].
      - cbn [families]. apply lookup_insert_eq.
      - intros i Hi. rewrite key_at_S. apply Hkey. lia. }
    rewrite E.
    apply lookup_delete_ne. rewrite <- key_at_0 with (K := K).
    intros E0. apply (Hkey 0); [lia | symmetry; exact E0].
Qed.

(** X16.  What [Insert] stores, on the point path and on the bulk path
    alike: on a read-write table, [Insert] of [n >= 1] rows of
    representable values returns OK; afterwards the column family holds, for
    every [i < n], under the bytes of the pointer to key [i], a slice that
    decodes to row [i] of the values; every other record of the column
    family is as it was. *)
Theorem Insert_stores_rows (K V : ElemType) (t : RocksDBTableOfTensors)
  (n valuesPerDim0 : nat) (keys : Tensor K) (values : Tensor V) :
  readOnly t = false -> table_inv t ->
  0 < sizeof K -> (Z.of_nat (n * sizeof K) <= 2 ^ 64)%Z ->
  dtype keys = DataTypeToEnum K -> dtype values = DataTypeToEnum V ->
  dim_size0 keys = n -> dim_size0 values = n -> 0 < n ->
  NumElements values = n * valuesPerDim0 ->
  Forall (representable V) (flat values) ->
  exists t1 cf',
    Insert K V t keys values = Done (OK, t1) /\
    namespace_records t1 = Some cf' /\
    (forall i, i < n ->
       exists slice,
         cf' !! key_at K (data keys) i = Some slice /\
         copyToTensor V slice valuesPerDim0
         = Done (take valuesPerDim0 (drop (i * valuesPerDim0) (flat values)))) /\
    (forall key, (forall i, i < n -> key <> key_at K (data keys) i) ->
       cf' !! key = default ∅ (namespace_records t) !! key).
Proof.
  intros Hrw Hinv Hsize Hfit Hk Hv Hnk Hnv Hpos Hlen Hall.
  destruct (GetOrCreateColumnHandle_records t Hrw Hinv)
    as (h & t0 & HG & Hrw0 & Hown0 & Hcf).
  unfold NumElements in Hlen.
  destruct (Insert_point_stores K V h valuesPerDim0 Hsize n (db t0) (data keys)
              (flat values) _ Hcf Hall Hlen Hfit)
    as (store' & cf' & E & _ & Hcf' & Hrows & Hframe).
  exists (set_db t0 store'), cf'.
  split; [|split; [rewrite (set_db_records t0 store' h Hown0); exact Hcf'|
                   split; [exact Hrows | exact Hframe]]].
  unfold Insert. rewrite !bool_decide_eq_true_2 by assumption. cbn [negb orb].
  rewrite HG. cbn [bind]. rewrite Hrw0, Hnk, Hnv, Nat.eqb_refl. cbn [negb].
  destruct (Nat.eqb_spec n 0) as [|_]; [lia|].
  replace (NumElements values / n) with valuesPerDim0
    by (unfold NumElements; rewrite Hlen, Nat.mul_comm, Nat.div_mul; lia).
  destruct (n <? RDB_BATCH_MODE_MIN_QUERY_SIZE).
  - rewrite E. reflexivity.
  - rewrite Insert_paths_agree by (rewrite Hcf; eauto). rewrite E. reflexivity.
Qed.

(** X17.  What [Remove] leaves, on the point path and on the bulk path
    alike: on a read-write table [Remove] of [n] keys returns OK; afterwards
    the column family holds no record under the bytes of the pointer to any
    key [i < n], and every other record is as it was. *)
Theorem Remove_deletes_keys (K : ElemType) (t : RocksDBTableOfTensors)
  (n : nat) (keys : Tensor K) :
  readOnly t = false -> table_inv t ->
  dtype keys = DataTypeToEnum K -> dim_size0 keys = n ->
  exists t1 cf',
    Remove K t keys = Done (OK, t1) /\
    namespace_records t1 = Some cf' /\
    (forall i, i < n -> cf' !! key_at K (data keys) i = None) /\
    (forall key, (forall i, i < n -> key <> key_at K (data keys) i) ->
       cf' !! key = default ∅ (namespace_records t) !! key).
Proof.
  intros Hrw Hinv Hk Hnk.
  destruct (GetOrCreateColumnHandle_records t Hrw Hinv)
    as (h & t0 & HG & Hrw0 & Hown0 & Hcf).
  destruct (Remove_point_deletes K h n (db t0) (data keys) _ Hcf)
    as (store' & cf' & E & _ & Hcf' & Hgone & _).
  exists (set_db t0 store'), cf'.
  split; [|split; [rewrite (set_db_records t0 store' h Hown0); exact Hcf'|
                   split; [exact Hgone|]]].
  - unfold Remove. rewrite !bool_decide_eq_true_2 by assumption. cbn [negb].
    rewrite HG. cbn [bind]. rewrite Hrw0, Hnk.
    destruct (n <? RDB_BATCH_MODE_MIN_QUERY_SIZE).
    + rewrite E. reflexivity.
    + rewrite Remove_paths_agree, E. reflexivity.
  - intros key Hkey.
    eapply Remove_point_others; eassumption.
Qed.

(** Witness of [Insert_stores_rows]: thirty-two rows, on the bulk path. *)
Lemma Insert_stores_rows_witness :
  exists t1 cf',
    Insert int64 int32 (table_absent false) keys_32 rows_32 = Done (OK, t1) /\
    namespace_records t1 = Some cf' /\
    (forall i, i < 32 ->
       exists slice,
         cf' !! key_at int64 (data keys_32) i = Some slice /\
         copyToTensor int32 slice 1
         = Done (take 1 (drop (i * 1) (flat rows_32)))) /\
    (forall key, (forall i, i < 32 -> key <> key_at int64 (data keys_32) i) ->
       cf' !! key = default ∅ (namespace_records (table_absent false)) !! key).
Proof.
  assert (Hsize : 0 < sizeof int64) by (vm_compute; lia).
  assert (Hfit : (Z.of_nat (32 * sizeof int64) <= 2 ^ 64)%Z)
    by (vm_compute; discriminate).
  assert (Hpos : 0 < 32) by lia.
  assert (Hall : Forall (representable int32) (flat rows_32)).
  { apply Forall_forall. intros z Hz.
    apply elem_of_replicate in Hz as [-> _].
    split; [simpl; lia | split; vm_compute; first [discriminate | reflexivity]]. }
  exact (Insert_stores_rows int64 int32 (table_absent false) 32 1 keys_32 rows_32
           eq_refl (table_absent_inv false) Hsize Hfit eq_refl eq_refl eq_refl
           eq_refl Hpos eq_refl Hall).
Defined.

(** Witness of [Remove_deletes_keys]: thirty-two keys, on the bulk path. *)
Lemma Remove_deletes_keys_witness :
  exists t1 cf',
    Remove int64 table_key_7 keys_32 = Done (OK, t1) /\
    namespace_records t1 = Some cf' /\
    (forall i, i < 32 -> cf' !! key_at int64 (data keys_32) i = None) /\
    (forall key, (forall i, i < 32 -> key <> key_at int64 (data keys_32) i) ->
       cf' !! key = default ∅ (namespace_records table_key_7) !! key).
Proof.
  exact (Remove_deletes_keys int64 table_key_7 32 keys_32
           eq_refl table_key_7_inv eq_refl eq_refl).
Defined.

(** ** Calls that write nothing *)






(** X19.  Asking for the column-family handle once more gives the same
    handle and changes nothing: the table's column family is created at most
    once. *)
Theorem GetOrCreateColumnHandle_idempotent (t t0 : RocksDBTableOfTensors)
  (o : option nat) :
  table_wf t ->
  GetOrCreateColumnHandle t = Done (o, t0) ->
  GetOrCreateColumnHandle t0 = Done (o, t0).
Proof.
  intros (Hle & _ & _) H.
  destruct (namespace_present t) eqn:Hp.
  - destruct (namespace_present_lookup t Hp) as [h Hh].
    rewrite (GetOrCreateColumnHandle_present t h Hp Hh) in H.
    injection H as <- <-. apply GetOrCreateColumnHandle_present; assumption.
  - destruct (readOnly t) eqn:Hro.
    + rewrite (GetOrCreateColumnHandle_read_only_absent t Hro Hp) in H.
      injection H as <- <-.
      apply GetOrCreateColumnHandle_read_only_absent; assumption.
    + rewrite (GetOrCreateColumnHandle_creates t Hro Hp Hle) in H.
      injection H as <- <-.
      apply GetOrCreateColumnHandle_present;
        [apply created_family_present; exact Hle|].
      unfold namespace_present in Hp. apply Nat.ltb_ge in Hp.
      assert (E : colIndex t = length (colHandles t)) by lia.
      unfold with_created_family. cbn [colHandles colIndex CreateColumnFamily fst].
      rewrite E, lookup_app_r, Nat.sub_diag by lia. reflexivity.
Qed.

(** Witness of [GetOrCreateColumnHandle_idempotent]: the call that creates
    the column family, repeated. *)
Lemma GetOrCreateColumnHandle_idempotent_witness :
  GetOrCreateColumnHandle (table_absent false)
  = Done (Some 1, with_created_family (table_absent false)) /\
  GetOrCreateColumnHandle (with_created_family (table_absent false))
  = Done (Some 1, with_created_family (table_absent false)).
Proof.
  assert (H : GetOrCreateColumnHandle (table_absent false)
              = Done (Some 1, with_created_family (table_absent false)))
    by (vm_compute; reflexivity).
  split; [exact H|].
  exact (GetOrCreateColumnHandle_idempotent (table_absent false)
           (with_created_family (table_absent false)) (Some 1)
           (table_absent_wf false) H).
Defined.



(** ** A row of another width, and an empty batch *)

Lemma copyToTensor_fixed_other_width (dt : DataType) (w : nat) (slice : string)
  (n n' : nat) (l : list Z) :
  0 < w -> n' <> n ->
  copyToTensor (fixed_width dt w) slice n = Done l ->
  copyToTensor (fixed_width dt w) slice n'
  = Throw (UnexpectedSliceSize (n' * w) (n * w)).
Proof.
  intros Hw Hn. cbn [copyToTensor]. unfold copyToTensor_fixed.
  destruct (Nat.eqb_spec (String.length slice) (n * w)) as [Hs|]; [|discriminate].
  intros _. rewrite Hs.
  destruct (Nat.eqb_spec (n * w) (n' * w)) as [E|_]; [|reflexivity].
  apply Nat.mul_cancel_r in E; [congruence | lia].
Qed.

(** X21.  A stored row of another width makes [Find] throw: after [Insert]
    of one row of [valuesPerDim0] fixed-width values, a [Find] of one key
    through the same key buffer that asks for a row of a different width
    does not return a status; [copyToTensor] throws, reporting the expected
    and the stored number of bytes.  (One key is the only number the point
    paths serve.) *)
Theorem Find_row_width_mismatch (K : ElemType) (dt : DataType) (w : nat)
  (t : RocksDBTableOfTensors) (valuesPerDim0 valuesPerDim0' : nat)
  (keys keys' : Tensor K)
  (inserted values default_value : Tensor (fixed_width dt w)) :
  readOnly t = false -> table_inv t ->
  0 < w ->
  one_key_call K (fixed_width dt w) valuesPerDim0 keys inserted ->
  Forall (representable (fixed_width dt w)) (flat inserted) ->
  one_key_call K (fixed_width dt w) valuesPerDim0' keys' values ->
  valuesPerDim0' <> valuesPerDim0 ->
  data keys' = data keys ->
  dtype default_value = dt ->
  NumElements default_value mod valuesPerDim0' = 0 ->
  exists t1,
    Insert K (fixed_width dt w) t keys inserted = Done (OK, t1) /\
    Find K (fixed_width dt w) t1 keys' values default_value
    = Throw (UnexpectedSliceSize (valuesPerDim0' * w) (valuesPerDim0 * w)).
Proof.
  intros Hrw Hinv Hw Hins Hall Hfind Hne Haddr Hd Hmod.
  destruct (GetOrCreateColumnHandle_read_write t Hrw Hinv)
    as (h & t0 & HG & Hinv0 & Hrw0 & Hp0 & Hown0 & [cf Hcf]).
  pose proof Hins as (_ & _ & _ & _ & Hlen & _).
  unfold NumElements in Hlen.
  destruct (Insert_point_one K (fixed_width dt w) (db t0) h (data keys)
              (flat inserted) cf Hcf Hall)
    as (store' & slice & E & Hcf' & Hdec).
  rewrite Hlen in E, Hdec.
  exists (set_db t0 store'). split.
  - rewrite (Insert_point_call K (fixed_width dt w) 1 valuesPerDim0 t t0 h keys
               inserted
               (one_key_point_call K _ valuesPerDim0 keys inserted Hins) HG Hrw0).
    rewrite E. reflexivity.
  - rewrite (Find_point_call K (fixed_width dt w) 1 valuesPerDim0' (set_db t0 store')
               h keys' values default_value
               (one_key_point_call K _ valuesPerDim0' keys' values Hfind)
               Hd Hmod Hp0 Hown0).
    cbn [db set_db Find_point]. rewrite Haddr.
    unfold Get. rewrite Hcf'. cbn [bind]. rewrite lookup_insert_eq.
    cbn [store_result].
    rewrite (copyToTensor_fixed_other_width dt w slice valuesPerDim0 valuesPerDim0'
               _ Hw Hne Hdec).
    reflexivity.
Qed.

(** Witness of [Find_row_width_mismatch]: a row of three [int32] values is
    stored, and a row of six is asked for. *)
Lemma Find_row_width_mismatch_witness :
  exists t1,
    Insert int64 int32 (table_absent false) one_key row_123_values = Done (OK, t1) /\
    Find int64 int32 t1 one_key one_row_of_six default_six_nines
    = Throw (UnexpectedSliceSize 24 12).
Proof.
  assert (Hw : 0 < 4) by lia.
  assert (Hins : one_key_call int64 int32 3 one_key row_123_values)
    by (apply one_row_call; reflexivity).
  assert (Hfind : one_key_call int64 int32 6 one_key one_row_of_six).
  { unfold one_key_call, NumElements.
    cbn [dtype dim_size0 flat one_key one_row_of_six].
    repeat split; try reflexivity. lia. }
  assert (Hne : 6 <> 3) by lia.
  exact (Find_row_width_mismatch int64 DT_INT32 4 (table_absent false) 3 6
           one_key one_key row_123_values one_row_of_six default_six_nines
           eq_refl (table_absent_inv false) Hw Hins
           row_123_representable Hfind Hne eq_refl eq_refl eq_refl).
Defined.

Lemma GetOrCreateColumnHandle_returns (t : RocksDBTableOfTensors) :
  table_wf t ->
  exists o t1, GetOrCreateColumnHandle t = Done (o, t1) /\
               (readOnly t = false -> is_Some o /\ readOnly t1 = false).
Proof.
  intros (Hle & _ & _).
  destruct (namespace_present t) eqn:Hp.
  - destruct (namespace_present_lookup t Hp) as [h Hh].
    exists (Some h), t. split; [apply GetOrCreateColumnHandle_present; assumption|].
    eauto.
  - destruct (readOnly t) eqn:Hro.
    + exists None, t.
      split; [apply GetOrCreateColumnHandle_read_only_absent; assumption|].
      discriminate.
    + eexists _, _. split; [apply GetOrCreateColumnHandle_creates; assumption|].
      intros _. split; [eauto | exact Hro].
Qed.

(** X22.  An empty batch is not handled: with no keys and no rows (first
    dimensions 0), [Find] on any table and [Insert] on a read-write table
    reach the division [NumElements / numValues] with a zero divisor.
    [Find] does the same through [dSize % valuesPerDim0] when the rows hold
    no values. *)
Theorem empty_batch_divides_by_zero (K V : ElemType) (t : RocksDBTableOfTensors)
  (keys : Tensor K) (values default_value : Tensor V) :
  table_wf t ->
  dtype keys = DataTypeToEnum K -> dtype values = DataTypeToEnum V ->
  dtype default_value = DataTypeToEnum V ->
  dim_size0 keys = dim_size0 values ->
  (dim_size0 values = 0 ->
   Find K V t keys values default_value = Undefined DivisionByZero /\
   (readOnly t = false -> Insert K V t keys values = Undefined DivisionByZero)) /\
  (dim_size0 values <> 0 -> NumElements values = 0 ->
   Find K V t keys values default_value = Undefined DivisionByZero).
Proof.
  intros Hwf Hk Hv Hd Hn.
  destruct (GetOrCreateColumnHandle_returns t Hwf) as (o & t1 & HG & Hrw).
  split.
  - intros H0. split.
    + unfold Find. rewrite !bool_decide_eq_true_2 by assumption. cbn [negb orb].
      rewrite HG. cbn [bind]. rewrite Hn, Nat.eqb_refl. cbn [negb].
      rewrite H0. reflexivity.
    + intros Hro. destruct (Hrw Hro) as [[h ->] Hro1].
      unfold Insert. rewrite !bool_decide_eq_true_2 by assumption. cbn [negb orb].
      rewrite HG. cbn [bind]. rewrite Hro1, Hn, Nat.eqb_refl. cbn [negb].
      rewrite H0. reflexivity.
  - intros Hpos Hsmall.
    unfold Find. rewrite !bool_decide_eq_true_2 by assumption. cbn [negb orb].
    rewrite HG. cbn [bind]. rewrite Hn, Nat.eqb_refl. cbn [negb].
    destruct (Nat.eqb_spec (dim_size0 values) 0) as [|_]; [contradiction|].
    rewrite Hsmall, Nat.Div0.div_0_l. reflexivity.
Qed.

(** Witness of [empty_batch_divides_by_zero]: tensors without elements. *)
Lemma empty_batch_divides_by_zero_witness :
  Find int64 int32 (table_absent false) no_keys no_rows default_nines
  = Undefined DivisionByZero /\
  Insert int64 int32 (table_absent false) no_keys no_rows
  = Undefined DivisionByZero.
Proof.
  destruct (empty_batch_divides_by_zero int64 int32 (table_absent false)
              no_keys no_rows default_nines (table_absent_wf false)
              eq_refl eq_refl eq_refl eq_refl)
    as [Hzero _].
  destruct (Hzero eq_refl) as [Hfind Hinsert].
  split; [exact Hfind | exact (Hinsert eq_refl)].
Defined.

(** ** Key slices *)

(** X23.  Distinct keys have distinct slices: for two different
    representable values of an element type, [assignSlice] gives different
    bytes, so two keys never share a record on the path that encodes the
    key itself. *)
Theorem assignSlice_injective (T : ElemType) (x y : T) :
  representable T x -> representable T y ->
  x <> y -> assignSlice T x <> assignSlice T y.
Proof.
  destruct T as [dt w|]; cbn [assignSlice representable carrier] in *.
  - intros [Hw Hx] [_ Hy] Hne E. apply Hne.
    rewrite <- (to_signed_le_bytes w x Hw Hx), <- (to_signed_le_bytes w y Hw Hy).
    rewrite E. reflexivity.
  - intros _ _ Hne E. apply Hne. exact E.
Qed.

(** Witness of [assignSlice_injective]: the keys 7 and 8. *)
Lemma assignSlice_injective_witness :
  assignSlice int64 7%Z <> assignSlice int64 8%Z.
Proof.
  assert (H7 : representable int64 7%Z)
    by (split; [simpl; lia | split; vm_compute; first [discriminate | reflexivity]]).
  assert (H8 : representable int64 8%Z)
    by (split; [simpl; lia | split; vm_compute; first [discriminate | reflexivity]]).
  assert (Hne : (7 <> 8)%Z) by discriminate.
  exact (assignSlice_injective int64 7%Z 8%Z H7 H8 Hne).
Defined.

(** ** The default column family *)

(** X24.  The default column family cannot be cleared: on a read-write
    table whose own column family is the store's default one (a table whose
    [embedding_name] is "default"), the engine refuses the drop, so [Clear]
    throws out of [RDB_OK], and so does [ImportValues], which clears first;
    neither returns a status. *)
Theorem default_family_not_dropped (t : RocksDBTableOfTensors) (fs : FileSystem) :
  readOnly t = false -> table_wf t -> owns_default t ->
  Clear t = Throw StoreStatus /\ ImportValues t fs = Throw StoreStatus.
Proof.
  intros Hrw Hwf Hd.
  pose proof (Clear_default_refused t Hrw Hwf Hd) as Hclear.
  split; [exact Hclear|].
  unfold ImportValues. rewrite Hclear. reflexivity.
Qed.

(** Witness of [default_family_not_dropped]: a table constructed with the
    name "default" over a store that holds "k" -> "v" in its default column
    family. *)
Lemma default_family_not_dropped_witness :
  Clear (construct false "default" [("default", {["k" := "v"]})])
  = Throw StoreStatus /\
  ImportValues (construct false "default" [("default", {["k" := "v"]})]) no_dump
  = Throw StoreStatus.
Proof.
  assert (Hwf : table_wf (construct false "default" [("default", {["k" := "v"]})]))
    by (apply table_wfb_wf; vm_compute; reflexivity).
  assert (Hd : owns_default (construct false "default" [("default", {["k" := "v"]})]))
    by (vm_compute; reflexivity).
  exact (default_family_not_dropped
           (construct false "default" [("default", {["k" := "v"]})]) no_dump
           eq_refl Hwf Hd).
Defined.
